(** * States of Matter: the simulation canvas

    A shallow embedding of [src/components/SimulationCanvas.tsx] (with the
    types of [src/types.ts]) and the properties of its particle motion,
    liquid-fill smoothing, state store, hit-testing and bowl renderer.

    Numbers.  A JavaScript [number] is modelled as a real number or [NaN]:
    arithmetic is exact (no rounding), magnitudes are unbounded (no overflow
    to an infinity), and [NaN] is produced and propagated as in the language
    ([Math.sqrt] of a negative number, [0/0], any operation on [NaN]; every
    comparison with [NaN] is false).  Where rounding decides a property (the
    upper end of the spawn radius), the expression is evaluated in IEEE 754
    binary64 as well ([Binary64]). *)

From Stdlib Require Import Reals Lra Lia ZArith List String SpecFloat.
From stdpp Require Import base option list gmap.
Import ListNotations.

Open Scope R_scope.

(** ** JavaScript numbers *)

Inductive num : Type :=
| Num (r : R)
| NaN.

Definition add (a b : num) : num :=
  match a, b with Num x, Num y => Num (x + y) | _, _ => NaN end.

Definition sub (a b : num) : num :=
  match a, b with Num x, Num y => Num (x - y) | _, _ => NaN end.

Definition mul (a b : num) : num :=
  match a, b with Num x, Num y => Num (x * y) | _, _ => NaN end.

(** [a / b].  A zero divisor yields [NaN]: that is JavaScript's [0/0].  The
    quotient of a non-zero number by zero is an infinity in JavaScript, for
    which the model has no value; the source divides by the constant [2] and,
    in the CIRCLE branch, [dx] and [dy] by [dist = Math.sqrt(dx*dx + dy*dy)],
    where a zero divisor forces a zero dividend (lemma [dist_zero_inv]
    below). *)
Definition div (a b : num) : num :=
  match a, b with
  | Num x, Num y => if Req_dec_T y 0 then NaN else Num (x / y)
  | _, _ => NaN
  end.

Definition ltb (a b : num) : bool :=
  match a, b with Num x, Num y => if Rlt_dec x y then true else false | _, _ => false end.

Definition gtb (a b : num) : bool := ltb b a.

Definition leb (a b : num) : bool :=
  match a, b with Num x, Num y => if Rle_dec x y then true else false | _, _ => false end.

Definition geb (a b : num) : bool := leb b a.

(** [a === b] on numbers. *)
Definition eqb (a b : num) : bool :=
  match a, b with Num x, Num y => if Req_dec_T x y then true else false | _, _ => false end.

Definition isNaN (a : num) : bool :=
  match a with NaN => true | Num _ => false end.

Definition Math_sqrt (a : num) : num :=
  match a with
  | Num x => if Rlt_dec x 0 then NaN else Num (sqrt x)
  | NaN => NaN
  end.

Definition Math_abs (a : num) : num :=
  match a with Num x => Num (Rabs x) | NaN => NaN end.

Definition Math_floor (a : num) : num :=
  match a with Num x => Num (IZR (Int_part x)) | NaN => NaN end.

(** What reading a missing array slot ([undefined]) gives in arithmetic. *)
Definition to_num (o : option num) : num :=
  match o with Some a => a | None => NaN end.

Definition Math_PI : num := Num PI.

Definition neg (a : num) : num :=
  match a with Num x => Num (- x) | NaN => NaN end.

(** [l.length] and [l[i]] for an array literal [l] and a number [i]; an index
    that is not an integer within range reads [undefined]. *)
Definition array_length {A : Type} (l : list A) : num :=
  Num (IZR (Z.of_nat (length l))).

Definition array_get {A : Type} (l : list A) (i : num) : option A :=
  match i with
  | Num r =>
      let z := Int_part r in
      if Req_dec_T r (IZR z)
      then (if (0 <=? z)%Z then l !! Z.to_nat z else None)
      else None
  | NaN => None
  end.

(** ** Data model ([src/types.ts]) *)

Inductive ContainerType : Type := CUBE | CYLINDER | SPHERE.

Inductive MatterState : Type := EMPTY | SOLID | LIQUID | GAS.

Record ContainerData : Type := mkContainerData {
  c_id : Z;
  c_type : ContainerType;
  c_matter : MatterState;
  c_label : string
}.

(** [color] is [None] for JavaScript's [undefined], which is what an
    out-of-range index into the palette yields. *)
Record Particle : Type := mkParticle {
  p_x : num;
  p_y : num;
  p_vx : num;
  p_vy : num;
  p_radius : num;
  p_color : option string
}.

Record Bounds : Type := mkBounds {
  b_id : Z;
  b_x : num;
  b_y : num;
  b_w : num;
  b_h : num
}.

(** The animation state of [simStateRef].  The three per-vessel arrays are
    only ever read and written by index (never iterated, their length never
    read), so they are finite maps from the index: a missing key reads as
    [undefined], a write to any index inserts.  [containerBounds] is iterated
    in order and is a list. *)
Record SimState : Type := mkSimState {
  waterLevels : gmap nat num;
  currentWaterLevels : gmap nat num;
  particles : gmap nat (list Particle);
  containerBounds : list Bounds
}.

Definition matter_eqb (a b : MatterState) : bool :=
  match a, b with
  | EMPTY, EMPTY | SOLID, SOLID | LIQUID, LIQUID | GAS, GAS => true
  | _, _ => false
  end.

Module COLORS.
Definition glassBorder : string := "rgba(100, 130, 160, 0.5)".
Definition glassInnerStroke : string := "rgba(100, 130, 160, 0.2)".
Definition glassFill : string := "rgba(220, 240, 255, 0.2)".
Definition glassHighlight : string := "rgba(255, 255, 255, 0.6)".
Definition waterFill : string := "rgba(59, 130, 246, 0.5)".
Definition waterSurface : string := "rgba(147, 197, 253, 0.8)".
Definition waterStroke : string := "rgba(37, 99, 235, 0.3)".
Definition rock : string := "#57534e".
Definition rockLight : string := "#a8a29e".
Definition gasParticles : list string := ["#ef4444"; "#f59e0b"; "#10b981"; "#8b5cf6"]%string.
Definition selectionGlow : string := "rgba(250, 204, 21, 0.4)".
End COLORS.

(** ** The drawing surface

    A call on the 2D context, or an assignment to one of its properties.  A
    drawing function returns the calls it makes, in order. *)

Inductive CanvasOp : Type :=
| ctx_fillStyle (s : option string)
| ctx_strokeStyle (s : string)
| ctx_lineWidth (w : num)
| ctx_lineCap (s : string)
| ctx_save
| ctx_restore
| ctx_beginPath
| ctx_closePath
| ctx_fill
| ctx_stroke
| ctx_clip
| ctx_translate (x y : num)
| ctx_moveTo (x y : num)
| ctx_lineTo (x y : num)
| ctx_arc (x y r startAngle endAngle : num)
| ctx_ellipse (x y rx ry rotation startAngle endAngle : num)
| ctx_fillRect (x y w h : num).

(** ** Particle motion ([updateParticles]) *)

Inductive Shape : Type := RECT | CIRCLE.

Definition set_pos (p : Particle) (x y : num) : Particle :=
  mkParticle x y (p_vx p) (p_vy p) (p_radius p) (p_color p).

Definition set_x_vx (p : Particle) (x vx : num) : Particle :=
  mkParticle x (p_y p) vx (p_vy p) (p_radius p) (p_color p).

Definition set_y_vy (p : Particle) (y vy : num) : Particle :=
  mkParticle (p_x p) y (p_vx p) vy (p_radius p) (p_color p).

(** [p.x += p.vx; p.y += p.vy]. *)
Definition integrate (p : Particle) : Particle :=
  set_pos p (add (p_x p) (p_vx p)) (add (p_y p) (p_vy p)).

(** The "Init Check" block; it runs after the integration. *)
Definition initCheck (shape : Shape) (bx by_ bw bh : num) (p : Particle) : Particle :=
  if eqb (p_x p) (Num 0) && eqb (p_y p) (Num 0) then
    match shape with
    | RECT => set_pos p (add bx (div bw (Num 2))) (add by_ (div bh (Num 2)))
    | CIRCLE => set_pos p bx by_
    end
  else p.

(** The four wall tests of the RECT branch, in the order of the source. *)
Definition bounceLeft (bx : num) (p : Particle) : Particle :=
  if ltb (p_x p) (add bx (p_radius p))
  then set_x_vx p (add bx (p_radius p)) (mul (p_vx p) (Num (-1))) else p.

Definition bounceRight (bx bw : num) (p : Particle) : Particle :=
  if gtb (p_x p) (sub (add bx bw) (p_radius p))
  then set_x_vx p (sub (add bx bw) (p_radius p)) (mul (p_vx p) (Num (-1))) else p.

Definition bounceTop (by_ : num) (p : Particle) : Particle :=
  if ltb (p_y p) (add by_ (p_radius p))
  then set_y_vy p (add by_ (p_radius p)) (mul (p_vy p) (Num (-1))) else p.

Definition bounceBottom (by_ bh : num) (p : Particle) : Particle :=
  if gtb (p_y p) (sub (add by_ bh) (p_radius p))
  then set_y_vy p (sub (add by_ bh) (p_radius p)) (mul (p_vy p) (Num (-1))) else p.

(** The CIRCLE branch: [bx, by] is the centre and [bw] the radius.  The two
    velocity assignments run one after the other, so the second reads the
    [p.vx] that the first has just written. *)
Definition reflectCircle (bx by_ bw : num) (p : Particle) : Particle :=
  let dx := sub (p_x p) bx in
  let dy := sub (p_y p) by_ in
  let dist := Math_sqrt (add (mul dx dx) (mul dy dy)) in
  if gtb dist (sub bw (p_radius p)) then
    let nx := div dx dist in
    let ny := div dy dist in
    let vx1 := sub (p_vx p) (mul (mul (Num 2) (add (mul (p_vx p) nx) (mul (p_vy p) ny))) nx) in
    let vy1 := sub (p_vy p) (mul (mul (Num 2) (add (mul vx1 nx) (mul (p_vy p) ny))) ny) in
    mkParticle
      (add bx (mul nx (sub (sub bw (p_radius p)) (Num 1))))
      (add by_ (mul ny (sub (sub bw (p_radius p)) (Num 1))))
      vx1 vy1 (p_radius p) (p_color p)
  else p.

(** The "Bounds" block. *)
Definition bounds (shape : Shape) (bx by_ bw bh : num) (p : Particle) : Particle :=
  match shape with
  | RECT => bounceBottom by_ bh (bounceTop by_ (bounceRight bx bw (bounceLeft bx p)))
  | CIRCLE => reflectCircle bx by_ bw p
  end.

(** One particle's state after the body of the [forEach]. *)
Definition updateParticle (shape : Shape) (bx by_ bw bh : num) (p : Particle) : Particle :=
  bounds shape bx by_ bw bh (initCheck shape bx by_ bw bh (integrate p)).

Definition drawParticle (p : Particle) : list CanvasOp :=
  [ ctx_beginPath;
    ctx_fillStyle (p_color p);
    ctx_arc (p_x p) (p_y p) (p_radius p) (Num 0) (mul Math_PI (Num 2));
    ctx_fill ].

(** The particles are updated in place; the result is the batch after the
    tick and the calls made on the context. *)
Definition updateParticles (ps : list Particle) (bx by_ bw bh : num) (shape : Shape)
  : list Particle * list CanvasOp :=
  let ps' := map (updateParticle shape bx by_ bw bh) ps in
  (ps', flat_map drawParticle ps').

(** ** Liquid fill smoothing ([drawScene], "Update water animation") *)

Definition fillStep (target current : num) : num :=
  add current (mul (sub target current) (Num 0.05)).

(** The update of slot [i] in one frame. *)
Definition advanceFill (i : nat) (st : SimState) : SimState :=
  let target := to_num (waterLevels st !! i) in
  let current := to_num (currentWaterLevels st !! i) in
  mkSimState (waterLevels st)
             (<[i := fillStep target current]> (currentWaterLevels st))
             (particles st) (containerBounds st).

(** ** Pointer hit-testing ([handleClick]) *)

Definition inHitbox (x y : num) (b : Bounds) : bool :=
  geb x (sub (b_x b) (Num 10)) && leb x (add (add (b_x b) (b_w b)) (Num 10))
  && geb y (sub (b_y b) (Num 40)) && leb y (add (add (b_y b) (b_h b)) (Num 40)).

(** The ids passed to [onSelect], in call order. *)
Definition hitTest (bs : list Bounds) (x y : num) : list Z :=
  map b_id (List.filter (inHitbox x y) bs).

(** [canvas] is the bounding rectangle's [left] and [top] of the canvas, or
    [None] when [canvasRef.current] is null. *)
Definition handleClick (canvas : option (num * num)) (clientX clientY : num)
    (st : SimState) : list Z :=
  match canvas with
  | None => []
  | Some (rect_left, rect_top) =>
      hitTest (containerBounds st) (sub clientX rect_left) (sub clientY rect_top)
  end.

(** ** The state store (the effect "Initialize particles and water targets")

    [random n] is the value of the [n]-th call of [Math.random]; the number
    of calls made so far is threaded next to the state. *)

Inductive Outcome (A : Type) : Type :=
| Done (a : A)
| TypeError (a : A).
Arguments Done {A} a.
Arguments TypeError {A} a.

Section Store.
Variable random : nat -> R.

(** The object literal pushed by the spawn loop; its four random draws are
    evaluated in field order. *)
Definition newParticle (k : nat) : Particle :=
  mkParticle
    (Num 0) (Num 0)
    (mul (sub (Num (random k)) (Num 0.5)) (Num 3))
    (mul (sub (Num (random (k + 1))) (Num 0.5)) (Num 3))
    (add (Num 4) (mul (Num (random (k + 2))) (Num 4)))
    (array_get COLORS.gasParticles
       (Math_floor (mul (Num (random (k + 3))) (array_length COLORS.gasParticles)))).

(** [for (let i = 0; i < 40; i++) newParticles.push(...)]. *)
Definition newParticles (k : nat) : list Particle :=
  map (fun i => newParticle (k + 4 * i)) (seq 0 40).

Definition set_waterLevel (st : SimState) (index : nat) (v : num) : SimState :=
  mkSimState (<[index := v]> (waterLevels st)) (currentWaterLevels st)
             (particles st) (containerBounds st).

Definition set_particles (st : SimState) (index : nat) (ps : list Particle) : SimState :=
  mkSimState (waterLevels st) (currentWaterLevels st)
             (<[index := ps]> (particles st)) (containerBounds st).

(** The callback of [containers.forEach].  Reading [.length] of a missing
    batch throws; the state then keeps the writes made so far. *)
Definition effectBody (c : ContainerData) (index : nat) (s : SimState * nat)
  : Outcome (SimState * nat) :=
  let '(st, k) := s in
  let st1 := set_waterLevel st index
               (if matter_eqb (c_matter c) LIQUID then Num 0.7 else Num 0) in
  if matter_eqb (c_matter c) GAS then
    match particles st1 !! index with
    | None => TypeError (st1, k)
    | Some batch =>
        if (length batch =? 0)%nat
        then Done (set_particles st1 index (newParticles k), (k + 160)%nat)
        else Done (st1, k)
    end
  else Done (set_particles st1 index [], k).

Fixpoint effectLoop (cs : list ContainerData) (index : nat) (s : SimState * nat)
  : Outcome (SimState * nat) :=
  match cs with
  | [] => Done s
  | c :: cs' =>
      match effectBody c index s with
      | Done s' => effectLoop cs' (S index) s'
      | TypeError s' => TypeError s'
      end
  end.

Definition initEffect (containers : list ContainerData) (s : SimState * nat)
  : Outcome (SimState * nat) :=
  effectLoop containers 0 s.
End Store.

(** ** The spawn radius in binary64

    The program's numbers are IEEE 754 binary64 values, and each operation
    rounds to nearest, ties to even.  [Binary64.radius] is the expression
    [4 + Math.random() * 4] of the spawn loop in that arithmetic, [u] being
    the value [Math.random()] returned. *)

Module Binary64.
Definition prec : Z := 53.
Definition emax : Z := 1024.

Definition is_binary64 (f : spec_float) : bool := valid_binary prec emax f.

(** An integer literal. *)
Definition of_Z (n : Z) : spec_float := binary_normalize prec emax n 0 false.

Definition mul : spec_float -> spec_float -> spec_float := SFmul prec emax.
Definition add : spec_float -> spec_float -> spec_float := SFadd prec emax.

Definition radius (u : spec_float) : spec_float := add (of_Z 4) (mul u (of_Z 4)).

(** The largest binary64 value below [1]. *)
Definition below_one : spec_float := SFpred prec emax (of_Z 1).

(** The real number a finite value stands for. *)
Definition value (f : spec_float) : option R :=
  match f with
  | S754_zero _ => Some 0
  | S754_finite s m e =>
      let a := if (0 <=? e)%Z then IZR (Z.pos m * 2 ^ e)
               else IZR (Z.pos m) / IZR (2 ^ (- e)) in
      Some (if s then - a else a)
  | S754_infinity _ | S754_nan => None
  end.
End Binary64.

(** The initial value of [simStateRef]. *)
Definition initialState (containers : list ContainerData) : SimState :=
  mkSimState (map_seq 0 ((fun _ => Num 0) <$> containers))
             (map_seq 0 ((fun _ => Num 0) <$> containers))
             (map_seq 0 ((fun _ => []) <$> containers))
             [].

(** ** The bowl ([drawRock], [drawSphere]) *)

Definition drawRock (x y size : num) : list CanvasOp :=
  [ ctx_save;
    ctx_translate x y;
    ctx_fillStyle (Some COLORS.rock);
    ctx_strokeStyle "#292524";
    ctx_lineWidth (Num 2);
    ctx_beginPath;
    ctx_moveTo (Num 0) (Num 0);
    ctx_lineTo (mul size (Num 0.3)) (mul (neg size) (Num 0.2));
    ctx_lineTo (mul size (Num 0.6)) (Num 0);
    ctx_lineTo (mul size (Num 0.8)) (mul size (Num 0.4));
    ctx_lineTo (mul size (Num 0.5)) (mul size (Num 0.7));
    ctx_lineTo (mul size (Num 0.1)) (mul size (Num 0.5));
    ctx_closePath;
    ctx_fill;
    ctx_stroke;
    ctx_fillStyle (Some COLORS.rockLight);
    ctx_beginPath;
    ctx_moveTo (mul size (Num 0.3)) (mul (neg size) (Num 0.2));
    ctx_lineTo (mul size (Num 0.5)) (mul size (Num 0.2));
    ctx_lineTo (Num 0) (Num 0);
    ctx_fill;
    ctx_restore ].

(** "1. Glass Body (Back/Fill)". *)
Definition sphereGlassBody (cx cy r : num) : list CanvasOp :=
  [ ctx_fillStyle (Some COLORS.glassFill);
    ctx_beginPath;
    ctx_arc cx cy r (Num 0) (mul Math_PI (Num 2));
    ctx_fill;
    ctx_lineWidth (Num 1);
    ctx_strokeStyle COLORS.glassInnerStroke;
    ctx_stroke ].

(** The clipped liquid body of the LIQUID branch, up to [fillRect]. *)
Definition sphereLiquidBody (x w cx cy r wy lh : num) : list CanvasOp :=
  [ ctx_save;
    ctx_beginPath;
    ctx_arc cx cy r (Num 0) (mul Math_PI (Num 2));
    ctx_clip;
    ctx_fillStyle (Some COLORS.waterFill);
    ctx_fillRect x wy w lh ].

(** The guarded "Surface ellipse". *)
Definition sphereSurface (cx wy surfaceR : num) : list CanvasOp :=
  if negb (isNaN surfaceR) && gtb surfaceR (Num 0) then
    [ ctx_fillStyle (Some COLORS.waterSurface);
      ctx_beginPath;
      ctx_ellipse cx wy surfaceR (mul surfaceR (Num 0.3)) (Num 0) (Num 0) (mul Math_PI (Num 2));
      ctx_fill ]
  else [].

(** "3. Glass Details (Front)". *)
Definition sphereGlassDetails (cx cy r openR openRy openY : num) : list CanvasOp :=
  [ ctx_lineWidth (Num 2);
    ctx_strokeStyle COLORS.glassBorder;
    ctx_beginPath;
    ctx_arc cx cy r (Num 0) (mul Math_PI (Num 2));
    ctx_stroke;
    ctx_fillStyle (Some "rgba(255,255,255,0.1)"%string);
    ctx_beginPath;
    ctx_ellipse cx openY openR openRy (Num 0) (Num 0) (mul Math_PI (Num 2));
    ctx_fill;
    ctx_stroke;
    ctx_beginPath;
    ctx_arc cx cy (sub r (Num 6)) (mul Math_PI (Num 1.2)) (mul Math_PI (Num 1.4));
    ctx_strokeStyle COLORS.glassHighlight;
    ctx_lineWidth (Num 4);
    ctx_lineCap "round";
    ctx_stroke;
    ctx_beginPath;
    ctx_arc cx cy (sub r (Num 6)) (mul Math_PI (Num 0.2)) (mul Math_PI (Num 0.3));
    ctx_lineWidth (Num 2);
    ctx_stroke ].

(** The vertical distance from the centre to the liquid plane, and the
    radius of the surface ellipse, as [drawSphere] computes them. *)
Definition sphereDist (cy r waterLevel : num) : num :=
  let lh := mul (mul (Num 2) r) waterLevel in
  let wy := sub (add cy r) lh in
  Math_abs (sub cy wy).

Definition sphereSurfaceR (cy r waterLevel : num) : num :=
  let distFromCenter := sphereDist cy r waterLevel in
  Math_sqrt (sub (mul r r) (mul distFromCenter distFromCenter)).

(** "2. Contents": the batch after the call and the calls made. *)
Definition sphereContents (x w cx cy r : num) (matter : MatterState)
    (waterLevel : num) (ps : list Particle) : list Particle * list CanvasOp :=
  match matter with
  | SOLID => (ps, drawRock (sub cx (Num 15)) (sub (add cy r) (Num 40)) (Num 50))
  | LIQUID =>
      let lh := mul (mul (Num 2) r) waterLevel in
      let wy := sub (add cy r) lh in
      (ps, sphereLiquidBody x w cx cy r wy lh
           ++ sphereSurface cx wy (sphereSurfaceR cy r waterLevel)
           ++ [ctx_restore])
  | GAS => updateParticles ps cx cy r r CIRCLE
  | EMPTY => (ps, [])
  end.

Definition drawSphere (x y w h : num) (matter : MatterState) (waterLevel : num)
    (ps : list Particle) : list Particle * list CanvasOp :=
  let cx := add x (div w (Num 2)) in
  let cy := add (add y (div h (Num 2))) (Num 10) in
  let r := sub (div w (Num 2)) (Num 10) in
  let openR := mul r (Num 0.6) in
  let openRy := mul openR (Num 0.25) in
  let openY := add (sub cy r) (Num 5) in
  let '(ps', contents) := sphereContents x w cx cy r matter waterLevel ps in
  (ps', sphereGlassBody cx cy r ++ contents
        ++ sphereGlassDetails cx cy r openR openRy openY).

(** ** The rest of the drawing surface

    The calls that [drawCube] and [drawScene] make on the context beyond
    those of [CanvasOp]; a gradient object is named after the constant that
    holds it. *)

Inductive SceneOp : Type :=
| ctx_call (op : CanvasOp)
| ctx_strokeRect (x y w h : num)
| ctx_scale (x y : num)
| ctx_clearRect (x y w h : num)
| ctx_setTransform (a b c d e f : num)
| ctx_createLinearGradient (name : string) (x0 y0 x1 y1 : num)
| gradient_addColorStop (name : string) (offset : num) (color : string)
| ctx_fillStyleGradient (name : string)
| ctx_font (s : string)
| ctx_textAlign (s : string)
| ctx_fillText (text : string) (x y : num).

Coercion ctx_call : CanvasOp >-> SceneOp.

(** ** The tank ([drawCube]) *)

(** "1. Draw Inner Glass Structure (Back & Floor)". *)
Definition cubeBack (fx fy fw fh bx by_ : num) : list SceneOp :=
  [ ctx_call (ctx_fillStyle (Some COLORS.glassFill));
    ctx_call ctx_beginPath;
    ctx_call (ctx_moveTo fx (add fy fh));
    ctx_call (ctx_lineTo bx (add by_ fh));
    ctx_call (ctx_lineTo (add bx fw) (add by_ fh));
    ctx_call (ctx_lineTo (add fx fw) (add fy fh));
    ctx_call ctx_closePath;
    ctx_call ctx_fill;
    ctx_call (ctx_strokeStyle COLORS.glassInnerStroke);
    ctx_call ctx_stroke;
    ctx_call (ctx_fillStyle (Some COLORS.glassFill));
    ctx_call (ctx_fillRect bx by_ fw fh);
    ctx_strokeRect bx by_ fw fh;
    ctx_call ctx_beginPath;
    ctx_call (ctx_moveTo fx fy);
    ctx_call (ctx_lineTo bx by_);
    ctx_call (ctx_moveTo (add fx fw) fy);
    ctx_call (ctx_lineTo (add bx fw) by_);
    ctx_call ctx_stroke ].

(** The LIQUID branch: front face, top surface and right side. *)
Definition cubeLiquid (fx fy fw fh bx by_ waterLevel : num) : list SceneOp :=
  let lh := mul fh waterLevel in
  let lfy := sub (add fy fh) lh in
  let lby := sub (add by_ fh) lh in
  [ ctx_call (ctx_fillStyle (Some COLORS.waterFill));
    ctx_call ctx_beginPath;
    ctx_call (ctx_moveTo fx (add fy fh));
    ctx_call (ctx_lineTo (add fx fw) (add fy fh));
    ctx_call (ctx_lineTo (add fx fw) lfy);
    ctx_call (ctx_lineTo fx lfy);
    ctx_call ctx_fill;
    ctx_call (ctx_fillStyle (Some COLORS.waterSurface));
    ctx_call ctx_beginPath;
    ctx_call (ctx_moveTo fx lfy);
    ctx_call (ctx_lineTo (add fx fw) lfy);
    ctx_call (ctx_lineTo (add bx fw) lby);
    ctx_call (ctx_lineTo bx lby);
    ctx_call ctx_closePath;
    ctx_call ctx_fill;
    ctx_call (ctx_fillStyle (Some COLORS.waterStroke));
    ctx_call ctx_beginPath;
    ctx_call (ctx_moveTo (add fx fw) (add fy fh));
    ctx_call (ctx_lineTo (add bx fw) (add by_ fh));
    ctx_call (ctx_lineTo (add bx fw) lby);
    ctx_call (ctx_lineTo (add fx fw) lfy);
    ctx_call ctx_fill ].

(** "3. Draw Outer Glass Structure (Front)". *)
Definition cubeFront (fx fy fw fh bx by_ : num) : list SceneOp :=
  [ ctx_call (ctx_lineWidth (Num 2));
    ctx_call (ctx_strokeStyle COLORS.glassBorder);
    ctx_strokeRect fx fy fw fh;
    ctx_call (ctx_lineWidth (Num 1));
    ctx_call ctx_beginPath;
    ctx_call (ctx_moveTo fx (add fy fh));
    ctx_call (ctx_lineTo bx (add by_ fh));
    ctx_call (ctx_moveTo (add fx fw) (add fy fh));
    ctx_call (ctx_lineTo (add bx fw) (add by_ fh));
    ctx_call ctx_stroke;
    ctx_call (ctx_fillStyle (Some COLORS.glassHighlight));
    ctx_call ctx_beginPath;
    ctx_call (ctx_moveTo (sub (add fx fw) (Num 30)) (add fy (Num 10)));
    ctx_call (ctx_lineTo (sub (add fx fw) (Num 10)) (add fy (Num 10)));
    ctx_call (ctx_lineTo (sub (add fx fw) (Num 10)) (add fy (Num 50)));
    ctx_call (ctx_lineTo (sub (add fx fw) (Num 40)) (add fy (Num 50)));
    ctx_call ctx_closePath;
    ctx_call ctx_fill ].

(** The contents of a vessel whose gas is confined in the rectangle
    [(ix, iy, iw, ih)]: the batch after the call and the calls made, or the
    [TypeError] of [particles.forEach] on a missing batch. *)
Definition gasContents (ix iy iw ih : num) (shape : Shape) (ps : option (list Particle))
  : Outcome (option (list Particle) * list SceneOp) :=
  match ps with
  | None => TypeError (None, [])
  | Some l =>
      let '(l', ops) := updateParticles l ix iy iw ih shape in
      Done (Some l', map ctx_call ops)
  end.

(** A renderer's calls around its contents; when the contents throw, the
    calls made up to there. *)
Definition around (back front : list SceneOp)
    (contents : Outcome (option (list Particle) * list SceneOp))
  : Outcome (option (list Particle) * list SceneOp) :=
  match contents with
  | Done (ps, ops) => Done (ps, back ++ ops ++ front)
  | TypeError (ps, ops) => TypeError (ps, back ++ ops)
  end.

Definition drawCube (x y w h : num) (matter : MatterState) (waterLevel : num)
    (ps : option (list Particle)) : Outcome (option (list Particle) * list SceneOp) :=
  let depth := mul w (Num 0.3) in
  let pad := Num 10 in
  let fx := add x pad in
  let fy := add (add y pad) (div depth (Num 2)) in
  let fw := sub w (mul pad (Num 2)) in
  let fh := sub (sub h (mul pad (Num 2))) (div depth (Num 2)) in
  let bx := add fx (div depth (Num 2)) in
  let by_ := sub fy (div depth (Num 2)) in
  around (cubeBack fx fy fw fh bx by_) (cubeFront fx fy fw fh bx by_)
    match matter with
    | SOLID =>
        Done (ps, map ctx_call
                    (drawRock (sub (add bx (div fw (Num 2))) (Num 20))
                              (sub (add by_ fh) (Num 35)) (Num 60)))
    | LIQUID => Done (ps, cubeLiquid fx fy fw fh bx by_ waterLevel)
    | GAS => gasContents fx fy fw fh RECT ps
    | EMPTY => Done (ps, [])
    end.

(** ** The jar ([drawCylinder]) *)

(** "1. Draw Inner/Back Glass". *)
Definition cylinderBack (jx jw rx ry ty by_ cx : num) : list SceneOp :=
  [ ctx_call (ctx_fillStyle (Some COLORS.glassFill));
    ctx_call (ctx_strokeStyle COLORS.glassInnerStroke);
    ctx_call (ctx_lineWidth (Num 1));
    ctx_call ctx_beginPath;
    ctx_call (ctx_ellipse cx by_ rx ry (Num 0) (Num 0) (mul Math_PI (Num 2)));
    ctx_call ctx_fill;
    ctx_call ctx_stroke;
    ctx_call (ctx_fillRect jx ty jw (sub by_ ty));
    ctx_call ctx_beginPath;
    ctx_call (ctx_ellipse cx ty rx ry (Num 0) Math_PI (mul (Num 2) Math_PI));
    ctx_call ctx_stroke ].

(** The LIQUID branch: bottom cap, sides and surface. *)
Definition cylinderLiquid (jx jw rx ry ty by_ cx waterLevel : num) : list SceneOp :=
  let cylH := sub by_ ty in
  let lh := mul cylH waterLevel in
  let ly := sub by_ lh in
  [ ctx_call (ctx_fillStyle (Some COLORS.waterFill));
    ctx_call ctx_beginPath;
    ctx_call (ctx_ellipse cx by_ rx ry (Num 0) (Num 0) (mul Math_PI (Num 2)));
    ctx_call ctx_fill;
    ctx_call ctx_beginPath;
    ctx_call (ctx_moveTo jx by_);
    ctx_call (ctx_lineTo (add jx jw) by_);
    ctx_call (ctx_lineTo (add jx jw) ly);
    ctx_call (ctx_lineTo jx ly);
    ctx_call ctx_fill;
    ctx_call (ctx_fillStyle (Some COLORS.waterSurface));
    ctx_call ctx_beginPath;
    ctx_call (ctx_ellipse cx ly rx ry (Num 0) (Num 0) (mul Math_PI (Num 2)));
    ctx_call ctx_fill ].

(** "3. Outer Glass (Front)". *)
Definition cylinderFront (jx jw rx ry ty by_ cx : num) : list SceneOp :=
  [ ctx_call (ctx_lineWidth (Num 2));
    ctx_call (ctx_strokeStyle COLORS.glassBorder);
    ctx_call ctx_beginPath;
    ctx_call (ctx_moveTo jx ty);
    ctx_call (ctx_lineTo jx by_);
    ctx_call (ctx_moveTo (add jx jw) ty);
    ctx_call (ctx_lineTo (add jx jw) by_);
    ctx_call ctx_stroke;
    ctx_call ctx_beginPath;
    ctx_call (ctx_ellipse cx by_ rx ry (Num 0) (Num 0) Math_PI);
    ctx_call ctx_stroke;
    ctx_call (ctx_lineWidth (Num 2));
    ctx_call ctx_beginPath;
    ctx_call (ctx_ellipse cx ty rx ry (Num 0) (Num 0) (mul Math_PI (Num 2)));
    ctx_call ctx_stroke;
    ctx_call (ctx_strokeStyle COLORS.glassHighlight);
    ctx_call (ctx_lineWidth (Num 3));
    ctx_call ctx_beginPath;
    ctx_call (ctx_moveTo (add jx (Num 10)) (add ty (Num 15)));
    ctx_call (ctx_lineTo (add jx (Num 10)) (sub by_ (Num 15)));
    ctx_call ctx_stroke ].

Definition drawCylinder (x y w h : num) (matter : MatterState) (waterLevel : num)
    (ps : option (list Particle)) : Outcome (option (list Particle) * list SceneOp) :=
  let jw := mul w (Num 0.7) in
  let jx := add x (div (sub w jw) (Num 2)) in
  let rx := div jw (Num 2) in
  let ry := Num 12 in
  let ty := add (add y ry) (Num 10) in
  let by_ := sub (sub (add y h) ry) (Num 5) in
  let cx := add jx rx in
  around (cylinderBack jx jw rx ry ty by_ cx) (cylinderFront jx jw rx ry ty by_ cx)
    match matter with
    | SOLID =>
        Done (ps, map ctx_call (drawRock (sub cx (Num 10)) (sub by_ (Num 30)) (Num 50)))
    | LIQUID => Done (ps, cylinderLiquid jx jw rx ry ty by_ cx waterLevel)
    | GAS => gasContents jx ty jw (sub by_ ty) RECT ps
    | EMPTY => Done (ps, [])
    end.

(** [drawSphere] on the batch of a slot, which may be missing: only the GAS
    branch reads it, after the glass body has been drawn. *)
Definition drawSphereSlot (x y w h : num) (matter : MatterState) (waterLevel : num)
    (ps : option (list Particle)) : Outcome (option (list Particle) * list SceneOp) :=
  match ps with
  | Some l =>
      let '(l', ops) := drawSphere x y w h matter waterLevel l in
      Done (Some l', map ctx_call ops)
  | None =>
      match matter with
      | GAS =>
          TypeError (None,
                     map ctx_call
                       (sphereGlassBody (add x (div w (Num 2)))
                          (add (add y (div h (Num 2))) (Num 10))
                          (sub (div w (Num 2)) (Num 10))))
      | _ => Done (None, map ctx_call (snd (drawSphere x y w h matter waterLevel [])))
      end
  end.

(** ** The frame ([drawScene]) *)

(** "Layout": the bounds of the [i]-th vessel. *)
Definition cSize : num := Num 140.

Definition layoutGap (width : num) : num :=
  div (sub width (mul cSize (Num 3))) (Num 4).

Definition layoutBase (tableY : num) : num :=
  add (sub tableY cSize) (Num 40).

Definition layoutBound (gap yBase : num) (i : nat) (c : ContainerData) : Bounds :=
  mkBounds (c_id c) (add gap (mul (Num (IZR (Z.of_nat i))) (add cSize gap))) yBase cSize cSize.

Definition newBounds (width tableY : num) (containers : list ContainerData) : list Bounds :=
  imap (layoutBound (layoutGap width) (layoutBase tableY)) containers.

(** [selectedId === container.id]. *)
Definition isSelected (selectedId : option Z) (c : ContainerData) : bool :=
  match selectedId with
  | Some s => (s =? c_id c)%Z
  | None => false
  end.

(** "Selection Glow (Underneath)" or "Normal Shadow". *)
Definition vesselShadow (selected : bool) (b : Bounds) : list SceneOp :=
  [ ctx_call ctx_save;
    ctx_call (ctx_translate (add (b_x b) (div (b_w b) (Num 2)))
                            (sub (add (b_y b) (b_h b)) (Num 10)));
    ctx_scale (Num 1) (Num 0.3);
    ctx_call ctx_beginPath;
    ctx_call (ctx_arc (Num 0) (Num 0)
                (mul (b_w b) (if selected then Num 0.6 else Num 0.5))
                (Num 0) (mul Math_PI (Num 2)));
    ctx_call (ctx_fillStyle
                (Some (if selected then COLORS.selectionGlow else "rgba(0,0,0,0.2)"%string)));
    ctx_call ctx_fill;
    ctx_call ctx_restore ].

(** The font of the labels, ['bold 18px "Comic Neue", sans-serif']. *)
Definition dquote : string := String (Ascii.ascii_of_nat 34) EmptyString.

Definition labelFont : string :=
  String.append "bold 18px "
    (String.append dquote (String.append "Comic Neue" (String.append dquote ", sans-serif"))).

(** "Label". *)
Definition vesselLabel (tableY : num) (b : Bounds) (c : ContainerData) : list SceneOp :=
  [ ctx_font labelFont;
    ctx_call (ctx_fillStyle (Some "#1e293b"%string));
    ctx_textAlign "center";
    ctx_fillText (c_label c) (add (b_x b) (div (b_w b) (Num 2)))
                 (add tableY (mul (b_h b) (Num 0.6))) ].

(** "Delegate to specific drawers". *)
Definition drawContainer (b : Bounds) (c : ContainerData) (waterLevel : num)
    (ps : option (list Particle)) : Outcome (option (list Particle) * list SceneOp) :=
  match c_type c with
  | CUBE => drawCube (b_x b) (b_y b) (b_w b) (b_h b) (c_matter c) waterLevel ps
  | CYLINDER =>
      let tallH := mul (b_h b) (Num 1.2) in
      let tallY := sub (add (b_y b) (b_h b)) tallH in
      drawCylinder (b_x b) tallY (b_w b) tallH (c_matter c) waterLevel ps
  | SPHERE => drawSphereSlot (b_x b) (b_y b) (b_w b) (b_h b) (c_matter c) waterLevel ps
  end.

(** The particles of a slot are updated in place: the slot holds the batch
    that the renderer returns, and a missing slot stays missing. *)
Definition store_particles (st : SimState) (i : nat) (ps : option (list Particle)) : SimState :=
  match ps with
  | Some l => set_particles st i l
  | None => st
  end.

(** The callback of [newBounds.forEach]: the state after it and the calls it
    makes. *)
Definition drawVessel (selectedId : option Z) (tableY : num) (i : nat) (b : Bounds)
    (c : ContainerData) (st : SimState) : Outcome (SimState * list SceneOp) :=
  let st1 := advanceFill i st in
  let shadow := vesselShadow (isSelected selectedId c) b in
  match drawContainer b c (to_num (currentWaterLevels st1 !! i)) (particles st1 !! i) with
  | Done (ps, ops) => Done (store_particles st1 i ps, shadow ++ ops ++ vesselLabel tableY b c)
  | TypeError (_, ops) => TypeError (st1, shadow ++ ops)
  end.

(** [newBounds.forEach] from index [i] on; [containers[i]] is the vessel the
    [i]-th bounds were computed from. *)
Fixpoint drawVessels (selectedId : option Z) (gap yBase tableY : num) (i : nat)
    (cs : list ContainerData) (acc : SimState * list SceneOp)
  : Outcome (SimState * list SceneOp) :=
  match cs with
  | [] => Done acc
  | c :: cs' =>
      match drawVessel selectedId tableY i (layoutBound gap yBase i c) c (fst acc) with
      | Done (st', ops) => drawVessels selectedId gap yBase tableY (S i) cs' (st', snd acc ++ ops)
      | TypeError (st', ops) => TypeError (st', snd acc ++ ops)
      end
  end.

(** "Draw Table": the wall, the table surface and its edge. *)
Definition drawTable (width height tableY : num) : list SceneOp :=
  [ ctx_createLinearGradient "wallGradient" (Num 0) (Num 0) (Num 0) tableY;
    gradient_addColorStop "wallGradient" (Num 0) "#f0f9ff";
    gradient_addColorStop "wallGradient" (Num 1) "#e0f2fe";
    ctx_fillStyleGradient "wallGradient";
    ctx_call (ctx_fillRect (Num 0) (Num 0) width tableY);
    ctx_createLinearGradient "tableGradient" (Num 0) tableY (Num 0) height;
    gradient_addColorStop "tableGradient" (Num 0) "#8D6E63";
    gradient_addColorStop "tableGradient" (Num 1) "#5D4037";
    ctx_fillStyleGradient "tableGradient";
    ctx_call (ctx_fillRect (Num 0) tableY width (sub height tableY));
    ctx_call (ctx_fillStyle (Some "rgba(0,0,0,0.1)"%string));
    ctx_call (ctx_fillRect (Num 0) tableY width (Num 5)) ].

(** The canvas element as a frame finds it: its [width] and [height]
    attributes, the size of its bounding rectangle, and whether
    [getContext('2d')] gives a context. *)
Record CanvasEl : Type := mkCanvasEl {
  canvas_width : num;
  canvas_height : num;
  rect_width : num;
  rect_height : num;
  has_context : bool
}.

(** What a frame leaves: the state, the [width] and [height] attributes of
    the canvas (if there is one), the calls made on the context, and whether
    the next frame was requested. *)
Record Frame : Type := mkFrame {
  fr_state : SimState;
  fr_size : option (num * num);
  fr_ops : list SceneOp;
  fr_rescheduled : bool
}.

(** [a !== b] on numbers. *)
Definition neb (a b : num) : bool := negb (eqb a b).

(** [d || 1] on a number: [0] and [NaN] are falsy. *)
Definition orOne (d : num) : num :=
  if isNaN d || eqb d (Num 0) then Num 1 else d.

Section Scene.
(** What the [width] or [height] attribute of a canvas reads after a number
    has been assigned to it; the conversion belongs to the browser. *)
Variable toLength : num -> num.

(** "Resize only if needed". *)
Definition prepareCanvas (dpr : num) (cv : CanvasEl) : (num * num) * list SceneOp :=
  if neb (canvas_width cv) (mul (rect_width cv) dpr)
     || neb (canvas_height cv) (mul (rect_height cv) dpr)
  then ((toLength (mul (rect_width cv) dpr), toLength (mul (rect_height cv) dpr)),
        [ ctx_scale dpr dpr ])
  else ((canvas_width cv, canvas_height cv),
        [ ctx_clearRect (Num 0) (Num 0) (rect_width cv) (rect_height cv);
          ctx_setTransform dpr (Num 0) (Num 0) dpr (Num 0) (Num 0) ]).

Definition set_containerBounds (st : SimState) (bs : list Bounds) : SimState :=
  mkSimState (waterLevels st) (currentWaterLevels st) (particles st) bs.

(** One call of [drawScene] with the [containers] and [selectedId] it has
    captured.  Without a canvas or a context it returns at once and requests
    no further frame; an exception leaves it without requesting one either. *)
Definition drawScene (containers : list ContainerData) (selectedId : option Z)
    (canvas : option CanvasEl) (devicePixelRatio : num) (st : SimState) : Outcome Frame :=
  match canvas with
  | None => Done (mkFrame st None [] false)
  | Some cv =>
      if negb (has_context cv)
      then Done (mkFrame st (Some (canvas_width cv, canvas_height cv)) [] false)
      else
        let dpr := orOne devicePixelRatio in
        let '(size, prepared) := prepareCanvas dpr cv in
        let width := rect_width cv in
        let height := rect_height cv in
        let tableY := mul height (Num 0.7) in
        let st1 := set_containerBounds st (newBounds width tableY containers) in
        match drawVessels selectedId (layoutGap width) (layoutBase tableY) tableY 0 containers
                (st1, prepared ++ drawTable width height tableY) with
        | Done (st', ops) => Done (mkFrame st' (Some size) ops true)
        | TypeError (st', ops) => TypeError (mkFrame st' (Some size) ops false)
        end
  end.
End Scene.

(** ** The application ([src/App.tsx]) *)

Definition INITIAL_CONTAINERS : list ContainerData :=
  [ mkContainerData 1 CUBE EMPTY "Cube Box";
    mkContainerData 2 CYLINDER EMPTY "Tall Jar";
    mkContainerData 3 SPHERE EMPTY "Round Bowl" ].

Definition FACTS (m : MatterState) : string :=
  match m with
  | EMPTY => "Click a container to select it, then choose a material to fill it!"
  | SOLID => "Solids keep their shape! The rock stays the same shape no matter which container it is in."
  | LIQUID => "Liquids flow! Water takes the shape of the container but stays at the bottom."
  | GAS => "Gases expand! The smoke spreads out to fill the whole container completely."
  end.

(** The two pieces of state of [App]. *)
Record AppState : Type := mkAppState {
  app_containers : list ContainerData;
  app_selectedId : option Z
}.

Definition initialApp : AppState := mkAppState INITIAL_CONTAINERS None.

Definition handleSelectContainer (id : Z) (s : AppState) : AppState :=
  mkAppState (app_containers s) (Some id).

(** [{ ...c, matter }]. *)
Definition with_matter (c : ContainerData) (matter : MatterState) : ContainerData :=
  mkContainerData (c_id c) (c_type c) matter (c_label c).

(** The new state and whether the alert was shown. *)
Definition handleSetMatter (matter : MatterState) (s : AppState) : AppState * bool :=
  match app_selectedId s with
  | None => (s, true)
  | Some sel =>
      (mkAppState
         ((fun c => if (c_id c =? sel)%Z then with_matter c matter else c) <$> app_containers s)
         (Some sel),
       false)
  end.

(** [containers.find(c => c.id === selectedId)]. *)
Definition selectedContainer (s : AppState) : option ContainerData :=
  match app_selectedId s with
  | None => None
  | Some sel => List.find (fun c => (c_id c =? sel)%Z) (app_containers s)
  end.

Definition currentFact (s : AppState) : string :=
  match selectedContainer s with
  | Some c => FACTS (c_matter c)
  | None => FACTS EMPTY
  end.

(** [disabled={!selectedId}]: no selection, or the id [0]. *)
Definition buttonsDisabled (s : AppState) : bool :=
  match app_selectedId s with
  | None => true
  | Some sel => (sel =? 0)%Z
  end.

(** A click on the canvas: [onSelect] is called for every reported id, in
    order, and each call sets the selection. *)
Definition clickCanvas (canvas : option (num * num)) (clientX clientY : num)
    (st : SimState) (s : AppState) : AppState :=
  fold_left (fun s' id => handleSelectContainer id s') (handleClick canvas clientX clientY st) s.

(** * Vocabulary of the properties *)

(** A particle all of whose numbers are real. *)
Definition realParticle (x y vx vy r : R) (c : option string) : Particle :=
  mkParticle (Num x) (Num y) (Num vx) (Num vy) (Num r) c.

(** The fill after [n] frames with target [T], from [currentFill = 0]. *)
Definition fillAfter (n : nat) (T : R) : num :=
  Nat.iter n (fillStep (Num T)) (Num 0).

(** [n] successive ticks of one particle in a fixed confinement shape. *)
Definition ticks (n : nat) (shape : Shape) (bx by_ bw bh : num) (p : Particle) : Particle :=
  Nat.iter n (updateParticle shape bx by_ bw bh) p.

(** [|v|^2] and the squared distance from [(cx, cy)], on numbers. *)
Definition speed2 (p : Particle) : num :=
  add (mul (p_vx p) (p_vx p)) (mul (p_vy p) (p_vy p)).

Definition speed (p : Particle) : num := Math_sqrt (speed2 p).

Definition distanceFrom (cx cy : num) (p : Particle) : num :=
  Math_sqrt (add (mul (sub (p_x p) cx) (sub (p_x p) cx))
                 (mul (sub (p_y p) cy) (sub (p_y p) cy))).

(** The specular reflection of the velocity [(vx, vy)] about the unit normal
    [(nx, ny)], as the spec writes it ([v' = v - 2(v.n)n], both components
    from the velocity before the reflection); for comparison with what
    [reflectCircle] assigns. *)
Definition specular (vx vy nx ny : R) : R * R :=
  (vx - 2 * (vx * nx + vy * ny) * nx, vy - 2 * (vx * nx + vy * ny) * ny).

(** The three vessels of the scenario, with their ids. *)
Definition scenarioBounds (id1 id2 id3 : Z) : list Bounds :=
  [ mkBounds id1 (Num 50) (Num 100) (Num 140) (Num 140);
    mkBounds id2 (Num 250) (Num 100) (Num 140) (Num 140);
    mkBounds id3 (Num 450) (Num 100) (Num 140) (Num 140) ].

Definition targetFill (c : ContainerData) : num :=
  if matter_eqb (c_matter c) LIQUID then Num 0.7 else Num 0.

(** What the effect leaves in a slot's batch, from the batch it found there:
    a vessel that is not a gas gets the empty batch; a gas keeps a non-empty
    batch as it is and gets a spawned batch in place of an empty one. *)
Definition batch_after (random : nat -> R) (c : ContainerData)
    (old new : option (list Particle)) : Prop :=
  match c_matter c with
  | GAS =>
      match old with
      | Some [] => exists k, new = Some (newParticles random k)
      | Some (p :: ps) => new = Some (p :: ps)
      | None => False
      end
  | _ => new = Some []
  end.

(** A jar whose liquid has risen to [0.035] on its way to [0.7], and a bowl
    whose forty gas particles are in motion. *)
Definition keptParticle : Particle := realParticle 553 224 1 (-1) 4 (Some "#ef4444"%string).

Definition keptState : SimState :=
  mkSimState {[ 0%nat := Num 0.7; 1%nat := Num 0 ]}
             {[ 0%nat := Num 0.035; 1%nat := Num 0 ]}
             {[ 0%nat := []; 1%nat := replicate 40 keptParticle ]} [].

Definition keptContainers : list ContainerData :=
  [ mkContainerData 2 CYLINDER LIQUID "Tall Jar";
    mkContainerData 3 SPHERE GAS "Round Bowl" ].

(** The three vessels of the application, the jar holding a liquid and the
    bowl a gas, on the store as the component creates it. *)
Definition roundBowl : ContainerData := mkContainerData 3 SPHERE GAS "Round Bowl".

Definition labContainers : list ContainerData :=
  [ mkContainerData 1 CUBE EMPTY "Cube Box";
    mkContainerData 2 CYLINDER LIQUID "Tall Jar";
    roundBowl ].

(** The spawn radius with a rounding [rnd] after each operation; exact
    arithmetic is [rnd := fun a => a]. *)
Definition roundedRadius (rnd : R -> R) (u : R) : R := rnd (4 + rnd (u * 4)).

(** A number that is not [NaN] and not negative. *)
Definition nonneg (a : num) : Prop :=
  match a with Num x => 0 <= x | NaN => False end.

(** A circle or an ellipse is drawn with radii that are numbers and not
    negative. *)
Definition draw_radii_ok (op : CanvasOp) : Prop :=
  match op with
  | ctx_arc _ _ r _ _ => nonneg r
  | ctx_ellipse _ _ rx ry _ _ _ => nonneg rx /\ nonneg ry
  | _ => True
  end.

(** The calls that the canvas refuses with an [IndexSizeError] exception:
    [arc] and [ellipse] return without drawing when an argument is [NaN] and
    throw when a radius is negative; no other call of [CanvasOp] throws.  A
    drawing function returns the calls it would make if none threw: the run
    is free of exceptions when [find canvas_rejects] finds none, and
    otherwise stops at the call found. *)
Definition all_numbers (l : list num) : bool := forallb (fun a => negb (isNaN a)) l.

Definition canvas_rejects (op : CanvasOp) : bool :=
  match op with
  | ctx_arc x y r startAngle endAngle =>
      all_numbers [x; y; r; startAngle; endAngle] && ltb r (Num 0)
  | ctx_ellipse x y rx ry rotation startAngle endAngle =>
      all_numbers [x; y; rx; ry; rotation; startAngle; endAngle]
      && (ltb rx (Num 0) || ltb ry (Num 0))
  | _ => false
  end.

(** The fill after [n] frames with target [T], from [currentFill = c0]. *)
Definition fillFrom (n : nat) (T c0 : R) : num :=
  Nat.iter n (fillStep (Num T)) (Num c0).

(** The centre of [p] is a point of the rectangle of origin [(bx, by)] and
    size [bw x bh] shrunk by the radius of [p] on every side. *)
Definition insideRect (bx by_ bw bh : R) (p : Particle) : Prop :=
  exists x y r,
    p_x p = Num x /\ p_y p = Num y /\ p_radius p = Num r
    /\ bx + r <= x <= bx + bw - r /\ by_ + r <= y <= by_ + bh - r.

(** The centre of [p] is at most [rad - r] from [(cx, cy)], [r] being the
    radius of [p]. *)
Definition insideDisc (cx cy rad : R) (p : Particle) : Prop :=
  exists d r,
    distanceFrom (Num cx) (Num cy) p = Num d /\ p_radius p = Num r /\ d <= rad - r.

(** A particle whose numbers are real and whose radius is between [lo] and
    [hi]. *)
Definition realWithRadius (lo hi : R) (p : Particle) : Prop :=
  exists x y vx vy r c, p = realParticle x y vx vy r c /\ lo <= r <= hi.

(** The store holds what the effect derives from the vessels [cs]: for each
    of them the target fill of its matter, a non-empty batch if it is a gas
    and the empty batch otherwise. *)
Definition in_sync (cs : list ContainerData) (st : SimState) : Prop :=
  forall i c, cs !! i = Some c ->
    waterLevels st !! i = Some (targetFill c)
    /\ (c_matter c = GAS -> exists p ps, particles st !! i = Some (p :: ps))
    /\ (c_matter c <> GAS -> particles st !! i = Some []).

(** What a frame leaves in the slot of the vessel [c] drawn at [b], from the
    batch it found there: the batch that the renderer returns, or still no
    batch, which only a vessel that is not a gas allows. *)
Definition drawn_slot (b : Bounds) (c : ContainerData) (old new : option (list Particle))
  : Prop :=
  match old with
  | Some l =>
      exists l' wl ops, new = Some l' /\ drawContainer b c wl (Some l) = Done (Some l', ops)
  | None => new = None /\ c_matter c <> GAS
  end.

(** The interior of a vessel of the application, drawn in the slot of origin
    [(bx, by)] and size [140 x 140]: the front face of the tank, the body of
    the jar (drawn [168] high), the disc of the bowl. *)
Definition insideVessel (t : ContainerType) (bx by_ : R) (p : Particle) : Prop :=
  match t with
  | CUBE => insideRect (bx + 10) (by_ + 31) 120 99 p
  | CYLINDER => insideRect (bx + 21) (by_ - 6) 98 129 p
  | SPHERE => insideDisc (bx + 70) (by_ + 80) 60 p
  end.

(** * Properties *)

(** ** Numbers *)

Lemma div_Num (x y : R) : y <> 0 -> div (Num x) (Num y) = Num (x / y).
Proof. intros Hy. unfold div. destruct (Req_dec_T y 0); [contradiction | reflexivity]. Qed.

Lemma ltb_Num (x y : R) : ltb (Num x) (Num y) = true <-> x < y.
Proof. unfold ltb. destruct (Rlt_dec x y); split; intros; try discriminate; tauto. Qed.

Lemma leb_Num (x y : R) : leb (Num x) (Num y) = true <-> x <= y.
Proof. unfold leb. destruct (Rle_dec x y); split; intros; try discriminate; tauto. Qed.

Lemma eqb_Num (x y : R) : eqb (Num x) (Num y) = true <-> x = y.
Proof. unfold eqb. destruct (Req_dec_T x y); split; intros; try discriminate; tauto. Qed.

Lemma Math_sqrt_Num (x : R) : 0 <= x -> Math_sqrt (Num x) = Num (sqrt x).
Proof. intros Hx. unfold Math_sqrt. destruct (Rlt_dec x 0); [lra | reflexivity]. Qed.

Lemma Math_sqrt_negative (x : R) : x < 0 -> Math_sqrt (Num x) = NaN.
Proof. intros Hx. unfold Math_sqrt. destruct (Rlt_dec x 0); [reflexivity | lra]. Qed.

Lemma ticks_S (n : nat) (shape : Shape) (bx by_ bw bh : num) (p : Particle) :
  ticks (S n) shape bx by_ bw bh p
  = updateParticle shape bx by_ bw bh (ticks n shape bx by_ bw bh p).
Proof. reflexivity. Qed.

(** ** Particle motion in a rectangle *)

Section Rect.
Variables bx by_ bw bh : R.

Let tickR := updateParticle RECT (Num bx) (Num by_) (Num bw) (Num bh).

Lemma initCheck_real (shape : Shape) (x y vx vy r : R) (c : option string) :
  exists x' y',
    initCheck shape (Num bx) (Num by_) (Num bw) (Num bh) (realParticle x y vx vy r c)
    = realParticle x' y' vx vy r c.
Proof.
  unfold initCheck. rewrite !div_Num by lra.
  unfold realParticle, set_pos; cbn [p_x p_y p_vx p_vy p_radius p_color].
  destruct (eqb (Num x) (Num 0) && eqb (Num y) (Num 0)); [destruct shape|];
    cbn [add]; do 2 eexists; reflexivity.
Qed.

Lemma bounceLeft_real (x y vx vy r : R) (c : option string) :
  exists x' vx',
    bounceLeft (Num bx) (realParticle x y vx vy r c) = realParticle x' y vx' vy r c
    /\ bx + r <= x' /\ (x <= bx + bw - r -> 2 * r <= bw -> x' <= bx + bw - r)
    /\ vx' * vx' = vx * vx.
Proof.
  unfold bounceLeft, realParticle, set_x_vx, ltb; simpl.
  destruct (Rlt_dec x (bx + r)); do 2 eexists;
    (split; [reflexivity | repeat split; intros; lra]).
Qed.

Lemma bounceRight_real (x y vx vy r : R) (c : option string) :
  exists x' vx',
    bounceRight (Num bx) (Num bw) (realParticle x y vx vy r c) = realParticle x' y vx' vy r c
    /\ x' <= bx + bw - r /\ (bx + r <= x -> 2 * r <= bw -> bx + r <= x')
    /\ vx' * vx' = vx * vx.
Proof.
  unfold bounceRight, realParticle, set_x_vx, gtb, ltb; simpl.
  destruct (Rlt_dec (bx + bw - r) x); do 2 eexists;
    (split; [reflexivity | repeat split; intros; lra]).
Qed.

Lemma bounceTop_real (x y vx vy r : R) (c : option string) :
  exists y' vy',
    bounceTop (Num by_) (realParticle x y vx vy r c) = realParticle x y' vx vy' r c
    /\ by_ + r <= y' /\ vy' * vy' = vy * vy.
Proof.
  unfold bounceTop, realParticle, set_y_vy, ltb; simpl.
  destruct (Rlt_dec y (by_ + r)); do 2 eexists;
    (split; [reflexivity | repeat split; intros; lra]).
Qed.

Lemma bounceBottom_real (x y vx vy r : R) (c : option string) :
  exists y' vy',
    bounceBottom (Num by_) (Num bh) (realParticle x y vx vy r c) = realParticle x y' vx vy' r c
    /\ y' <= by_ + bh - r /\ (by_ + r <= y -> 2 * r <= bh -> by_ + r <= y')
    /\ vy' * vy' = vy * vy.
Proof.
  unfold bounceBottom, realParticle, set_y_vy, gtb, ltb; simpl.
  destruct (Rlt_dec (by_ + bh - r) y); do 2 eexists;
    (split; [reflexivity | repeat split; intros; lra]).
Qed.

(** The "Bounds" block on a real particle in a rectangle: the particle
    stays real, keeps its radius, colour and speed, and its centre ends
    between the walls of an axis on which the box is wide enough. *)
Lemma rect_bounds (x y vx vy r : R) (c : option string) :
  exists x' y' vx' vy',
    bounds RECT (Num bx) (Num by_) (Num bw) (Num bh) (realParticle x y vx vy r c)
    = realParticle x' y' vx' vy' r c
    /\ (2 * r <= bw -> bx + r <= x' <= bx + bw - r)
    /\ (2 * r <= bh -> by_ + r <= y' <= by_ + bh - r)
    /\ vx' * vx' + vy' * vy' = vx * vx + vy * vy.
Proof.
  unfold bounds.
  destruct (bounceLeft_real x y vx vy r c) as (x1 & vx1 & -> & Hl & _ & Hv1).
  destruct (bounceRight_real x1 y vx1 vy r c) as (x2 & vx2 & -> & Hr & Hr' & Hv2).
  destruct (bounceTop_real x2 y vx2 vy r c) as (y1 & vy1 & -> & Ht & Hv3).
  destruct (bounceBottom_real x2 y1 vx2 vy1 r c) as (y2 & vy2 & -> & Hb & Hb' & Hv4).
  exists x2, y2, vx2, vy2. repeat split; intros; try lra; auto.
Qed.

Lemma rect_tick (x y vx vy r : R) (c : option string) :
  exists x' y' vx' vy',
    tickR (realParticle x y vx vy r c) = realParticle x' y' vx' vy' r c
    /\ (2 * r <= bw -> bx + r <= x' <= bx + bw - r)
    /\ (2 * r <= bh -> by_ + r <= y' <= by_ + bh - r).
Proof.
  unfold tickR, updateParticle.
  change (integrate (realParticle x y vx vy r c))
    with (realParticle (x + vx) (y + vy) vx vy r c).
  destruct (initCheck_real RECT (x + vx) (y + vy) vx vy r c) as (x0 & y0 & ->).
  destruct (rect_bounds x0 y0 vx vy r c) as (x1 & y1 & vx1 & vy1 & -> & Hx & Hy & _).
  exists x1, y1, vx1, vy1. auto.
Qed.

Lemma rect_ticks_real (n : nat) (x y vx vy r : R) (c : option string) :
  exists x' y' vx' vy',
    ticks n RECT (Num bx) (Num by_) (Num bw) (Num bh) (realParticle x y vx vy r c)
    = realParticle x' y' vx' vy' r c.
Proof.
  induction n as [|n IH].
  - now exists x, y, vx, vy.
  - destruct IH as (x1 & y1 & vx1 & vy1 & IH).
    destruct (rect_tick x1 y1 vx1 vy1 r c) as (x2 & y2 & vx2 & vy2 & Hstep & _).
    exists x2, y2, vx2, vy2. rewrite ticks_S, IH. exact Hstep.
Qed.

(** C6. A particle with real coordinates and radius [r], confined in the
    rectangle of origin [(bx, by)], width [bw >= 2r] and height [bh >= 2r]:
    after any number [N >= 1] of ticks its centre lies within
    [[bx+r, bx+bw-r] x [by+r, by+bh-r]] (and its radius is still [r]). *)
Theorem rect_containment (x y vx vy r : R) (c : option string) (N : nat) :
  2 * r <= bw -> 2 * r <= bh -> (1 <= N)%nat ->
  exists x' y',
    let p' := ticks N RECT (Num bx) (Num by_) (Num bw) (Num bh) (realParticle x y vx vy r c) in
    p_x p' = Num x' /\ p_y p' = Num y' /\ p_radius p' = Num r
    /\ bx + r <= x' <= bx + bw - r /\ by_ + r <= y' <= by_ + bh - r.
Proof.
  intros Hw Hh HN. destruct N as [|n]; [lia|].
  destruct (rect_ticks_real n x y vx vy r c) as (x1 & y1 & vx1 & vy1 & Hn).
  destruct (rect_tick x1 y1 vx1 vy1 r c) as (x2 & y2 & vx2 & vy2 & Hstep & Hx & Hy).
  exists x2, y2. cbv zeta. rewrite ticks_S, Hn.
  fold tickR. rewrite Hstep. cbn [realParticle p_x p_y p_radius].
  split; [reflexivity|]. split; [reflexivity|]. split; [reflexivity|]. auto.
Qed.
End Rect.

(** The interior of the cube drawn in the slot [x = 50, y = 100, w = h = 140]
    and a particle spawned at the origin, after three ticks. *)
Lemma rect_containment_witness :
  (2 * 4 <= 120 /\ 2 * 4 <= 99 /\ (1 <= 3)%nat) /\
  exists x' y',
    let p' := ticks 3 RECT (Num 60) (Num 131) (Num 120) (Num 99)
                (realParticle 0 0 1.5 (-1.5) 4 None) in
    p_x p' = Num x' /\ p_y p' = Num y' /\ p_radius p' = Num 4
    /\ 60 + 4 <= x' <= 60 + 120 - 4 /\ 131 + 4 <= y' <= 131 + 99 - 4.
Proof.
  split; [repeat split; try lra; lia|].
  apply (rect_containment 60 131 120 99 0 0 1.5 (-1.5) 4 None 3); try lra; lia.
Defined.

(** ** Particle motion in a disc *)

Lemma sqrt_le_bound (a b : R) : 0 <= b -> a <= b * b -> sqrt a <= b.
Proof.
  intros Hb Ha. destruct (Rle_dec 0 a) as [H0|H0].
  - rewrite <- (sqrt_square b Hb). now apply sqrt_le_1; [|nra|].
  - rewrite sqrt_neg_0 by lra. exact Hb.
Qed.

Lemma sum_squares_nonneg (a b : R) : 0 <= a * a + b * b.
Proof. pose proof (Rle_0_sqr a). pose proof (Rle_0_sqr b). unfold Rsqr in *. lra. Qed.

Lemma sqrt_sum_squares (a b : R) : sqrt (a * a + b * b) * sqrt (a * a + b * b) = a * a + b * b.
Proof. apply sqrt_sqrt, sum_squares_nonneg. Qed.

(** In the CIRCLE branch a zero [dist] comes with zero [dx] and [dy], so that
    the two divisions by it are [0/0]. *)
Lemma dist_zero_inv (dx dy : R) : sqrt (dx * dx + dy * dy) = 0 -> dx = 0 /\ dy = 0.
Proof.
  intros H. apply sqrt_eq_0 in H; [|apply sum_squares_nonneg].
  pose proof (Rle_0_sqr dx). pose proof (Rle_0_sqr dy). unfold Rsqr in *. split; nra.
Qed.

(** The unit normal [(dx/d, dy/d)] scaled by [k] has length [|k|]. *)
Lemma scaled_normal (dx dy d k : R) :
  0 < d -> d * d = dx * dx + dy * dy ->
  (dx / d * k) * (dx / d * k) + (dy / d * k) * (dy / d * k) = k * k.
Proof.
  intros Hd Hdd.
  replace ((dx / d * k) * (dx / d * k) + (dy / d * k) * (dy / d * k))
    with (k * k * ((dx * dx + dy * dy) / (d * d))) by (field; lra).
  rewrite <- Hdd. field; lra.
Qed.

Section Circle.
Variables cx cy rad : R.
Variable bh : num.

Let tickC := updateParticle CIRCLE (Num cx) (Num cy) (Num rad) bh.

(** The "Bounds" block on a real particle in a disc whose radius exceeds
    the particle's by at least one half. *)
Lemma circle_bounds (x y vx vy r : R) (c : option string) :
  r + 1 / 2 <= rad ->
  exists x' y' vx' vy',
    reflectCircle (Num cx) (Num cy) (Num rad) (realParticle x y vx vy r c)
    = realParticle x' y' vx' vy' r c
    /\ sqrt ((x' - cx) * (x' - cx) + (y' - cy) * (y' - cy)) <= rad - r.
Proof.
  intros HR. unfold reflectCircle, realParticle.
  cbn [p_x p_y p_vx p_vy p_radius p_color sub mul add].
  rewrite Math_sqrt_Num by apply sum_squares_nonneg.
  set (dx := x - cx). set (dy := y - cy).
  pose proof (sqrt_sum_squares dx dy) as Hdd.
  set (d := sqrt (dx * dx + dy * dy)) in *.
  unfold gtb, ltb. destruct (Rlt_dec (rad - r) d) as [Hout|Hin].
  - rewrite !div_Num by lra. cbn [sub mul add].
    do 4 eexists. split; [reflexivity|].
    apply sqrt_le_bound; [lra|].
    replace (cx + dx / d * (rad - r - 1) - cx) with (dx / d * (rad - r - 1)) by ring.
    replace (cy + dy / d * (rad - r - 1) - cy) with (dy / d * (rad - r - 1)) by ring.
    rewrite scaled_normal by lra. nra.
  - exists x, y, vx, vy. split; [reflexivity|]. fold dx dy d. lra.
Qed.

Lemma circle_tick (x y vx vy r : R) (c : option string) :
  r + 1 / 2 <= rad ->
  exists x' y' vx' vy',
    tickC (realParticle x y vx vy r c) = realParticle x' y' vx' vy' r c
    /\ sqrt ((x' - cx) * (x' - cx) + (y' - cy) * (y' - cy)) <= rad - r.
Proof.
  intros HR. unfold tickC, updateParticle.
  change (integrate (realParticle x y vx vy r c))
    with (realParticle (x + vx) (y + vy) vx vy r c).
  unfold initCheck.
  destruct (eqb (p_x _) (Num 0) && eqb (p_y _) (Num 0)).
  - apply (circle_bounds cx cy vx vy r c HR).
  - apply (circle_bounds (x + vx) (y + vy) vx vy r c HR).
Qed.

Lemma circle_ticks_real (n : nat) (x y vx vy r : R) (c : option string) :
  r + 1 / 2 <= rad ->
  exists x' y' vx' vy',
    ticks n CIRCLE (Num cx) (Num cy) (Num rad) bh (realParticle x y vx vy r c)
    = realParticle x' y' vx' vy' r c.
Proof.
  intros HR. induction n as [|n IH].
  - now exists x, y, vx, vy.
  - destruct IH as (x1 & y1 & vx1 & vy1 & IH).
    destruct (circle_tick x1 y1 vx1 vy1 r c HR) as (x2 & y2 & vx2 & vy2 & Hstep & _).
    exists x2, y2, vx2, vy2. rewrite ticks_S, IH. exact Hstep.
Qed.

(** C7, as amended. A particle with real coordinates and radius [r],
    confined in the disc of centre [(cx, cy)] and radius [rad >= r + 1/2]:
    after any number [N >= 1] of ticks its distance from the centre is a
    number that is at most [rad - r]. *)
Theorem circle_containment (x y vx vy r : R) (c : option string) (N : nat) :
  r + 1 / 2 <= rad -> (1 <= N)%nat ->
  exists d,
    distanceFrom (Num cx) (Num cy)
      (ticks N CIRCLE (Num cx) (Num cy) (Num rad) bh (realParticle x y vx vy r c)) = Num d
    /\ d <= rad - r.
Proof.
  intros HR HN. destruct N as [|n]; [lia|].
  destruct (circle_ticks_real n x y vx vy r c HR) as (x1 & y1 & vx1 & vy1 & Hn).
  destruct (circle_tick x1 y1 vx1 vy1 r c HR) as (x2 & y2 & vx2 & vy2 & Hstep & Hd).
  rewrite ticks_S, Hn. fold tickC. rewrite Hstep.
  unfold distanceFrom, realParticle. cbn [p_x p_y sub mul add].
  rewrite Math_sqrt_Num by apply sum_squares_nonneg.
  eexists. split; [reflexivity | exact Hd].
Qed.
End Circle.

(** The bowl drawn in the slot [x = 450, y = 100, w = h = 140] (centre
    [(520, 180)], radius [60]) and a particle spawned at the origin. *)
Lemma circle_containment_witness :
  (4 + 1 / 2 <= 60 /\ (1 <= 2)%nat) /\
  exists d,
    distanceFrom (Num 520) (Num 180)
      (ticks 2 CIRCLE (Num 520) (Num 180) (Num 60) (Num 60)
         (realParticle 0 0 1.5 (-1.5) 4 None)) = Num d
    /\ d <= 60 - 4.
Proof.
  split; [split; [lra | lia]|].
  apply (circle_containment 520 180 60 (Num 60) 0 0 1.5 (-1.5) 4 None 2); [lra | lia].
Defined.

(** ** Evaluation at concrete particles *)

Lemma realParticle_ext (x y vx vy r x' y' vx' vy' r' : R) (c : option string) :
  x = x' -> y = y' -> vx = vx' -> vy = vy' -> r = r' ->
  realParticle x y vx vy r c = realParticle x' y' vx' vy' r' c.
Proof. now intros -> -> -> -> ->. Qed.

Lemma integrate_real (x y vx vy r : R) (c : option string) :
  integrate (realParticle x y vx vy r c) = realParticle (x + vx) (y + vy) vx vy r c.
Proof. reflexivity. Qed.

Lemma bounceLeft_eq (bx x y vx vy r : R) (c : option string) :
  bounceLeft (Num bx) (realParticle x y vx vy r c)
  = if Rlt_dec x (bx + r) then realParticle (bx + r) y (vx * -1) vy r c
    else realParticle x y vx vy r c.
Proof.
  unfold bounceLeft, realParticle, set_x_vx, ltb; simpl.
  now destruct (Rlt_dec x (bx + r)).
Qed.

Lemma bounceRight_eq (bx bw x y vx vy r : R) (c : option string) :
  bounceRight (Num bx) (Num bw) (realParticle x y vx vy r c)
  = if Rlt_dec (bx + bw - r) x then realParticle (bx + bw - r) y (vx * -1) vy r c
    else realParticle x y vx vy r c.
Proof.
  unfold bounceRight, realParticle, set_x_vx, gtb, ltb; simpl.
  now destruct (Rlt_dec (bx + bw - r) x).
Qed.

Lemma bounceTop_eq (by_ x y vx vy r : R) (c : option string) :
  bounceTop (Num by_) (realParticle x y vx vy r c)
  = if Rlt_dec y (by_ + r) then realParticle x (by_ + r) vx (vy * -1) r c
    else realParticle x y vx vy r c.
Proof.
  unfold bounceTop, realParticle, set_y_vy, ltb; simpl.
  now destruct (Rlt_dec y (by_ + r)).
Qed.

Lemma bounceBottom_eq (by_ bh x y vx vy r : R) (c : option string) :
  bounceBottom (Num by_) (Num bh) (realParticle x y vx vy r c)
  = if Rlt_dec (by_ + bh - r) y then realParticle x (by_ + bh - r) vx (vy * -1) r c
    else realParticle x y vx vy r c.
Proof.
  unfold bounceBottom, realParticle, set_y_vy, gtb, ltb; simpl.
  now destruct (Rlt_dec (by_ + bh - r) y).
Qed.

(** The CIRCLE branch on a real particle outside the inner disc, with [d]
    the distance from the centre: the position is put on the normal at
    [rad - r - 1] from the centre, and the new [vy] is computed from the new
    [vx]. *)
Lemma reflectCircle_outside (cx cy rad x y vx vy r d : R) (c : option string) :
  0 < d -> d * d = (x - cx) * (x - cx) + (y - cy) * (y - cy) -> rad - r < d ->
  reflectCircle (Num cx) (Num cy) (Num rad) (realParticle x y vx vy r c)
  = realParticle
      (cx + (x - cx) / d * (rad - r - 1))
      (cy + (y - cy) / d * (rad - r - 1))
      (vx - 2 * (vx * ((x - cx) / d) + vy * ((y - cy) / d)) * ((x - cx) / d))
      (vy - 2 * ((vx - 2 * (vx * ((x - cx) / d) + vy * ((y - cy) / d)) * ((x - cx) / d))
                   * ((x - cx) / d) + vy * ((y - cy) / d)) * ((y - cy) / d))
      r c.
Proof.
  intros Hpos Hdd Hout.
  unfold reflectCircle, realParticle.
  cbn [p_x p_y p_vx p_vy p_radius p_color sub mul add].
  rewrite Math_sqrt_Num by apply sum_squares_nonneg.
  rewrite (sqrt_lem_1 _ d) by (auto using sum_squares_nonneg; lra).
  unfold gtb, ltb. destruct (Rlt_dec (rad - r) d); [|contradiction].
  rewrite !div_Num by lra. reflexivity.
Qed.

Lemma reflectCircle_inside (cx cy rad x y vx vy r d : R) (c : option string) :
  0 <= d -> d * d = (x - cx) * (x - cx) + (y - cy) * (y - cy) -> d <= rad - r ->
  reflectCircle (Num cx) (Num cy) (Num rad) (realParticle x y vx vy r c)
  = realParticle x y vx vy r c.
Proof.
  intros Hd Hdd Hin.
  unfold reflectCircle, realParticle.
  cbn [p_x p_y p_vx p_vy p_radius p_color sub mul add].
  rewrite Math_sqrt_Num by apply sum_squares_nonneg.
  rewrite (sqrt_lem_1 _ d) by (auto using sum_squares_nonneg).
  unfold gtb, ltb. destruct (Rlt_dec (rad - r) d); [lra | reflexivity].
Qed.

Lemma distanceFrom_real (cx cy x y vx vy r d : R) (c : option string) :
  0 <= d -> d * d = (x - cx) * (x - cx) + (y - cy) * (y - cy) ->
  distanceFrom (Num cx) (Num cy) (realParticle x y vx vy r c) = Num d.
Proof.
  intros Hd Hdd. unfold distanceFrom, realParticle. cbn [p_x p_y sub mul add].
  rewrite Math_sqrt_Num by apply sum_squares_nonneg.
  now rewrite (sqrt_lem_1 _ d) by (auto using sum_squares_nonneg).
Qed.

Lemma speed2_real (x y vx vy r : R) (c : option string) :
  speed2 (realParticle x y vx vy r c) = Num (vx * vx + vy * vy).
Proof. reflexivity. Qed.

(** Decides the comparisons of concrete real numbers in the goal. *)
Ltac decide_R :=
  repeat match goal with
    | |- context [Rlt_dec ?a ?b] => destruct (Rlt_dec a b); [try (exfalso; lra)|try (exfalso; lra)]
    | |- context [Req_dec_T ?a ?b] => destruct (Req_dec_T a b); [try (exfalso; lra)|try (exfalso; lra)]
    end.

(** The "Init Check" tests the position after the integration: a particle
    that starts a tick at the origin is snapped to the centre only when that
    tick's integration leaves it at the origin. *)
Lemma initCheck_spec (shape : Shape) (bx by_ bw bh : num) (x y vx vy r : R) (c : option string) :
  initCheck shape bx by_ bw bh (integrate (realParticle x y vx vy r c))
  = if Req_dec_T (x + vx) 0 then
      if Req_dec_T (y + vy) 0 then
        match shape with
        | RECT => mkParticle (add bx (div bw (Num 2))) (add by_ (div bh (Num 2)))
                    (Num vx) (Num vy) (Num r) c
        | CIRCLE => mkParticle bx by_ (Num vx) (Num vy) (Num r) c
        end
      else realParticle (x + vx) (y + vy) vx vy r c
    else realParticle (x + vx) (y + vy) vx vy r c.
Proof.
  unfold initCheck, integrate, realParticle, set_pos, eqb.
  cbn [p_x p_y p_vx p_vy p_radius p_color add].
  destruct (Req_dec_T (x + vx) 0), (Req_dec_T (y + vy) 0); reflexivity.
Qed.

(** A particle at the origin with a velocity is, before the boundary check,
    at its velocity and not at the centre. *)
Lemma origin_not_snapped (shape : Shape) (bx by_ bw bh : num) (vx vy r : R) (c : option string) :
  vx <> 0 \/ vy <> 0 ->
  initCheck shape bx by_ bw bh (integrate (realParticle 0 0 vx vy r c))
  = realParticle vx vy vx vy r c.
Proof.
  intros Hv. rewrite initCheck_spec.
  destruct (Req_dec_T (0 + vx) 0), (Req_dec_T (0 + vy) 0);
    try (exfalso; destruct Hv; lra); apply realParticle_ext; lra.
Qed.

(** C4 (the code at a failing input). In the cube's interior (origin
    [(60, 131)], width [120], height [99], centre [(120, 180.5)]) a particle
    that starts the tick at the origin with velocity [(1, -1)] reaches the
    boundary check at [(1, -1)], not at the centre, and ends the tick in the
    top left corner of the rectangle. *)
Theorem origin_particle_not_centred :
  let p := realParticle 0 0 1 (-1) 4 None in
  initCheck RECT (Num 60) (Num 131) (Num 120) (Num 99) (integrate p)
    = realParticle 1 (-1) 1 (-1) 4 None
  /\ add (Num 60) (div (Num 120) (Num 2)) = Num 120
  /\ add (Num 131) (div (Num 99) (Num 2)) = Num 180.5
  /\ updateParticle RECT (Num 60) (Num 131) (Num 120) (Num 99) p
    = realParticle 64 135 (-1) 1 4 None.
Proof.
  cbv zeta. split; [|split; [|split]].
  - rewrite origin_not_snapped by lra. reflexivity.
  - rewrite div_Num by lra. cbn [add]. f_equal. lra.
  - rewrite div_Num by lra. cbn [add]. f_equal. lra.
  - unfold updateParticle. rewrite origin_not_snapped by lra. unfold bounds.
    rewrite bounceLeft_eq. decide_R.
    rewrite bounceRight_eq. decide_R.
    rewrite bounceTop_eq. decide_R.
    rewrite bounceBottom_eq. decide_R.
    apply realParticle_ext; lra.
Qed.

(** The same particle in the bowl (centre [(520, 180)], radius [60]): it is
    far outside the disc at the boundary check. *)
Lemma origin_particle_not_centred_circle :
  initCheck CIRCLE (Num 520) (Num 180) (Num 60) (Num 60)
    (integrate (realParticle 0 0 1 (-1) 4 None))
  = realParticle 1 (-1) 1 (-1) 4 None.
Proof. rewrite origin_not_snapped by lra. reflexivity. Qed.

(** A particle is snapped when the integration lands it on the origin. *)
Lemma landing_on_origin_snapped :
  initCheck RECT (Num 60) (Num 131) (Num 120) (Num 99)
    (integrate (realParticle 1 (-1) (-1) 1 4 None))
  = realParticle 120 180.5 (-1) 1 4 None.
Proof.
  rewrite initCheck_spec. decide_R. rewrite !div_Num by lra.
  apply (realParticle_ext (60 + 120 / 2) (131 + 99 / 2)); lra.
Qed.

(** ** The reflection off the circular boundary *)

(** The reflection of the spec, [v' = v - 2(v.n)n], keeps the speed for a unit
    normal. *)
Lemma specular_preserves_speed (vx vy nx ny : R) :
  nx * nx + ny * ny = 1 ->
  let '(vx', vy') := specular vx vy nx ny in
  vx' * vx' + vy' * vy' = vx * vx + vy * vy.
Proof.
  intros Hn. unfold specular.
  replace ((vx - 2 * (vx * nx + vy * ny) * nx) * (vx - 2 * (vx * nx + vy * ny) * nx)
           + (vy - 2 * (vx * nx + vy * ny) * ny) * (vy - 2 * (vx * nx + vy * ny) * ny))
    with (vx * vx + vy * vy
          + 4 * (vx * nx + vy * ny) * (vx * nx + vy * ny) * (nx * nx + ny * ny - 1))
    by ring.
  rewrite Hn. ring.
Qed.

(** The CIRCLE branch computes the first component of that reflection, and
    the second component from the first one's result instead of from the
    velocity before. *)
Lemma reflectCircle_velocity (cx cy rad x y vx vy r d : R) (c : option string) :
  0 < d -> d * d = (x - cx) * (x - cx) + (y - cy) * (y - cy) -> rad - r < d ->
  let nx := (x - cx) / d in
  let ny := (y - cy) / d in
  let p' := reflectCircle (Num cx) (Num cy) (Num rad) (realParticle x y vx vy r c) in
  p_vx p' = Num (fst (specular vx vy nx ny))
  /\ p_vy p' = Num (snd (specular (fst (specular vx vy nx ny)) vy nx ny)).
Proof.
  intros Hd Hdd Hout. cbv zeta.
  rewrite (reflectCircle_outside cx cy rad x y vx vy r d c Hd Hdd Hout).
  split; reflexivity.
Qed.

(** C1 (the code at a failing input). In the bowl (centre [(520, 180)],
    radius [60]) a particle of radius [4] on the inner circle at
    [(553.6, 224.8)] moves straight outwards with velocity [(0.6, 0.8)],
    crosses the boundary during the tick and is reflected.  The normal is
    [(0.6, 0.8)]; the new [vx] is [0.6 - 2*1*0.6 = -0.6]; the new [vy] is
    computed from that new [vx] and is [0.352], where the specular reflection
    of [(0.6, 0.8)] is [(-0.6, -0.8)].  The squared speed falls from [1] to
    [0.483904], and the speed from [1] to less than [0.7]. *)
Theorem circle_reflection_changes_speed :
  let p := realParticle 553.6 224.8 0.6 0.8 4 None in
  let p' := updateParticle CIRCLE (Num 520) (Num 180) (Num 60) (Num 60) p in
  p' = realParticle 553 224 (-0.6) 0.352 4 None
  /\ speed2 p = Num 1 /\ speed2 p' = Num 0.483904
  /\ speed p = Num 1 /\ (exists s, speed p' = Num s /\ s < 0.7)
  /\ specular 0.6 0.8 0.6 0.8 = (-0.6, -0.8).
Proof.
  cbv zeta.
  assert (Hstep : updateParticle CIRCLE (Num 520) (Num 180) (Num 60) (Num 60)
                    (realParticle 553.6 224.8 0.6 0.8 4 None)
                  = realParticle 553 224 (-0.6) 0.352 4 None).
  { unfold updateParticle. rewrite initCheck_spec. decide_R. unfold bounds.
    rewrite (reflectCircle_outside 520 180 60 (553.6 + 0.6) (224.8 + 0.8) 0.6 0.8 4 57) by lra.
    apply realParticle_ext; lra. }
  rewrite Hstep. unfold speed. rewrite !speed2_real.
  split; [reflexivity|]. split; [f_equal; lra|]. split; [f_equal; lra|]. split; [|split].
  - rewrite Math_sqrt_Num by lra. f_equal. apply sqrt_lem_1; lra.
  - rewrite Math_sqrt_Num by lra. eexists. split; [reflexivity|].
    replace 0.7 with (sqrt (0.7 * 0.7)) by (apply sqrt_square; lra).
    apply sqrt_lt_1; lra.
  - unfold specular. f_equal; lra.
Qed.

(** Every bounce off a wall of the rectangle keeps the squared speed: this is
    the last component of [rect_bounds]. *)
Lemma rect_bounce_preserves_speed (bx by_ bw bh x y vx vy r : R) (c : option string) :
  speed (bounds RECT (Num bx) (Num by_) (Num bw) (Num bh) (realParticle x y vx vy r c))
  = speed (realParticle x y vx vy r c).
Proof.
  destruct (rect_bounds bx by_ bw bh x y vx vy r c) as (x' & y' & vx' & vy' & -> & _ & _ & Hv).
  unfold speed. rewrite !speed2_real. now rewrite Hv.
Qed.

(** ** A disc that barely holds the particle *)

(** C7 (counterexample). A disc of radius [4.25] around [(10, 10)] and a
    particle of radius [4] resting at [(13, 14)]: after one tick the particle
    is at distance [0.75] from the centre, which exceeds
    [rad - r = 0.25] by one half. *)
Lemma circle_small_disc_counterexample :
  4.25 > 4 /\
  distanceFrom (Num 10) (Num 10)
    (ticks 1 CIRCLE (Num 10) (Num 10) (Num 4.25) (Num 4.25)
       (realParticle 13 14 0 0 4 None)) = Num 0.75
  /\ forall eps, eps < 1 / 2 -> ~ (0.75 <= 4.25 - 4 + eps).
Proof.
  split; [lra|]. split; [|intros; lra].
  rewrite ticks_S. change (ticks 0 _ _ _ _ _ ?p) with p.
  unfold updateParticle. rewrite initCheck_spec. decide_R. unfold bounds.
  rewrite (reflectCircle_outside 10 10 4.25 (13 + 0) (14 + 0) 0 0 4 5) by lra.
  apply distanceFrom_real; lra.
Qed.

(** ** Liquid fill smoothing *)

Lemma fillAfter_S (n : nat) (T : R) : fillAfter (S n) T = fillStep (Num T) (fillAfter n T).
Proof. reflexivity. Qed.

(** The fill after [n] frames is [T * (1 - 0.95^n)]. *)
Lemma fillAfter_closed_form (n : nat) (T : R) : fillAfter n T = Num (T * (1 - 0.95 ^ n)).
Proof.
  induction n as [|n IH].
  - unfold fillAfter. cbn [Nat.iter nat_rect]. f_equal. simpl. lra.
  - rewrite fillAfter_S, IH. unfold fillStep. cbn [sub mul add]. f_equal.
    rewrite <- tech_pow_Rmult. lra.
Qed.

Lemma pow95_pos (n : nat) : 0 < 0.95 ^ n.
Proof. apply pow_lt. lra. Qed.

Lemma pow95_le_1 (n : nat) : 0.95 ^ n <= 1.
Proof.
  induction n as [|n IH]; [simpl; lra|].
  rewrite <- tech_pow_Rmult. pose proof (pow95_pos n). nra.
Qed.

Lemma pow95_decr (n m : nat) : (n <= m)%nat -> 0.95 ^ m <= 0.95 ^ n.
Proof.
  induction 1 as [|m Hle IH]; [lra|].
  rewrite <- tech_pow_Rmult. pose proof (pow95_pos m). nra.
Qed.

Lemma pow95_60 : 0.95 ^ 60 < 0.05.
Proof. simpl. lra. Qed.

Lemma pow95_60_lower : 0.04 < 0.95 ^ 60.
Proof. simpl. lra. Qed.

Lemma pow95_90 : 0.95 ^ 90 < 0.01.
Proof. simpl. lra. Qed.

(** In a frame, slot [i] moves from its current fill one twentieth of the way
    to its target; the other slots keep theirs. *)
Lemma advanceFill_lookup (i j : nat) (st : SimState) :
  currentWaterLevels (advanceFill i st) !! j
  = if decide (i = j)
    then Some (fillStep (to_num (waterLevels st !! i)) (to_num (currentWaterLevels st !! i)))
    else currentWaterLevels st !! j.
Proof.
  unfold advanceFill. cbn [currentWaterLevels].
  destruct (decide (i = j)) as [->|Hne].
  - apply lookup_insert_eq.
  - now apply lookup_insert_ne.
Qed.

Lemma advanceFill_waterLevels (i : nat) (st : SimState) :
  waterLevels (advanceFill i st) = waterLevels st.
Proof. reflexivity. Qed.

(** [n] frames on a slot whose target is [T] and whose fill starts at [0]. *)
Lemma advanceFill_iter (n i : nat) (T : R) (st : SimState) :
  waterLevels st !! i = Some (Num T) ->
  currentWaterLevels st !! i = Some (Num 0) ->
  waterLevels (Nat.iter n (advanceFill i) st) !! i = Some (Num T)
  /\ currentWaterLevels (Nat.iter n (advanceFill i) st) !! i = Some (fillAfter n T).
Proof.
  intros Ht Hc. induction n as [|n [IHt IHc]].
  - split; assumption.
  - change (Nat.iter (S n) (advanceFill i) st)
      with (advanceFill i (Nat.iter n (advanceFill i) st)).
    rewrite advanceFill_waterLevels, advanceFill_lookup.
    split; [exact IHt|]. rewrite decide_True by reflexivity.
    now rewrite IHt, IHc.
Qed.

(** C2 (counterexample). With target [1], one frame gives [0.05], at
    distance [0.95] from the target, not less than [0.05^1]; with target
    [0.7], the target of a liquid, sixty frames leave the fill more than
    [0.01] away from it. *)
Lemma fill_convergence_counterexample :
  (fillAfter 1 1 = Num 0.05 /\ ~ Rabs (0.05 - 1) < 0.05 ^ 1)
  /\ (exists c, fillAfter 60 0.7 = Num c /\ 0.7 >= 0.1 /\ ~ Rabs (c - 0.7) < 0.01).
Proof.
  split.
  - split.
    + rewrite fillAfter_closed_form. f_equal. simpl. lra.
    + rewrite Rabs_left by lra. simpl. lra.
  - eexists. split; [apply fillAfter_closed_form|]. split; [lra|].
    pose proof pow95_60_lower. rewrite Rabs_left; lra.
Qed.

(** C2, as amended. For a target [T] in [[0, 1]] and the fill started at [0]:
    the fill after [N] frames is a number [c] in [[0, T]], the next frame's
    fill is not below it, [|c - T| = T * 0.95^N] (hence at most [0.95^N]),
    and the distance to the target is at most [0.05 * T] from the 60th frame
    on and at most [0.01 * T] from the 90th. *)
Theorem fill_convergence (T : R) (N : nat) :
  0 <= T <= 1 ->
  exists c c',
    fillAfter N T = Num c /\ fillAfter (S N) T = Num c'
    /\ c <= c' /\ 0 <= c <= T
    /\ Rabs (c - T) = T * 0.95 ^ N /\ Rabs (c - T) <= 0.95 ^ N
    /\ ((60 <= N)%nat -> Rabs (c - T) <= 0.05 * T)
    /\ ((90 <= N)%nat -> Rabs (c - T) <= 0.01 * T).
Proof.
  intros HT. exists (T * (1 - 0.95 ^ N)), (T * (1 - 0.95 ^ S N)).
  rewrite !fillAfter_closed_form.
  pose proof (pow95_pos N) as Hpos. pose proof (pow95_le_1 N) as Hle.
  assert (Habs : Rabs (T * (1 - 0.95 ^ N) - T) = T * 0.95 ^ N).
  { replace (T * (1 - 0.95 ^ N) - T) with (- (T * 0.95 ^ N)) by ring.
    rewrite Rabs_Ropp. apply Rabs_right. nra. }
  rewrite Habs, <- tech_pow_Rmult.
  repeat split; try reflexivity; try nra.
  - intros HN. pose proof (pow95_decr 60 N HN). pose proof pow95_60. nra.
  - intros HN. pose proof (pow95_decr 90 N HN). pose proof pow95_90. nra.
Qed.

(** The target of a liquid, after one second at sixty frames a second. *)
Lemma fill_convergence_witness :
  0 <= 0.7 <= 1 /\
  exists c c',
    fillAfter 60 0.7 = Num c /\ fillAfter 61 0.7 = Num c'
    /\ c <= c' /\ 0 <= c <= 0.7
    /\ Rabs (c - 0.7) = 0.7 * 0.95 ^ 60 /\ Rabs (c - 0.7) <= 0.95 ^ 60
    /\ ((60 <= 60)%nat -> Rabs (c - 0.7) <= 0.05 * 0.7)
    /\ ((90 <= 60)%nat -> Rabs (c - 0.7) <= 0.01 * 0.7).
Proof.
  split; [lra|]. apply (fill_convergence 0.7 60). lra.
Defined.

(** ** Pointer hit-testing *)

Lemma inHitbox_real (x y bx by_ bw bh : R) (id : Z) :
  inHitbox (Num x) (Num y) (mkBounds id (Num bx) (Num by_) (Num bw) (Num bh)) = true
  <-> (bx - 10 <= x <= bx + bw + 10 /\ by_ - 40 <= y <= by_ + bh + 40).
Proof.
  unfold inHitbox, geb. cbn [b_x b_y b_w b_h sub add].
  rewrite !andb_true_iff, !leb_Num. tauto.
Qed.

Lemma inHitbox_hit (x y bx by_ bw bh : R) (id : Z) :
  bx - 10 <= x <= bx + bw + 10 -> by_ - 40 <= y <= by_ + bh + 40 ->
  inHitbox (Num x) (Num y) (mkBounds id (Num bx) (Num by_) (Num bw) (Num bh)) = true.
Proof. intros. now apply inHitbox_real. Qed.

Lemma inHitbox_miss (x y bx by_ bw bh : R) (id : Z) :
  x < bx - 10 \/ bx + bw + 10 < x \/ y < by_ - 40 \/ by_ + bh + 40 < y ->
  inHitbox (Num x) (Num y) (mkBounds id (Num bx) (Num by_) (Num bw) (Num bh)) = false.
Proof.
  intros H. apply not_true_is_false. rewrite inHitbox_real. lra.
Qed.

(** Every vessel whose hit box holds the point is reported, and no other;
    the reports follow the order of the bounds. *)
Lemma hitTest_In (bs : list Bounds) (x y : num) (id : Z) :
  In id (hitTest bs x y) <-> exists b, In b bs /\ inHitbox x y b = true /\ b_id b = id.
Proof.
  unfold hitTest. rewrite in_map_iff. split.
  - intros (b & Hid & Hb). apply filter_In in Hb. exists b. tauto.
  - intros (b & Hb & Hin & Hid). exists b. split; [exact Hid|]. apply filter_In. tauto.
Qed.

Lemma hitTest_cons (b : Bounds) (bs : list Bounds) (x y : num) :
  hitTest (b :: bs) x y
  = if inHitbox x y b then b_id b :: hitTest bs x y else hitTest bs x y.
Proof. unfold hitTest. cbn [List.filter]. now destruct (inHitbox x y b). Qed.

Ltac eval_hitTest :=
  unfold scenarioBounds;
  repeat (rewrite hitTest_cons;
          first [ rewrite inHitbox_hit by lra | rewrite inHitbox_miss by lra ]);
  cbn [b_id]; reflexivity.

Lemma handleClick_no_canvas (clientX clientY : num) (st : SimState) :
  handleClick None clientX clientY st = [].
Proof. reflexivity. Qed.

Lemma handleClick_hitTest (rect_left rect_top clientX clientY : R) (st : SimState) :
  handleClick (Some (Num rect_left, Num rect_top)) (Num clientX) (Num clientY) st
  = hitTest (containerBounds st) (Num (clientX - rect_left)) (Num (clientY - rect_top)).
Proof. reflexivity. Qed.

(** C3 (counterexample). A click at [(10, 170)] is 40px left of the first
    vessel's left edge [x = 50], beyond the 10px slack; no vessel is
    reported. *)
Lemma hit_test_left_counterexample :
  hitTest (scenarioBounds 1 2 3) (Num 10) (Num 170) = []
  /\ hitTest (scenarioBounds 1 2 3) (Num 10) (Num 170) <> [1%Z].
Proof.
  assert (H : hitTest (scenarioBounds 1 2 3) (Num 10) (Num 170) = []) by eval_hitTest.
  rewrite H. split; [reflexivity | discriminate].
Qed.

(** C3, as amended. With the three bounds of the scenario, a click at
    [(120, 170)] is reported for the first vessel only; a click at
    [(10, 170)] for no vessel, while a click at [(40, 170)], on the outer edge
    of the 10px slack, is reported for the first vessel; a click at
    [(700, 170)] for no vessel. *)
Theorem hit_test_scenario (id1 id2 id3 : Z) :
  hitTest (scenarioBounds id1 id2 id3) (Num 120) (Num 170) = [id1]
  /\ hitTest (scenarioBounds id1 id2 id3) (Num 10) (Num 170) = []
  /\ hitTest (scenarioBounds id1 id2 id3) (Num 40) (Num 170) = [id1]
  /\ hitTest (scenarioBounds id1 id2 id3) (Num 700) (Num 170) = [].
Proof. repeat split; eval_hitTest. Qed.

(** Two overlapping hit boxes both report, in bounds order. *)
Lemma hit_test_multi_fire :
  hitTest [ mkBounds 1 (Num 50) (Num 100) (Num 140) (Num 140);
            mkBounds 2 (Num 200) (Num 100) (Num 140) (Num 140) ]
          (Num 195) (Num 170) = [1%Z; 2%Z].
Proof.
  repeat (rewrite hitTest_cons;
          first [ rewrite inHitbox_hit by lra | rewrite inHitbox_miss by lra ]).
  reflexivity.
Qed.

(** ** The state store *)

Section StoreFacts.
Variable random : nat -> R.

Lemma effectBody_spec (c : ContainerData) (index : nat) (st : SimState) (k : nat) :
  (c_matter c = GAS -> is_Some (particles st !! index)) ->
  exists st' k',
    effectBody random c index (st, k) = Done (st', k')
    /\ currentWaterLevels st' = currentWaterLevels st
    /\ containerBounds st' = containerBounds st
    /\ waterLevels st' = <[index := targetFill c]> (waterLevels st)
    /\ (forall j, j <> index -> particles st' !! j = particles st !! j)
    /\ batch_after random c (particles st !! index) (particles st' !! index).
Proof.
  intros Hslot. unfold effectBody, batch_after, targetFill.
  destruct (c_matter c) eqn:Hm; cbn [matter_eqb];
    try (eexists _, _; split; [reflexivity|];
         cbn [set_particles set_waterLevel particles waterLevels currentWaterLevels
              containerBounds];
         split_and!; try done;
         [intros j Hj; now apply lookup_insert_ne | apply lookup_insert_eq]).
  cbn [set_waterLevel particles].
  destruct Hslot as [batch Hbatch]; [reflexivity|]. rewrite Hbatch.
  destruct batch as [|p ps]; cbn [length Nat.eqb].
  - eexists _, _; split; [reflexivity|].
    cbn [set_particles particles waterLevels currentWaterLevels containerBounds].
    split_and!; try done; [intros j Hj; now apply lookup_insert_ne|].
    exists k. apply lookup_insert_eq.
  - eexists _, _; split; [reflexivity|].
    cbn [particles waterLevels currentWaterLevels containerBounds].
    split_and!; try done.
Qed.

(** The effect on a store that has a batch for every gas vessel: it
    completes; it leaves the current fills and the bounds alone; for each
    vessel it sets the target fill and treats the batch as [batch_after]
    says; the slots before [index] are untouched. *)
Lemma effectLoop_spec (cs : list ContainerData) :
  forall (index : nat) (st : SimState) (k : nat),
    (forall j c, cs !! j = Some c -> c_matter c = GAS ->
                 is_Some (particles st !! (index + j)%nat)) ->
    exists st' k',
      effectLoop random cs index (st, k) = Done (st', k')
      /\ currentWaterLevels st' = currentWaterLevels st
      /\ containerBounds st' = containerBounds st
      /\ (forall i, (i < index)%nat ->
                    particles st' !! i = particles st !! i
                    /\ waterLevels st' !! i = waterLevels st !! i)
      /\ (forall j c, cs !! j = Some c ->
                      waterLevels st' !! (index + j)%nat = Some (targetFill c)
                      /\ batch_after random c (particles st !! (index + j)%nat)
                                     (particles st' !! (index + j)%nat)).
Proof.
  induction cs as [|c cs' IH]; intros index st k Hslots.
  - exists st, k. split_and!; done.
  - destruct (effectBody_spec c index st k) as (st1 & k1 & Hb & Hc1 & Hbd1 & Hw1 & Hp1 & Hs1).
    { intros Hg. specialize (Hslots 0%nat c eq_refl Hg).
      now rewrite Nat.add_0_r in Hslots. }
    destruct (IH (S index) st1 k1) as (st2 & k2 & Hl & Hc2 & Hbd2 & Hbefore & Hs2).
    { intros j c' Hj Hg. rewrite Hp1 by lia.
      replace (S index + j)%nat with (index + S j)%nat by lia.
      now apply (Hslots (S j) c'). }
    exists st2, k2. cbn [effectLoop]. rewrite Hb.
    split; [exact Hl|]. split; [congruence|]. split; [congruence|]. split.
    + intros i Hi. destruct (Hbefore i) as [Hpi Hwi]; [lia|].
      rewrite Hpi, Hwi, Hw1, Hp1 by lia. split; [reflexivity|].
      apply lookup_insert_ne. lia.
    + intros [|j] c' Hj.
      * injection Hj as <-. rewrite Nat.add_0_r.
        destruct (Hbefore index) as [Hpi Hwi]; [lia|].
        rewrite Hpi, Hwi, Hw1. split; [apply lookup_insert_eq | exact Hs1].
      * replace (index + S j)%nat with (S index + j)%nat by lia.
        destruct (Hs2 j c' Hj) as [Hw Hs]. split; [exact Hw|].
        rewrite Hp1 in Hs by lia. exact Hs.
Qed.

Lemma effectBody_throws (c : ContainerData) (index : nat) (st : SimState) (k : nat) :
  c_matter c = GAS -> particles st !! index = None ->
  effectBody random c index (st, k) = TypeError (set_waterLevel st index (Num 0), k).
Proof.
  intros Hg Hnone. unfold effectBody. rewrite Hg. cbn [matter_eqb set_waterLevel particles].
  now rewrite Hnone.
Qed.

Lemma effectBody_done_particles (c : ContainerData) (index : nat) (st st' : SimState)
    (k k' : nat) :
  effectBody random c index (st, k) = Done (st', k') ->
  forall j, j <> index -> particles st' !! j = particles st !! j.
Proof.
  unfold effectBody. intros H j Hj.
  destruct (matter_eqb (c_matter c) GAS).
  - cbn [set_waterLevel particles] in H.
    destruct (particles st !! index) as [batch|]; [|discriminate H].
    destruct (length batch =? 0)%nat; injection H as <- _; cbn [set_particles particles];
      [now apply lookup_insert_ne | reflexivity].
  - injection H as <- _. cbn [set_particles set_waterLevel particles].
    now apply lookup_insert_ne.
Qed.

(** Without a batch for some gas vessel the effect throws: the condition of
    [effectLoop_spec] is the one under which the effect completes. *)
Lemma effectLoop_throws (cs : list ContainerData) :
  forall (index : nat) (st : SimState) (k : nat),
    (exists j c, cs !! j = Some c /\ c_matter c = GAS
                 /\ particles st !! (index + j)%nat = None) ->
    exists s', effectLoop random cs index (st, k) = TypeError s'.
Proof.
  induction cs as [|a cs' IH]; intros index st k (j & c & Hj & Hg & Hnone).
  - discriminate Hj.
  - cbn [effectLoop]. destruct (effectBody random a index (st, k)) as [[st1 k1]|s'] eqn:Hbody.
    + destruct j as [|j].
      * injection Hj as ->. rewrite Nat.add_0_r in Hnone.
        rewrite (effectBody_throws c index st k Hg Hnone) in Hbody. discriminate Hbody.
      * apply IH. exists j, c. split; [exact Hj|]. split; [exact Hg|].
        replace (S index + j)%nat with (index + S j)%nat by lia.
        rewrite (effectBody_done_particles a index st st1 k k1 Hbody) by lia. exact Hnone.
    + now exists s'.
Qed.

(** The store as the component creates it has a batch for every vessel. *)
Lemma initialState_slots (cs : list ContainerData) (j : nat) (c : ContainerData) :
  cs !! j = Some c -> particles (initialState cs) !! j = Some [].
Proof.
  intros Hj. unfold initialState. cbn [particles].
  rewrite lookup_map_seq_0, list_lookup_fmap, Hj. reflexivity.
Qed.
End StoreFacts.

Lemma newParticles_length (random : nat -> R) (k : nat) :
  length (newParticles random k) = 40%nat.
Proof. unfold newParticles. now rewrite length_map, length_seq. Qed.

Lemma batch_after_cases (random : nat -> R) (c : ContainerData)
    (old new : option (list Particle)) :
  batch_after random c old new ->
  (c_matter c <> GAS -> new = Some [])
  /\ (c_matter c = GAS -> forall p ps, old = Some (p :: ps) -> new = Some (p :: ps))
  /\ (c_matter c = GAS -> old = Some [] -> exists k, new = Some (newParticles random k)).
Proof.
  unfold batch_after. intros H.
  destruct (c_matter c); split_and!; try done; intros _.
  - intros p ps ->. exact H.
  - intros ->. exact H.
Qed.

(** C5 (counterexample). The effect, run for a new instance of the same list
    on a store whose jar is filling (target [0.7], fill [0.035]) and whose
    bowl has a batch in motion: the target of the jar is [0.7] afterwards and
    its fill still [0.035], and the bowl's batch is the same, its particles
    at [(553, 224)]; neither the fill levels nor the particle positions are
    zeroed. *)
Lemma effect_keeps_state_counterexample :
  exists st' k',
    initEffect (fun _ => 0) keptContainers (keptState, 0%nat) = Done (st', k')
    /\ waterLevels st' !! 0%nat = Some (Num 0.7)
    /\ waterLevels st' !! 0%nat <> Some (Num 0)
    /\ currentWaterLevels st' !! 0%nat = Some (Num 0.035)
    /\ currentWaterLevels st' !! 0%nat <> Some (Num 0)
    /\ particles st' !! 1%nat = Some (replicate 40 keptParticle)
    /\ p_x keptParticle = Num 553 /\ p_x keptParticle <> Num 0.
Proof.
  destruct (effectLoop_spec (fun _ => 0) keptContainers 0 keptState 0)
    as (st' & k' & Hrun & Hcur & _ & _ & Hslots).
  { intros [|[|j]] c Hj Hg; [injection Hj as <-; discriminate Hg | | discriminate Hj].
    now exists (replicate 40 keptParticle). }
  exists st', k'. split; [exact Hrun|].
  destruct (Hslots 0%nat _ eq_refl) as [Hw0 _].
  destruct (Hslots 1%nat _ eq_refl) as [_ Hb1].
  cbn [Nat.add] in Hw0, Hb1. rewrite Hw0, Hcur.
  assert (Hne : forall a b : R, a <> b -> Some (Num a) <> Some (Num b)).
  { intros a b Hab [= H]. contradiction. }
  split; [reflexivity|]. split; [apply Hne; lra|].
  split; [reflexivity|]. split; [apply Hne; lra|]. split; [exact Hb1|].
  split; [reflexivity|]. intros [= H]. lra.
Qed.

(** C5, as amended. When a new list instance is supplied and the store has a
    batch for every gas vessel, the effect completes and re-derives every
    slot, changed or not: the target fill becomes [0.7] for a liquid and [0]
    otherwise; the batch of a vessel that is not a gas becomes empty; a gas
    vessel keeps a non-empty batch unchanged (positions included) and gets
    freshly spawned particles in place of an empty one.  The current fill
    levels are left as they are. *)
Theorem effect_rederives_every_slot (random : nat -> R) (cs : list ContainerData)
    (st : SimState) (k : nat) :
  (forall j c, cs !! j = Some c -> c_matter c = GAS -> is_Some (particles st !! j)) ->
  exists st' k',
    initEffect random cs (st, k) = Done (st', k')
    /\ currentWaterLevels st' = currentWaterLevels st
    /\ forall i c, cs !! i = Some c ->
         waterLevels st' !! i = Some (if matter_eqb (c_matter c) LIQUID then Num 0.7 else Num 0)
         /\ (c_matter c <> GAS -> particles st' !! i = Some [])
         /\ (c_matter c = GAS -> forall p ps, particles st !! i = Some (p :: ps) ->
                                              particles st' !! i = Some (p :: ps))
         /\ (c_matter c = GAS -> particles st !! i = Some [] ->
             exists k0, particles st' !! i = Some (newParticles random k0)).
Proof.
  intros Hslots.
  destruct (effectLoop_spec random cs 0 st k Hslots) as (st' & k' & Hrun & Hcur & _ & _ & Hs).
  exists st', k'. split; [exact Hrun|]. split; [exact Hcur|].
  intros i c Hi. destruct (Hs i c Hi) as [Hw Hb]. cbn [Nat.add] in Hw, Hb.
  split; [exact Hw|]. now apply batch_after_cases.
Qed.

(** The application's three vessels on the store as the component creates it. *)
Lemma effect_rederives_every_slot_witness :
  exists st' k',
    initEffect (fun _ => 0.5) labContainers (initialState labContainers, 0%nat) = Done (st', k')
    /\ currentWaterLevels st' = currentWaterLevels (initialState labContainers)
    /\ forall i c, labContainers !! i = Some c ->
         waterLevels st' !! i = Some (if matter_eqb (c_matter c) LIQUID then Num 0.7 else Num 0)
         /\ (c_matter c <> GAS -> particles st' !! i = Some [])
         /\ (c_matter c = GAS -> forall p ps,
               particles (initialState labContainers) !! i = Some (p :: ps) ->
               particles st' !! i = Some (p :: ps))
         /\ (c_matter c = GAS -> particles (initialState labContainers) !! i = Some [] ->
             exists k0, particles st' !! i = Some (newParticles (fun _ => 0.5) k0)).
Proof.
  apply (effect_rederives_every_slot (fun _ => 0.5) labContainers (initialState labContainers) 0).
  intros j c Hj _. rewrite (initialState_slots labContainers j c Hj). eauto.
Defined.

(** C8. On a store that has a batch for every gas vessel the effect
    completes, and for every slot: if the vessel's matter state is not GAS
    (whatever it was before) the slot's batch is empty afterwards; if it is
    GAS and the slot's batch was empty, the batch has exactly 40 particles
    afterwards. *)
Theorem batch_cleared_or_spawned (random : nat -> R) (cs : list ContainerData)
    (st : SimState) (k i : nat) (c : ContainerData) :
  (forall j c', cs !! j = Some c' -> c_matter c' = GAS -> is_Some (particles st !! j)) ->
  cs !! i = Some c ->
  exists st' k',
    initEffect random cs (st, k) = Done (st', k')
    /\ (c_matter c <> GAS -> particles st' !! i = Some [])
    /\ (c_matter c = GAS -> particles st !! i = Some [] ->
        exists batch, particles st' !! i = Some batch /\ length batch = 40%nat).
Proof.
  intros Hslots Hi.
  destruct (effectLoop_spec random cs 0 st k Hslots) as (st' & k' & Hrun & _ & _ & _ & Hs).
  exists st', k'. split; [exact Hrun|].
  destruct (Hs i c Hi) as [_ Hb]. cbn [Nat.add] in Hb.
  apply batch_after_cases in Hb. destruct Hb as (Hclear & _ & Hspawn).
  split; [exact Hclear|]. intros Hg Hempty.
  destruct (Hspawn Hg Hempty) as [k0 Hk0].
  exists (newParticles random k0). split; [exact Hk0 | apply newParticles_length].
Qed.

(** The bowl, a gas, on the store as the component creates it. *)
Lemma batch_cleared_or_spawned_witness :
  exists st' k',
    initEffect (fun _ => 0.5) labContainers (initialState labContainers, 0%nat) = Done (st', k')
    /\ (c_matter roundBowl <> GAS -> particles st' !! 2%nat = Some [])
    /\ (c_matter roundBowl = GAS ->
        particles (initialState labContainers) !! 2%nat = Some [] ->
        exists batch, particles st' !! 2%nat = Some batch /\ length batch = 40%nat).
Proof.
  apply (batch_cleared_or_spawned (fun _ => 0.5) labContainers (initialState labContainers)
           0 2 roundBowl).
  - intros j c Hj _. rewrite (initialState_slots labContainers j c Hj). eauto.
  - reflexivity.
Defined.

(** ** Spawned particles *)

Lemma Int_part_IZR (z : Z) : Int_part (IZR z) = z.
Proof. symmetry. apply Int_part_spec. lra. Qed.

(** The palette index drawn from a random value in [[0, 1)] is in range. *)
Lemma palette_pick (u : R) :
  0 <= u < 1 ->
  exists col,
    array_get COLORS.gasParticles
      (Math_floor (mul (Num u) (array_length COLORS.gasParticles))) = Some col
    /\ In col COLORS.gasParticles.
Proof.
  intros Hu. unfold array_length, Math_floor, array_get. cbn [mul COLORS.gasParticles length].
  change (IZR (Z.of_nat 4)) with 4.
  rewrite Int_part_IZR.
  destruct (Req_dec_T (IZR (Int_part (u * 4))) (IZR (Int_part (u * 4)))); [|contradiction].
  destruct (base_Int_part (u * 4)) as [Hlo Hhi].
  assert (Hz : (0 <= Int_part (u * 4) < 4)%Z).
  { split.
    - apply Z.lt_succ_r. apply lt_IZR. rewrite succ_IZR. lra.
    - apply lt_IZR. lra. }
  destruct (Z.leb_spec 0 (Int_part (u * 4))); [|lia].
  assert (Hcases : Int_part (u * 4) = 0%Z \/ Int_part (u * 4) = 1%Z
                   \/ Int_part (u * 4) = 2%Z \/ Int_part (u * 4) = 3%Z) by lia.
  destruct Hcases as [-> | [-> | [-> | ->]]]; eexists; (split; [reflexivity|]);
    cbn; tauto.
Qed.

(** What [newParticle] builds from random values in [[0, 1)]. *)
Lemma newParticle_ranges (random : nat -> R) (k : nat) :
  (forall n, 0 <= random n < 1) ->
  let p := newParticle random k in
  p_x p = Num 0 /\ p_y p = Num 0
  /\ (exists vx, p_vx p = Num vx /\ -1.5 <= vx <= 1.5)
  /\ (exists vy, p_vy p = Num vy /\ -1.5 <= vy <= 1.5)
  /\ (exists r, p_radius p = Num r /\ 4 <= r <= 8)
  /\ (exists col, p_color p = Some col /\ In col COLORS.gasParticles).
Proof.
  intros Hr. cbv zeta. unfold newParticle.
  cbn [p_x p_y p_vx p_vy p_radius p_color sub mul add].
  pose proof (Hr k). pose proof (Hr (k + 1)%nat). pose proof (Hr (k + 2)%nat).
  split_and!; try reflexivity.
  - eexists. split; [reflexivity | lra].
  - eexists. split; [reflexivity | lra].
  - eexists. split; [reflexivity | lra].
  - apply palette_pick, Hr.
Qed.

(** The closed range of the radius does not depend on exact arithmetic: it
    holds for every rounding that is monotone and leaves [0], [4] and [8] as
    they are, as rounding to nearest does. *)
Lemma roundedRadius_range (rnd : R -> R) (u : R) :
  (forall a b, a <= b -> rnd a <= rnd b) ->
  rnd 0 = 0 -> rnd 4 = 4 -> rnd 8 = 8 ->
  0 <= u < 1 ->
  4 <= roundedRadius rnd u <= 8.
Proof.
  intros Hmono H0 H4 H8 Hu. unfold roundedRadius.
  assert (Hlo : 0 <= rnd (u * 4)).
  { apply Rle_trans with (rnd 0); [lra | apply Hmono; lra]. }
  assert (Hhi : rnd (u * 4) <= 4).
  { apply Rle_trans with (rnd 4); [apply Hmono; lra | lra]. }
  split.
  - apply Rle_trans with (rnd 4); [lra | apply Hmono; lra].
  - apply Rle_trans with (rnd 8); [apply Hmono; lra | lra].
Qed.

Lemma roundedRadius_exact (random : nat -> R) (k : nat) :
  p_radius (newParticle random k) = Num (roundedRadius (fun a => a) (random (k + 2)%nat)).
Proof. reflexivity. Qed.

Lemma pow2_53 : 2 ^ 53 = 9007199254740992.
Proof. rewrite (pow_IZR 2 53). reflexivity. Qed.

Lemma pow2_51 : 2 ^ 51 = 2251799813685248.
Proof. rewrite (pow_IZR 2 51). reflexivity. Qed.

(** C10 (counterexample). [Math.random()] may return [1 - 2^-53], the largest
    binary64 value below [1].  The product by [4] is exact; the sum
    [8 - 2^-51] lies halfway between two neighbouring values and is rounded
    to the even one, [8]: the spawned radius is [8], outside [[4, 8)].  In
    exact arithmetic the same draw gives [8 - 2^-51]. *)
Lemma spawned_radius_counterexample :
  let u := Binary64.below_one in
  Binary64.is_binary64 u = true
  /\ Binary64.value u = Some (1 - / 2 ^ 53)
  /\ 0 <= 1 - / 2 ^ 53 < 1
  /\ Binary64.radius u = Binary64.of_Z 8
  /\ Binary64.value (Binary64.radius u) = Some 8
  /\ SFltb (Binary64.radius u) (Binary64.of_Z 8) = false
  /\ p_radius (newParticle (fun _ => 1 - / 2 ^ 53) 0) = Num (8 - / 2 ^ 51).
Proof.
  cbv zeta.
  assert (Hu : Binary64.below_one = S754_finite false 9007199254740991 (-53))
    by (vm_compute; reflexivity).
  assert (Hr : Binary64.radius Binary64.below_one = S754_finite false 4503599627370496 (-49))
    by (vm_compute; reflexivity).
  split_and!.
  - vm_compute; reflexivity.
  - rewrite Hu. unfold Binary64.value.
    change (2 ^ (- (-53)))%Z with 9007199254740992%Z.
    change (0 <=? -53)%Z with false. cbv iota zeta.
    rewrite pow2_53. f_equal. lra.
  - rewrite pow2_53. lra.
  - rewrite pow2_53. lra.
  - rewrite Hr. vm_compute; reflexivity.
  - rewrite Hr. unfold Binary64.value.
    change (2 ^ (- (-49)))%Z with 562949953421312%Z.
    change (0 <=? -49)%Z with false. cbv iota zeta.
    f_equal. lra.
  - rewrite Hr. vm_compute; reflexivity.
  - unfold newParticle. cbn [p_radius add mul]. rewrite pow2_53, pow2_51. f_equal. lra.
Qed.

(** C10. With [Math.random] in [[0, 1)], every particle of a spawned batch
    has position exactly [(0, 0)], velocity components in [[-1.5, 1.5]],
    radius in the closed interval [[4, 8]] and one of the four colours of the
    gas palette. *)
Theorem spawned_particle_ranges (random : nat -> R) (k : nat) (p : Particle) :
  (forall n, 0 <= random n < 1) ->
  In p (newParticles random k) ->
  p_x p = Num 0 /\ p_y p = Num 0
  /\ (exists vx, p_vx p = Num vx /\ -1.5 <= vx <= 1.5)
  /\ (exists vy, p_vy p = Num vy /\ -1.5 <= vy <= 1.5)
  /\ (exists r, p_radius p = Num r /\ 4 <= r <= 8)
  /\ (exists col, p_color p = Some col /\ In col COLORS.gasParticles).
Proof.
  intros Hr Hp. unfold newParticles in Hp. apply in_map_iff in Hp.
  destruct Hp as (i & <- & _). now apply newParticle_ranges.
Qed.

(** The first particle of a batch, every random draw being one quarter. *)
Lemma spawned_particle_ranges_witness :
  let p := newParticle (fun _ => 0.25) 0 in
  p_x p = Num 0 /\ p_y p = Num 0
  /\ (exists vx, p_vx p = Num vx /\ -1.5 <= vx <= 1.5)
  /\ (exists vy, p_vy p = Num vy /\ -1.5 <= vy <= 1.5)
  /\ (exists r, p_radius p = Num r /\ 4 <= r <= 8)
  /\ (exists col, p_color p = Some col /\ In col COLORS.gasParticles).
Proof.
  apply (spawned_particle_ranges (fun _ => 0.25) 0 (newParticle (fun _ => 0.25) 0)).
  - intros _. lra.
  - left. reflexivity.
Defined.

(** ** The liquid surface of the bowl *)

Lemma sphereSurface_NaN (cx wy : num) : sphereSurface cx wy NaN = [].
Proof. reflexivity. Qed.


(** A call whose radii are numbers and not negative is not refused. *)
Lemma radii_ok_accepted (op : CanvasOp) : draw_radii_ok op -> canvas_rejects op = false.
Proof.
  destruct op; try reflexivity; cbn [draw_radii_ok canvas_rejects].
  - destruct r as [r|]; cbn [nonneg]; [|contradiction]. intros Hr.
    unfold ltb. destruct (Rlt_dec r 0); [lra|]. apply andb_false_r.
  - destruct rx as [rx|], ry as [ry|]; cbn [nonneg]; try tauto. intros [Hx Hy].
    unfold ltb. destruct (Rlt_dec rx 0); [lra|]. destruct (Rlt_dec ry 0); [lra|].
    apply andb_false_r.
Qed.

Lemma radii_ok_no_exception (ops : list CanvasOp) :
  Forall draw_radii_ok ops -> List.find canvas_rejects ops = None.
Proof.
  induction 1 as [|op ops Hop _ IH]; [reflexivity|].
  cbn [List.find]. now rewrite radii_ok_accepted.
Qed.

Section Bowl.
Variables x y w h waterLevel : R.
Variable ps : list Particle.

Let cx := x + w / 2.
Let cy := y + h / 2 + 10.
Let r := w / 2 - 10.
Let lh := 2 * r * waterLevel.
Let wy := cy + r - lh.
Let d := Rabs (cy - wy).

Lemma sphereDist_real : sphereDist (Num cy) (Num r) (Num waterLevel) = Num d.
Proof. reflexivity. Qed.

Lemma sphereSurfaceR_outside :
  0 <= r -> r < d -> sphereSurfaceR (Num cy) (Num r) (Num waterLevel) = NaN.
Proof.
  intros Hr Hd. unfold sphereSurfaceR. rewrite sphereDist_real. cbn [mul sub].
  apply Math_sqrt_negative. nra.
Qed.

Lemma drawSphere_liquid :
  drawSphere (Num x) (Num y) (Num w) (Num h) LIQUID (Num waterLevel) ps
  = (ps,
     sphereGlassBody (Num cx) (Num cy) (Num r)
     ++ (sphereLiquidBody (Num x) (Num w) (Num cx) (Num cy) (Num r) (Num wy) (Num lh)
         ++ sphereSurface (Num cx) (Num wy) (sphereSurfaceR (Num cy) (Num r) (Num waterLevel))
         ++ [ctx_restore])
     ++ sphereGlassDetails (Num cx) (Num cy) (Num r)
          (Num (r * 0.6)) (Num (r * 0.6 * 0.25)) (Num (cy - r + 5))).
Proof.
  unfold drawSphere. rewrite !div_Num by lra. reflexivity.
Qed.

(** C9. In the bowl's liquid renderer, for a bowl of radius [r >= 6], when
    the vertical distance [d] from the centre to the liquid plane exceeds
    [r]: the radius of the surface ellipse, [Math.sqrt(r*r - d*d)], is [NaN];
    the guard fails, and no surface ellipse is drawn; the calls made are the
    glass body, the clipped liquid rectangle, [restore], the outline, the rim
    of the opening and the two shines, with the arguments given; the canvas
    refuses none of them, and every circle and ellipse among them has radii
    that are numbers and not negative. *)
Theorem bowl_surface_skipped :
  6 <= r -> r < d ->
  sphereSurfaceR (Num cy) (Num r) (Num waterLevel) = NaN
  /\ negb (isNaN (sphereSurfaceR (Num cy) (Num r) (Num waterLevel)))
     && gtb (sphereSurfaceR (Num cy) (Num r) (Num waterLevel)) (Num 0) = false
  /\ drawSphere (Num x) (Num y) (Num w) (Num h) LIQUID (Num waterLevel) ps
     = (ps,
        [ ctx_fillStyle (Some COLORS.glassFill);
          ctx_beginPath;
          ctx_arc (Num cx) (Num cy) (Num r) (Num 0) (Num (PI * 2));
          ctx_fill;
          ctx_lineWidth (Num 1);
          ctx_strokeStyle COLORS.glassInnerStroke;
          ctx_stroke;
          ctx_save;
          ctx_beginPath;
          ctx_arc (Num cx) (Num cy) (Num r) (Num 0) (Num (PI * 2));
          ctx_clip;
          ctx_fillStyle (Some COLORS.waterFill);
          ctx_fillRect (Num x) (Num wy) (Num w) (Num lh);
          ctx_restore;
          ctx_lineWidth (Num 2);
          ctx_strokeStyle COLORS.glassBorder;
          ctx_beginPath;
          ctx_arc (Num cx) (Num cy) (Num r) (Num 0) (Num (PI * 2));
          ctx_stroke;
          ctx_fillStyle (Some "rgba(255,255,255,0.1)"%string);
          ctx_beginPath;
          ctx_ellipse (Num cx) (Num (cy - r + 5)) (Num (r * 0.6)) (Num (r * 0.6 * 0.25))
            (Num 0) (Num 0) (Num (PI * 2));
          ctx_fill;
          ctx_stroke;
          ctx_beginPath;
          ctx_arc (Num cx) (Num cy) (Num (r - 6)) (Num (PI * 1.2)) (Num (PI * 1.4));
          ctx_strokeStyle COLORS.glassHighlight;
          ctx_lineWidth (Num 4);
          ctx_lineCap "round";
          ctx_stroke;
          ctx_beginPath;
          ctx_arc (Num cx) (Num cy) (Num (r - 6)) (Num (PI * 0.2)) (Num (PI * 0.3));
          ctx_lineWidth (Num 2);
          ctx_stroke ])
  /\ List.find canvas_rejects
       (snd (drawSphere (Num x) (Num y) (Num w) (Num h) LIQUID (Num waterLevel) ps)) = None
  /\ Forall draw_radii_ok
       (snd (drawSphere (Num x) (Num y) (Num w) (Num h) LIQUID (Num waterLevel) ps)).
Proof.
  intros Hr Hd.
  assert (HNaN : sphereSurfaceR (Num cy) (Num r) (Num waterLevel) = NaN).
  { apply sphereSurfaceR_outside; lra. }
  assert (Hok : Forall draw_radii_ok
            (snd (drawSphere (Num x) (Num y) (Num w) (Num h) LIQUID (Num waterLevel) ps))).
  { rewrite drawSphere_liquid, HNaN, sphereSurface_NaN.
    cbn [snd]. rewrite !Forall_app.
    unfold sphereGlassBody, sphereLiquidBody, sphereGlassDetails.
    split_and!;
    repeat match goal with
           | |- Forall _ [] => apply Forall_nil_2
           | |- Forall _ (_ :: _) => apply Forall_cons_2
           end; cbn [draw_radii_ok nonneg sub]; try exact I; lra. }
  split; [exact HNaN|]. split; [now rewrite HNaN|].
  split; [|split; [now apply radii_ok_no_exception | exact Hok]].
  rewrite drawSphere_liquid, HNaN, sphereSurface_NaN. reflexivity.
Qed.
End Bowl.

(** The bowl of centre [(0, 0)] and radius [50], the liquid plane at distance
    [60] from the centre (a fill of [1.1]). *)
Lemma bowl_surface_skipped_witness :
  sphereDist (Num 0) (Num 50) (Num 1.1) = Num 60
  /\ sphereSurfaceR (Num 0) (Num 50) (Num 1.1) = NaN
  /\ List.find canvas_rejects
       (snd (drawSphere (Num (-60)) (Num (-70)) (Num 120) (Num 120) LIQUID (Num 1.1) []))
     = None.
Proof.
  assert (H1 : 6 <= 120 / 2 - 10) by lra.
  assert (H2 : 120 / 2 - 10 < Rabs (-70 + 120 / 2 + 10
             - (-70 + 120 / 2 + 10 + (120 / 2 - 10) - 2 * (120 / 2 - 10) * 1.1))).
  { rewrite Rabs_right; lra. }
  destruct (bowl_surface_skipped (-60) (-70) 120 120 1.1 [] H1 H2) as (HNaN & _ & _ & Hrun & _).
  split; [|split; [|exact Hrun]].
  - unfold sphereDist. cbn [mul add sub Math_abs]. f_equal. rewrite Rabs_right; lra.
  - replace 0 with (-70 + 120 / 2 + 10) by lra.
    replace 50 with (120 / 2 - 10) by lra.
    exact HNaN.
Defined.

(** C9 (counterexample). A bowl of radius [2] (a slot [24] wide) around
    [(0, 0)], the liquid plane at distance [2.4]: the surface ellipse is
    skipped, but the shines are arcs of radius [r - 6 = -4]; the canvas
    refuses the first of them, and the call of [drawSphere] ends there with
    an exception. *)
Lemma bowl_small_radius_counterexample :
  0 <= 2 < 2.4
  /\ sphereDist (Num 0) (Num 2) (Num 1.1) = Num 2.4
  /\ sphereSurfaceR (Num 0) (Num 2) (Num 1.1) = NaN
  /\ List.find canvas_rejects
       (snd (drawSphere (Num (-12)) (Num (-22)) (Num 24) (Num 24) LIQUID (Num 1.1) []))
     = Some (ctx_arc (Num 0) (Num 0) (Num (-4)) (Num (PI * 1.2)) (Num (PI * 1.4)))
  /\ ~ Forall draw_radii_ok
         (snd (drawSphere (Num (-12)) (Num (-22)) (Num 24) (Num 24) LIQUID (Num 1.1) [])).
Proof.
  assert (HNaN : sphereSurfaceR (Num 0) (Num 2) (Num 1.1) = NaN).
  { pose proof (sphereSurfaceR_outside (-22) 24 24 1.1) as H. cbv zeta in H.
    replace (-22 + 24 / 2 + 10) with 0 in H by lra.
    replace (24 / 2 - 10) with 2 in H by lra.
    apply H; [lra|]. rewrite Rabs_right; lra. }
  assert (Hdraw : snd (drawSphere (Num (-12)) (Num (-22)) (Num 24) (Num 24) LIQUID (Num 1.1) [])
                  = sphereGlassBody (Num 0) (Num 0) (Num 2)
                    ++ (sphereLiquidBody (Num (-12)) (Num 24) (Num 0) (Num 0) (Num 2)
                          (Num (-2.4)) (Num 4.4)
                        ++ [ctx_restore])
                    ++ sphereGlassDetails (Num 0) (Num 0) (Num 2) (Num 1.2) (Num 0.3) (Num 3)).
  { rewrite drawSphere_liquid. cbn [snd].
    replace (-12 + 24 / 2) with 0 by lra.
    replace (-22 + 24 / 2 + 10) with 0 by lra.
    replace (24 / 2 - 10) with 2 by lra.
    rewrite HNaN, sphereSurface_NaN.
    replace (0 + 2 - 2 * 2 * 1.1) with (-2.4) by lra.
    replace (2 * 2 * 1.1) with 4.4 by lra.
    replace (2 * 0.6 * 0.25) with 0.3 by lra.
    replace (2 * 0.6) with 1.2 by lra.
    replace (0 - 2 + 5) with 3 by lra.
    reflexivity. }
  split; [lra|]. split; [|split; [exact HNaN|]].
  { unfold sphereDist. cbn [mul add sub Math_abs]. f_equal. rewrite Rabs_right; lra. }
  rewrite Hdraw. unfold sphereGlassBody, sphereLiquidBody, sphereGlassDetails.
  cbn [app sub mul Math_PI]. split.
  - cbn [List.find canvas_rejects all_numbers forallb isNaN negb andb orb].
    unfold ltb. decide_R. replace (2 - 6) with (-4) by lra. reflexivity.
  - intros H. rewrite Forall_forall in H.
    specialize (H (ctx_arc (Num 0) (Num 0) (Num (2 - 6)) (Num (PI * 1.2)) (Num (PI * 1.4)))).
    cbn [draw_radii_ok nonneg] in H.
    assert (Hneg : 0 <= 2 - 6); [|lra].
    apply H. apply list_elem_of_In. cbn [In]. tauto.
Qed.

(** * Further properties *)

(** ** Particle motion, whatever the numbers *)

Lemma integrate_radius_color (p : Particle) :
  p_radius (integrate p) = p_radius p /\ p_color (integrate p) = p_color p.
Proof. split; reflexivity. Qed.

Lemma initCheck_radius_color (shape : Shape) (bx by_ bw bh : num) (p : Particle) :
  p_radius (initCheck shape bx by_ bw bh p) = p_radius p
  /\ p_color (initCheck shape bx by_ bw bh p) = p_color p.
Proof.
  unfold initCheck.
  destruct (eqb (p_x p) (Num 0) && eqb (p_y p) (Num 0)); [destruct shape|]; split; reflexivity.
Qed.

Lemma bounds_radius_color (shape : Shape) (bx by_ bw bh : num) (p : Particle) :
  p_radius (bounds shape bx by_ bw bh p) = p_radius p
  /\ p_color (bounds shape bx by_ bw bh p) = p_color p.
Proof.
  assert (HL : forall q, p_radius (bounceLeft bx q) = p_radius q
                         /\ p_color (bounceLeft bx q) = p_color q).
  { intros q. unfold bounceLeft. destruct (ltb _ _); split; reflexivity. }
  assert (HR : forall q, p_radius (bounceRight bx bw q) = p_radius q
                         /\ p_color (bounceRight bx bw q) = p_color q).
  { intros q. unfold bounceRight. destruct (gtb _ _); split; reflexivity. }
  assert (HT : forall q, p_radius (bounceTop by_ q) = p_radius q
                         /\ p_color (bounceTop by_ q) = p_color q).
  { intros q. unfold bounceTop. destruct (ltb _ _); split; reflexivity. }
  assert (HB : forall q, p_radius (bounceBottom by_ bh q) = p_radius q
                         /\ p_color (bounceBottom by_ bh q) = p_color q).
  { intros q. unfold bounceBottom. destruct (gtb _ _); split; reflexivity. }
  destruct shape; cbn [bounds].
  - destruct (HB (bounceTop by_ (bounceRight bx bw (bounceLeft bx p)))) as [-> ->].
    destruct (HT (bounceRight bx bw (bounceLeft bx p))) as [-> ->].
    destruct (HR (bounceLeft bx p)) as [-> ->]. apply HL.
  - unfold reflectCircle. cbv zeta. destruct (gtb _ _); split; reflexivity.
Qed.

Lemma updateParticle_radius_color (shape : Shape) (bx by_ bw bh : num) (p : Particle) :
  p_radius (updateParticle shape bx by_ bw bh p) = p_radius p
  /\ p_color (updateParticle shape bx by_ bw bh p) = p_color p.
Proof.
  unfold updateParticle.
  destruct (bounds_radius_color shape bx by_ bw bh
              (initCheck shape bx by_ bw bh (integrate p))) as [-> ->].
  destruct (initCheck_radius_color shape bx by_ bw bh (integrate p)) as [-> ->].
  apply integrate_radius_color.
Qed.

(** X1. A tick of a batch, in either shape and whatever the numbers (NaN
    included), keeps the number of particles and the radius and the colour of
    each, and makes four calls on the context for each particle. *)
Theorem tick_keeps_batch_shape (ps : list Particle) (bx by_ bw bh : num) (shape : Shape) :
  let '(ps', ops) := updateParticles ps bx by_ bw bh shape in
  length ps' = length ps
  /\ map p_radius ps' = map p_radius ps
  /\ map p_color ps' = map p_color ps
  /\ length ops = (4 * length ps)%nat.
Proof.
  unfold updateParticles. split_and!.
  - apply length_map.
  - rewrite map_map. apply map_ext. intros p. apply updateParticle_radius_color.
  - rewrite map_map. apply map_ext. intros p. apply updateParticle_radius_color.
  - induction ps as [|p ps' IH]; [reflexivity|].
    cbn [map flat_map]. rewrite length_app, IH. cbn [drawParticle length]. lia.
Qed.

Lemma rect_tick_speed (bx by_ bw bh x y vx vy r : R) (c : option string) :
  exists x' y' vx' vy',
    updateParticle RECT (Num bx) (Num by_) (Num bw) (Num bh) (realParticle x y vx vy r c)
    = realParticle x' y' vx' vy' r c
    /\ vx' * vx' + vy' * vy' = vx * vx + vy * vy.
Proof.
  unfold updateParticle. rewrite integrate_real.
  destruct (initCheck_real bx by_ bw bh RECT (x + vx) (y + vy) vx vy r c) as (x0 & y0 & ->).
  destruct (rect_bounds bx by_ bw bh x0 y0 vx vy r c) as (x1 & y1 & vx1 & vy1 & -> & _ & _ & Hv).
  now exists x1, y1, vx1, vy1.
Qed.

Lemma rect_ticks_speed2 (bx by_ bw bh x y vx vy r : R) (c : option string) (n : nat) :
  exists x' y' vx' vy',
    ticks n RECT (Num bx) (Num by_) (Num bw) (Num bh) (realParticle x y vx vy r c)
    = realParticle x' y' vx' vy' r c
    /\ vx' * vx' + vy' * vy' = vx * vx + vy * vy.
Proof.
  induction n as [|n (x1 & y1 & vx1 & vy1 & IH & Hv)].
  - now exists x, y, vx, vy.
  - destruct (rect_tick_speed bx by_ bw bh x1 y1 vx1 vy1 r c)
      as (x2 & y2 & vx2 & vy2 & Hstep & Hv2).
    exists x2, y2, vx2, vy2. rewrite ticks_S, IH. split; [exact Hstep | lra].
Qed.

(** X2. In a rectangle, of any size and wherever the particle is, any number
    of ticks keeps the speed of a particle whose numbers are real: the walls
    only flip the sign of a velocity component. *)
Theorem rect_ticks_keep_speed (bx by_ bw bh x y vx vy r : R) (c : option string) (n : nat) :
  speed (ticks n RECT (Num bx) (Num by_) (Num bw) (Num bh) (realParticle x y vx vy r c))
  = Num (sqrt (vx * vx + vy * vy)).
Proof.
  destruct (rect_ticks_speed2 bx by_ bw bh x y vx vy r c n) as (x' & y' & vx' & vy' & -> & Hv).
  unfold speed. rewrite speed2_real, Hv.
  apply Math_sqrt_Num, sum_squares_nonneg.
Qed.

(** ** NaN in the particle motion *)

Lemma ltb_NaN_r (a : num) : ltb a NaN = false.
Proof. now destruct a. Qed.

Lemma updateParticle_x_NaN (shape : Shape) (bx by_ bw bh : num) (p : Particle) :
  p_x p = NaN -> p_x (updateParticle shape bx by_ bw bh p) = NaN.
Proof.
  intros Hx. unfold updateParticle.
  assert (H1 : p_x (integrate p) = NaN).
  { unfold integrate, set_pos. cbn [p_x]. now rewrite Hx. }
  assert (H2 : p_x (initCheck shape bx by_ bw bh (integrate p)) = NaN).
  { unfold initCheck. now rewrite H1. }
  set (q := initCheck shape bx by_ bw bh (integrate p)) in *.
  destruct shape; cbn [bounds].
  - assert (HL : p_x (bounceLeft bx q) = NaN).
    { unfold bounceLeft. now rewrite H2. }
    assert (HR : p_x (bounceRight bx bw (bounceLeft bx q)) = NaN).
    { unfold bounceRight, gtb. now rewrite HL, ltb_NaN_r. }
    assert (HT : p_x (bounceTop by_ (bounceRight bx bw (bounceLeft bx q))) = NaN).
    { unfold bounceTop. now destruct (ltb _ _). }
    unfold bounceBottom. now destruct (gtb _ _).
  - unfold reflectCircle, gtb. rewrite H2. cbn [sub mul add Math_sqrt].
    now rewrite ltb_NaN_r.
Qed.

Lemma updateParticle_y_NaN (shape : Shape) (bx by_ bw bh : num) (p : Particle) :
  p_y p = NaN -> p_y (updateParticle shape bx by_ bw bh p) = NaN.
Proof.
  intros Hy. unfold updateParticle.
  assert (H1 : p_y (integrate p) = NaN).
  { unfold integrate, set_pos. cbn [p_y]. now rewrite Hy. }
  assert (H2 : p_y (initCheck shape bx by_ bw bh (integrate p)) = NaN).
  { unfold initCheck. rewrite H1. cbn [eqb]. now rewrite andb_false_r. }
  set (q := initCheck shape bx by_ bw bh (integrate p)) in *.
  destruct shape; cbn [bounds].
  - assert (HL : p_y (bounceLeft bx q) = NaN).
    { unfold bounceLeft. now destruct (ltb _ _). }
    assert (HR : p_y (bounceRight bx bw (bounceLeft bx q)) = NaN).
    { unfold bounceRight. now destruct (gtb _ _). }
    assert (HT : p_y (bounceTop by_ (bounceRight bx bw (bounceLeft bx q))) = NaN).
    { unfold bounceTop. now rewrite HR. }
    unfold bounceBottom, gtb. now rewrite HT, ltb_NaN_r.
  - unfold reflectCircle, gtb. rewrite H2.
    replace (add (mul (sub (p_x q) bx) (sub (p_x q) bx)) (mul (sub NaN by_) (sub NaN by_)))
      with NaN by (now destruct (mul (sub (p_x q) bx) (sub (p_x q) bx))).
    cbn [Math_sqrt]. now rewrite ltb_NaN_r.
Qed.

(** X3. A coordinate that is NaN stays NaN, each on its own: in either
    shape, whatever the geometry and the other fields, after any number of
    ticks an [x] that was NaN is NaN and a [y] that was NaN is NaN. *)
Theorem NaN_position_is_absorbing (shape : Shape) (bx by_ bw bh : num) (p : Particle) (n : nat) :
  (p_x p = NaN -> p_x (ticks n shape bx by_ bw bh p) = NaN)
  /\ (p_y p = NaN -> p_y (ticks n shape bx by_ bw bh p) = NaN).
Proof.
  split; intros H.
  - induction n as [|n IH]; [exact H|].
    rewrite ticks_S. now apply updateParticle_x_NaN.
  - induction n as [|n IH]; [exact H|].
    rewrite ticks_S. now apply updateParticle_y_NaN.
Qed.

(** In the bowl, a particle whose [x] alone is NaN, and in the tank one whose
    [y] alone is NaN. *)
Lemma NaN_position_is_absorbing_witness :
  p_x (ticks 5 CIRCLE (Num 520) (Num 180) (Num 60) (Num 60)
         (mkParticle NaN (Num 3) (Num 1) (Num 1) (Num 4) None)) = NaN
  /\ p_y (ticks 5 RECT (Num 60) (Num 131) (Num 120) (Num 99)
            (mkParticle (Num 100) NaN (Num 1) (Num 1) (Num 4) None)) = NaN.
Proof.
  split.
  - apply (NaN_position_is_absorbing CIRCLE (Num 520) (Num 180) (Num 60) (Num 60)
             (mkParticle NaN (Num 3) (Num 1) (Num 1) (Num 4) None) 5).
    reflexivity.
  - apply (NaN_position_is_absorbing RECT (Num 60) (Num 131) (Num 120) (Num 99)
             (mkParticle (Num 100) NaN (Num 1) (Num 1) (Num 4) None) 5).
    reflexivity.
Defined.

Lemma reflectCircle_centre (cx cy rad vx vy r : R) (c : option string) :
  rad < r ->
  reflectCircle (Num cx) (Num cy) (Num rad) (realParticle cx cy vx vy r c)
  = mkParticle NaN NaN NaN NaN (Num r) c.
Proof.
  intros Hr. unfold reflectCircle, realParticle.
  cbn [p_x p_y p_vx p_vy p_radius p_color sub mul add].
  replace ((cx - cx) * (cx - cx) + (cy - cy) * (cy - cy)) with 0 by ring.
  rewrite Math_sqrt_Num by lra. rewrite sqrt_0.
  unfold gtb, ltb, div. destruct (Rlt_dec (rad - r) 0); [|lra].
  destruct (Req_dec_T 0 0); [|contradiction]. reflexivity.
Qed.

(** X4. In a disc smaller than the particle ([rad < r]), a particle with real
    numbers that the integration puts exactly on the centre leaves the tick
    with NaN for its position and its velocity: the normal is [0/0]. *)
Theorem centre_of_small_disc_gives_NaN (cx cy rad x y vx vy r : R) (bh : num)
    (c : option string) :
  rad < r -> x + vx = cx -> y + vy = cy ->
  updateParticle CIRCLE (Num cx) (Num cy) (Num rad) bh (realParticle x y vx vy r c)
  = mkParticle NaN NaN NaN NaN (Num r) c.
Proof.
  intros Hr Hx Hy. unfold updateParticle. rewrite initCheck_spec.
  rewrite Hx, Hy. cbn [bounds].
  destruct (Req_dec_T cx 0), (Req_dec_T cy 0); now apply reflectCircle_centre.
Qed.

Lemma centre_of_small_disc_gives_NaN_witness :
  updateParticle CIRCLE (Num 10) (Num 10) (Num 3) (Num 3) (realParticle 9 11 1 (-1) 4 None)
  = mkParticle NaN NaN NaN NaN (Num 4) None.
Proof.
  apply (centre_of_small_disc_gives_NaN 10 10 3 9 11 1 (-1) 4 (Num 3) None); lra.
Defined.

Lemma reflectCircle_real (cx cy rad x y vx vy r : R) (c : option string) :
  r <= rad ->
  exists x' y' vx' vy',
    reflectCircle (Num cx) (Num cy) (Num rad) (realParticle x y vx vy r c)
    = realParticle x' y' vx' vy' r c.
Proof.
  intros Hr.
  pose proof (sqrt_sum_squares (x - cx) (y - cy)) as Hdd.
  pose proof (sqrt_pos ((x - cx) * (x - cx) + (y - cy) * (y - cy))) as Hpos.
  set (d := sqrt ((x - cx) * (x - cx) + (y - cy) * (y - cy))) in *.
  destruct (Rlt_dec (rad - r) d) as [Hout|Hin].
  - rewrite (reflectCircle_outside cx cy rad x y vx vy r d c) by lra.
    now eexists _, _, _, _.
  - rewrite (reflectCircle_inside cx cy rad x y vx vy r d c) by lra.
    now exists x, y, vx, vy.
Qed.

Lemma circle_tick_real (cx cy rad x y vx vy r : R) (bh : num) (c : option string) :
  r <= rad ->
  exists x' y' vx' vy',
    updateParticle CIRCLE (Num cx) (Num cy) (Num rad) bh (realParticle x y vx vy r c)
    = realParticle x' y' vx' vy' r c.
Proof.
  intros Hr. unfold updateParticle. rewrite initCheck_spec. cbn [bounds].
  destruct (Req_dec_T (x + vx) 0); [destruct (Req_dec_T (y + vy) 0)|].
  - apply (reflectCircle_real cx cy rad cx cy vx vy r c Hr).
  - now apply reflectCircle_real.
  - now apply reflectCircle_real.
Qed.

(** X5. In a disc that is not smaller than the particle ([r <= rad], as in
    the bowl), a particle whose numbers are real keeps real numbers through
    any number of ticks: the division by the distance is never [0/0]. *)
Theorem disc_ticks_stay_real (cx cy rad x y vx vy r : R) (bh : num) (c : option string)
    (n : nat) :
  r <= rad ->
  exists x' y' vx' vy',
    ticks n CIRCLE (Num cx) (Num cy) (Num rad) bh (realParticle x y vx vy r c)
    = realParticle x' y' vx' vy' r c.
Proof.
  intros Hr. induction n as [|n (x1 & y1 & vx1 & vy1 & IH)].
  - now exists x, y, vx, vy.
  - rewrite ticks_S, IH. now apply circle_tick_real.
Qed.

Lemma disc_ticks_stay_real_witness :
  exists x' y' vx' vy',
    ticks 7 CIRCLE (Num 520) (Num 180) (Num 60) (Num 60) (realParticle 0 0 1.5 (-1.5) 7.5 None)
    = realParticle x' y' vx' vy' 7.5 None.
Proof.
  apply (disc_ticks_stay_real 520 180 60 0 0 1.5 (-1.5) 7.5 (Num 60) None 7). lra.
Defined.

(** X6. A particle that crosses the circle on the vertical or on the
    horizontal line through the centre is reflected as by a mirror: on the
    vertical [vx] is kept and [vy] negated, on the horizontal [vx] is negated
    and [vy] kept. *)
Theorem circle_axis_hits_are_specular (cx cy rad x y vx vy r : R) (c : option string) :
  (rad - r < Rabs (y - cy) /\ y <> cy ->
   let p' := reflectCircle (Num cx) (Num cy) (Num rad) (realParticle cx y vx vy r c) in
   p_vx p' = Num vx /\ p_vy p' = Num (- vy))
  /\ (rad - r < Rabs (x - cx) /\ x <> cx ->
      let p' := reflectCircle (Num cx) (Num cy) (Num rad) (realParticle x cy vx vy r c) in
      p_vx p' = Num (- vx) /\ p_vy p' = Num vy).
Proof.
  split.
  - intros [Hout Hne]. cbv zeta.
    assert (Hd : 0 < Rabs (y - cy)) by (apply Rabs_pos_lt; lra).
    assert (Hdd : Rabs (y - cy) * Rabs (y - cy) = (cx - cx) * (cx - cx) + (y - cy) * (y - cy)).
    { unfold Rabs. destruct (Rcase_abs (y - cy)); ring. }
    rewrite (reflectCircle_outside cx cy rad cx y vx vy r (Rabs (y - cy)) c Hd Hdd Hout).
    unfold realParticle. cbn [p_vx p_vy].
    assert (Hn : (y - cy) / Rabs (y - cy) * ((y - cy) / Rabs (y - cy)) = 1).
    { unfold Rabs in *. destruct (Rcase_abs (y - cy)); field; lra. }
    set (ny := (y - cy) / Rabs (y - cy)) in *.
    replace ((cx - cx) / Rabs (y - cy)) with 0 by (field; lra).
    split; f_equal; [ring|].
    transitivity (vy - 2 * vy * (ny * ny)); [ring | rewrite Hn; ring].
  - intros [Hout Hne]. cbv zeta.
    assert (Hd : 0 < Rabs (x - cx)) by (apply Rabs_pos_lt; lra).
    assert (Hdd : Rabs (x - cx) * Rabs (x - cx) = (x - cx) * (x - cx) + (cy - cy) * (cy - cy)).
    { unfold Rabs. destruct (Rcase_abs (x - cx)); ring. }
    rewrite (reflectCircle_outside cx cy rad x cy vx vy r (Rabs (x - cx)) c Hd Hdd Hout).
    unfold realParticle. cbn [p_vx p_vy].
    assert (Hn : (x - cx) / Rabs (x - cx) * ((x - cx) / Rabs (x - cx)) = 1).
    { unfold Rabs in *. destruct (Rcase_abs (x - cx)); field; lra. }
    set (nx := (x - cx) / Rabs (x - cx)) in *.
    replace ((cy - cy) / Rabs (x - cx)) with 0 by (field; lra).
    split; f_equal; [|ring].
    transitivity (vx - 2 * vx * (nx * nx)); [ring | rewrite Hn; ring].
Qed.

Lemma circle_axis_hits_are_specular_witness :
  (p_vx (reflectCircle (Num 520) (Num 180) (Num 60) (realParticle 520 238 1 1 4 None)) = Num 1
   /\ p_vy (reflectCircle (Num 520) (Num 180) (Num 60) (realParticle 520 238 1 1 4 None))
      = Num (- 1))
  /\ (p_vx (reflectCircle (Num 520) (Num 180) (Num 60) (realParticle 578 180 1 1 4 None))
      = Num (- 1)
      /\ p_vy (reflectCircle (Num 520) (Num 180) (Num 60) (realParticle 578 180 1 1 4 None))
         = Num 1).
Proof.
  destruct (circle_axis_hits_are_specular 520 180 60 578 238 1 1 4 None) as [Hv Hh].
  split; [apply Hv | apply Hh]; (split; [rewrite Rabs_right; lra | lra]).
Defined.

(** ** The fill, from any level *)

Lemma fillStep_real (T c : R) : fillStep (Num T) (Num c) = Num (T + 0.95 * (c - T)).
Proof. unfold fillStep. cbn [sub mul add]. f_equal. lra. Qed.

Lemma fillFrom_closed_form (n : nat) (T c0 : R) :
  fillFrom n T c0 = Num (T + 0.95 ^ n * (c0 - T)).
Proof.
  induction n as [|n IH].
  - unfold fillFrom. cbn [Nat.iter nat_rect]. f_equal. simpl. lra.
  - change (fillFrom (S n) T c0) with (fillStep (Num T) (fillFrom n T c0)).
    rewrite IH, fillStep_real. f_equal. rewrite <- tech_pow_Rmult. lra.
Qed.

(** X7. From any level [c0] and for any target [T], draining included: the
    fill after [n] frames is [T + 0.95^n (c0 - T)]; it lies between [c0] and
    [T] (no overshoot), its distance to the target is [0.95^n |c0 - T|], and
    it equals the target only if it started there. *)
Theorem fill_never_overshoots (n : nat) (T c0 : R) :
  exists c,
    fillFrom n T c0 = Num c
    /\ c = T + 0.95 ^ n * (c0 - T)
    /\ Rmin c0 T <= c <= Rmax c0 T
    /\ Rabs (c - T) = 0.95 ^ n * Rabs (c0 - T)
    /\ (c = T <-> c0 = T).
Proof.
  exists (T + 0.95 ^ n * (c0 - T)). rewrite fillFrom_closed_form.
  pose proof (pow95_pos n) as Hpos. pose proof (pow95_le_1 n) as Hle.
  split_and!; try reflexivity.
  - unfold Rmin. destruct (Rle_dec c0 T); nra.
  - unfold Rmax. destruct (Rle_dec c0 T); nra.
  - replace (T + 0.95 ^ n * (c0 - T) - T) with (0.95 ^ n * (c0 - T)) by ring.
    rewrite Rabs_mult. f_equal. apply Rabs_right. lra.
  - split; [intros H; nra | intros ->; ring].
Qed.

Lemma fillStep_NaN_l (a : num) : fillStep NaN a = NaN.
Proof. unfold fillStep. now destruct a. Qed.

Lemma fillStep_NaN_r (a : num) : fillStep a NaN = NaN.
Proof. reflexivity. Qed.

Lemma advanceFill_iter_S (n i : nat) (st : SimState) :
  Nat.iter (S n) (advanceFill i) st = advanceFill i (Nat.iter n (advanceFill i) st).
Proof. reflexivity. Qed.

Lemma advanceFill_iter_waterLevels (n i : nat) (st : SimState) :
  waterLevels (Nat.iter n (advanceFill i) st) = waterLevels st.
Proof.
  induction n as [|n IH]; [reflexivity|].
  now rewrite advanceFill_iter_S, advanceFill_waterLevels.
Qed.

(** X8. A slot with no current fill, or with no target fill (a vessel beyond
    those the store was created or synchronised for), gets NaN for its fill
    in the first frame and keeps NaN in every later frame. *)
Theorem missing_fill_slot_is_NaN (n i : nat) (st : SimState) :
  currentWaterLevels st !! i = None \/ waterLevels st !! i = None ->
  (1 <= n)%nat ->
  currentWaterLevels (Nat.iter n (advanceFill i) st) !! i = Some NaN.
Proof.
  intros Hmiss Hn. destruct n as [|n]; [lia|]. clear Hn.
  induction n as [|n IH].
  - cbn [Nat.iter nat_rect]. rewrite advanceFill_lookup, decide_True by reflexivity.
    destruct Hmiss as [-> | ->]; cbn [to_num]; [reflexivity | now rewrite fillStep_NaN_l].
  - rewrite advanceFill_iter_S, advanceFill_lookup, decide_True by reflexivity.
    rewrite IH. reflexivity.
Qed.

(** A fourth vessel on the store created for the application's three. *)
Lemma missing_fill_slot_is_NaN_witness :
  currentWaterLevels (Nat.iter 3 (advanceFill 3) (initialState INITIAL_CONTAINERS)) !! 3%nat
  = Some NaN.
Proof.
  apply (missing_fill_slot_is_NaN 3 3 (initialState INITIAL_CONTAINERS)); [|lia].
  left. reflexivity.
Defined.

(** ** The effect as a whole *)

Section EffectFacts.
Variable random : nat -> R.

Lemma effectBody_done_frame (c : ContainerData) (index : nat) (st st' : SimState) (k k' : nat) :
  effectBody random c index (st, k) = Done (st', k') ->
  currentWaterLevels st' = currentWaterLevels st
  /\ containerBounds st' = containerBounds st
  /\ forall j, j <> index ->
       particles st' !! j = particles st !! j /\ waterLevels st' !! j = waterLevels st !! j.
Proof.
  unfold effectBody. intros H.
  destruct (matter_eqb (c_matter c) GAS).
  - cbn [set_waterLevel particles] in H.
    destruct (particles st !! index) as [batch|]; [|discriminate H].
    destruct (length batch =? 0)%nat; injection H as <- _;
      cbn [set_particles set_waterLevel particles waterLevels currentWaterLevels containerBounds];
      split_and!; try reflexivity; intros j Hj; split;
      try reflexivity; now apply lookup_insert_ne.
  - injection H as <- _.
    cbn [set_particles set_waterLevel particles waterLevels currentWaterLevels containerBounds].
    split_and!; try reflexivity. intros j Hj. split; now apply lookup_insert_ne.
Qed.

Lemma effectLoop_done_frame (cs : list ContainerData) :
  forall (index : nat) (st st' : SimState) (k k' : nat),
    effectLoop random cs index (st, k) = Done (st', k') ->
    currentWaterLevels st' = currentWaterLevels st
    /\ containerBounds st' = containerBounds st
    /\ forall j, (j < index \/ index + length cs <= j)%nat ->
         particles st' !! j = particles st !! j /\ waterLevels st' !! j = waterLevels st !! j.
Proof.
  induction cs as [|c cs' IH]; intros index st st' k k' H.
  - injection H as <- _. split_and!; try reflexivity. intros j _. split; reflexivity.
  - cbn [effectLoop] in H.
    destruct (effectBody random c index (st, k)) as [[st1 k1]|s1] eqn:Hbody; [|discriminate H].
    destruct (effectBody_done_frame c index st st1 k k1 Hbody) as (Hc1 & Hb1 & Hf1).
    destruct (IH (S index) st1 st' k1 k' H) as (Hc2 & Hb2 & Hf2).
    split; [congruence|]. split; [congruence|].
    intros j Hj. cbn [length] in Hj.
    destruct (Hf2 j) as [Hp Hw]; [lia|]. destruct (Hf1 j) as [Hp' Hw']; [lia|].
    split; congruence.
Qed.

(** X9. The effect completes exactly when the store has a batch in the slot
    of every gas vessel; otherwise it throws the [TypeError] of reading
    [.length] of a missing batch. *)
Theorem effect_completes_iff (cs : list ContainerData) (st : SimState) (k : nat) :
  (exists s', initEffect random cs (st, k) = Done s')
  <-> (forall j c, cs !! j = Some c -> c_matter c = GAS -> is_Some (particles st !! j)).
Proof.
  split.
  - intros [s' Hdone] j c Hj Hg.
    destruct (particles st !! j) as [batch|] eqn:Hbatch; [now exists batch|].
    destruct (effectLoop_throws random cs 0 st k) as [s'' Hthrow].
    { exists j, c. now split_and!. }
    unfold initEffect in Hdone. rewrite Hthrow in Hdone. discriminate Hdone.
  - intros Hslots.
    destruct (effectLoop_spec random cs 0 st k Hslots) as (st' & k' & Hrun & _).
    now exists (st', k').
Qed.

(** X10. What the effect leaves alone when it completes: the current fill
    levels, the bounds, and the target fill and the batch of every slot
    beyond the vessels of the list (the slots of vessels that are no longer
    there are not cleared). *)
Theorem effect_leaves_the_rest (cs : list ContainerData) (st st' : SimState) (k k' : nat) :
  initEffect random cs (st, k) = Done (st', k') ->
  currentWaterLevels st' = currentWaterLevels st
  /\ containerBounds st' = containerBounds st
  /\ forall j, (length cs <= j)%nat ->
       particles st' !! j = particles st !! j /\ waterLevels st' !! j = waterLevels st !! j.
Proof.
  intros H. destruct (effectLoop_done_frame cs 0 st st' k k' H) as (Hc & Hb & Hf).
  split; [exact Hc|]. split; [exact Hb|]. intros j Hj. apply Hf. right. lia.
Qed.

Lemma set_waterLevel_id (st : SimState) (i : nat) (v : num) :
  waterLevels st !! i = Some v -> set_waterLevel st i v = st.
Proof.
  intros H. destruct st as [w cw ps bs]. unfold set_waterLevel. cbn in *.
  f_equal. now apply insert_id.
Qed.

Lemma set_particles_id (st : SimState) (i : nat) (l : list Particle) :
  particles st !! i = Some l -> set_particles st i l = st.
Proof.
  intros H. destruct st as [w cw ps bs]. unfold set_particles. cbn in *.
  f_equal. now apply insert_id.
Qed.

Lemma effectLoop_in_sync_id (cs : list ContainerData) :
  forall (index : nat) (st : SimState) (k : nat),
    (forall j c, cs !! j = Some c ->
       waterLevels st !! (index + j)%nat = Some (targetFill c)
       /\ (c_matter c = GAS -> exists p ps, particles st !! (index + j)%nat = Some (p :: ps))
       /\ (c_matter c <> GAS -> particles st !! (index + j)%nat = Some [])) ->
    effectLoop random cs index (st, k) = Done (st, k).
Proof.
  induction cs as [|c cs' IH]; intros index st k Hsync; [reflexivity|].
  cbn [effectLoop].
  assert (Hbody : effectBody random c index (st, k) = Done (st, k)).
  { destruct (Hsync 0%nat c eq_refl) as (Hw & Hgas & Hother).
    rewrite Nat.add_0_r in Hw, Hgas, Hother.
    unfold effectBody. fold (targetFill c). rewrite (set_waterLevel_id st index _ Hw).
    destruct (c_matter c) eqn:Hm; cbn [matter_eqb];
      try (rewrite set_particles_id; [reflexivity | now apply Hother]).
    destruct (Hgas eq_refl) as (p & ps & ->). reflexivity. }
  rewrite Hbody. apply IH. intros j c' Hj.
  replace (S index + j)%nat with (index + S j)%nat by lia. now apply (Hsync (S j) c').
Qed.

Lemma effect_establishes_sync (cs : list ContainerData) (st st' : SimState) (k k' : nat) :
  initEffect random cs (st, k) = Done (st', k') -> in_sync cs st'.
Proof.
  intros Hdone.
  assert (Hslots : forall j c, cs !! j = Some c -> c_matter c = GAS ->
                               is_Some (particles st !! j)).
  { intros j c Hj Hg.
    destruct (particles st !! j) as [batch|] eqn:Hbatch; [now exists batch|].
    destruct (effectLoop_throws random cs 0 st k) as [s'' Hthrow].
    { exists j, c. now split_and!. }
    unfold initEffect in Hdone. rewrite Hthrow in Hdone. discriminate Hdone. }
  destruct (effectLoop_spec random cs 0 st k Hslots) as (st2 & k2 & Hrun & _ & _ & _ & Hs).
  unfold initEffect in Hdone. rewrite Hrun in Hdone. injection Hdone as -> ->.
  intros i c Hi. destruct (Hs i c Hi) as [Hw Hb]. cbn [Nat.add] in Hw, Hb.
  split; [exact Hw|]. unfold batch_after in Hb. split.
  - intros Hg. rewrite Hg in Hb.
    destruct (particles st !! i) as [[|p ps]|]; [|eauto|contradiction].
    destruct Hb as [k0 ->]. unfold newParticles. cbn [seq map]. eauto.
  - intros Hg. destruct (c_matter c); try exact Hb. contradiction.
Qed.

(** X11. The effect is idempotent: run again for the same list on the store
    it has just left (as it is after every render), it completes and changes
    nothing, and draws no random number. *)
Theorem effect_idempotent (cs : list ContainerData) (st st' : SimState) (k k' : nat) :
  initEffect random cs (st, k) = Done (st', k') ->
  initEffect random cs (st', k') = Done (st', k').
Proof.
  intros Hdone. apply effectLoop_in_sync_id. intros j c Hj.
  now apply (effect_establishes_sync cs st st' k k' Hdone).
Qed.
End EffectFacts.

Lemma effect_idempotent_witness :
  exists st' k',
    initEffect (fun _ => 0.5) labContainers (initialState labContainers, 0%nat) = Done (st', k')
    /\ initEffect (fun _ => 0.5) labContainers (st', k') = Done (st', k').
Proof.
  destruct (effectLoop_spec (fun _ => 0.5) labContainers 0 (initialState labContainers) 0)
    as (st' & k' & Hrun & _).
  { intros j c Hj _. cbn [Nat.add].
    rewrite (initialState_slots labContainers j c Hj). eauto. }
  exists st', k'. split; [exact Hrun|].
  exact (effect_idempotent (fun _ => 0.5) labContainers (initialState labContainers)
           st' 0 k' Hrun).
Defined.

Lemma effect_leaves_the_rest_witness :
  exists st' k',
    initEffect (fun _ => 0.5) labContainers (initialState labContainers, 0%nat) = Done (st', k')
    /\ currentWaterLevels st' = currentWaterLevels (initialState labContainers)
    /\ containerBounds st' = containerBounds (initialState labContainers)
    /\ forall j, (length labContainers <= j)%nat ->
         particles st' !! j = particles (initialState labContainers) !! j
         /\ waterLevels st' !! j = waterLevels (initialState labContainers) !! j.
Proof.
  destruct (effectLoop_spec (fun _ => 0.5) labContainers 0 (initialState labContainers) 0)
    as (st' & k' & Hrun & _).
  { intros j c Hj _. cbn [Nat.add].
    rewrite (initialState_slots labContainers j c Hj). eauto. }
  exists st', k'. split; [exact Hrun|].
  exact (effect_leaves_the_rest (fun _ => 0.5) labContainers (initialState labContainers)
           st' 0 k' Hrun).
Defined.

(** ** The layout and the hit boxes *)

Lemma layoutBound_real (width tableY : R) (i : nat) (c : ContainerData) :
  layoutBound (layoutGap (Num width)) (layoutBase (Num tableY)) i c
  = mkBounds (c_id c)
      (Num ((width - 140 * 3) / 4 + IZR (Z.of_nat i) * (140 + (width - 140 * 3) / 4)))
      (Num (tableY - 140 + 40)) (Num 140) (Num 140).
Proof.
  unfold layoutBound, layoutGap, layoutBase, cSize. cbn [sub mul].
  rewrite div_Num by lra. reflexivity.
Qed.

Lemma newBounds_lookup (width tableY : R) (cs : list ContainerData) (i : nat) :
  newBounds (Num width) (Num tableY) cs !! i
  = (fun c => mkBounds (c_id c)
                (Num ((width - 140 * 3) / 4 + IZR (Z.of_nat i) * (140 + (width - 140 * 3) / 4)))
                (Num (tableY - 140 + 40)) (Num 140) (Num 140)) <$> cs !! i.
Proof.
  unfold newBounds. rewrite list_lookup_imap.
  destruct (cs !! i) as [c|]; [|reflexivity].
  cbn [fmap option_fmap option_map]. now rewrite layoutBound_real.
Qed.

(** X12. The layout of three vessels in a viewport of width [width]: the
    vessels are [140] wide, on the common base line [tableY - 100]; the left
    margin, the two gaps between neighbours and the right margin are all
    [(width - 420) / 4]; the ids are those of the vessels, in order. *)
Theorem layout_of_three_vessels (width tableY : R) (c0 c1 c2 : ContainerData) :
  exists x0 x1 x2 yBase,
    newBounds (Num width) (Num tableY) [c0; c1; c2]
    = [ mkBounds (c_id c0) (Num x0) (Num yBase) (Num 140) (Num 140);
        mkBounds (c_id c1) (Num x1) (Num yBase) (Num 140) (Num 140);
        mkBounds (c_id c2) (Num x2) (Num yBase) (Num 140) (Num 140) ]
    /\ x0 = (width - 420) / 4
    /\ x1 - (x0 + 140) = (width - 420) / 4
    /\ x2 - (x1 + 140) = (width - 420) / 4
    /\ width - (x2 + 140) = (width - 420) / 4
    /\ yBase = tableY - 100.
Proof.
  eexists _, _, _, _. split.
  - unfold newBounds. cbn [imap]. unfold compose. rewrite !layoutBound_real. reflexivity.
  - change (Z.of_nat 0) with 0%Z. change (Z.of_nat 1) with 1%Z. change (Z.of_nat 2) with 2%Z.
    split_and!; lra.
Qed.

(** X13. A click on a vessel's own rectangle is always reported for that
    vessel, wherever it stands in the list and whatever else is reported. *)
Theorem click_on_vessel_reports_it (bs : list Bounds) (id : Z) (bx by_ bw bh x y : R) :
  In (mkBounds id (Num bx) (Num by_) (Num bw) (Num bh)) bs ->
  bx <= x <= bx + bw -> by_ <= y <= by_ + bh ->
  In id (hitTest bs (Num x) (Num y)).
Proof.
  intros Hb Hx Hy. apply hitTest_In.
  exists (mkBounds id (Num bx) (Num by_) (Num bw) (Num bh)).
  split; [exact Hb|]. split; [|reflexivity]. apply inHitbox_hit; lra.
Qed.

Lemma click_on_vessel_reports_it_witness :
  In 2%Z (hitTest (scenarioBounds 1 2 3) (Num 390) (Num 100)).
Proof.
  apply (click_on_vessel_reports_it (scenarioBounds 1 2 3) 2 250 100 140 140 390 100).
  - right. left. reflexivity.
  - lra.
  - lra.
Defined.

Lemma filter_at_most_one {A : Type} (P : A -> bool) (l : list A) :
  (forall i j a b, (i < j)%nat -> l !! i = Some a -> l !! j = Some b ->
                   P a = true -> P b = true -> False) ->
  (length (List.filter P l) <= 1)%nat.
Proof.
  induction l as [|a l IH]; intros Hex; [cbn; lia|].
  cbn [List.filter]. destruct (P a) eqn:Ha.
  - destruct (List.filter P l) as [|b rest] eqn:Hf; [cbn; lia|]. exfalso.
    assert (Hb : In b (List.filter P l)) by (rewrite Hf; now left).
    apply filter_In in Hb. destruct Hb as [Hin Hpb].
    apply list_elem_of_In, list_elem_of_lookup_1 in Hin. destruct Hin as [j Hj].
    apply (Hex 0%nat (S j) a b); [lia | reflexivity | exact Hj | exact Ha | exact Hpb].
  - apply IH. intros i j x y Hij Hi Hj. apply (Hex (S i) (S j) x y); [lia | exact Hi | exact Hj].
Qed.

Lemma inHitbox_x (x y : num) (b : Bounds) :
  inHitbox x y b = true ->
  geb x (sub (b_x b) (Num 10)) = true /\ leb x (add (add (b_x b) (b_w b)) (Num 10)) = true.
Proof.
  unfold inHitbox. rewrite !andb_true_iff. tauto.
Qed.

Lemma layout_single_report (width tableY : R) (cs : list ContainerData) (x y : num) :
  500 < width ->
  (length (List.filter (inHitbox x y) (newBounds (Num width) (Num tableY) cs)) <= 1)%nat.
Proof.
  intros Hw. apply filter_at_most_one.
  intros i j a b Hij Hi Hj Ha Hb.
  rewrite newBounds_lookup in Hi, Hj.
  destruct (cs !! i) as [ci|]; [|discriminate Hi].
  destruct (cs !! j) as [cj|]; [|discriminate Hj].
  injection Hi as <-. injection Hj as <-.
  apply inHitbox_x in Ha, Hb. destruct Ha as [_ Ha]. destruct Hb as [Hb _].
  destruct x as [x|]; [|discriminate Ha].
  cbn [b_x b_w add sub] in Ha, Hb. unfold geb in Hb.
  apply leb_Num in Ha, Hb.
  assert (Hji : IZR (Z.of_nat i) + 1 <= IZR (Z.of_nat j)).
  { rewrite <- plus_IZR. apply IZR_le. lia. }
  assert (Hi0 : 0 <= IZR (Z.of_nat i)) by (apply IZR_le; lia).
  nra.
Qed.

(** X14. In a viewport wider than [500] the hit boxes of the laid-out
    vessels do not meet (the gap exceeds twice the 10px slack): a click is
    reported for at most one vessel, however many vessels there are and
    wherever the pointer is. *)
Theorem wide_viewport_single_report (width tableY : R) (cs : list ContainerData) (x y : num) :
  500 < width ->
  (length (hitTest (newBounds (Num width) (Num tableY) cs) x y) <= 1)%nat.
Proof.
  intros Hw. unfold hitTest. rewrite length_map. now apply layout_single_report.
Qed.

Lemma wide_viewport_single_report_witness :
  (length (hitTest (newBounds (Num 620) (Num 200) INITIAL_CONTAINERS) (Num 120) (Num 170)) <= 1)%nat.
Proof.
  apply (wide_viewport_single_report 620 200 INITIAL_CONTAINERS (Num 120) (Num 170)). lra.
Defined.

(** ** The liquid surface of the bowl within the fill range *)




(** ** Gas in the three vessels *)

Lemma rect_tick_inside (bx by_ bw bh rmax : R) (p : Particle) :
  realWithRadius 0 rmax p -> 2 * rmax <= bw -> 2 * rmax <= bh ->
  realWithRadius 0 rmax (updateParticle RECT (Num bx) (Num by_) (Num bw) (Num bh) p)
  /\ insideRect bx by_ bw bh (updateParticle RECT (Num bx) (Num by_) (Num bw) (Num bh) p).
Proof.
  intros (x & y & vx & vy & r & c & -> & Hr) Hw Hh.
  destruct (rect_tick bx by_ bw bh x y vx vy r c) as (x' & y' & vx' & vy' & -> & Hx & Hy).
  split.
  - now exists x', y', vx', vy', r, c.
  - exists x', y', r. split_and!; try reflexivity; try (apply Hx; lra); apply Hy; lra.
Qed.

Lemma circle_tick_inside (cx cy rad rmax : R) (bh : num) (p : Particle) :
  realWithRadius 0 rmax p -> rmax + 1 / 2 <= rad ->
  realWithRadius 0 rmax (updateParticle CIRCLE (Num cx) (Num cy) (Num rad) bh p)
  /\ insideDisc cx cy rad (updateParticle CIRCLE (Num cx) (Num cy) (Num rad) bh p).
Proof.
  intros (x & y & vx & vy & r & c & -> & Hr) Hrad.
  destruct (circle_tick cx cy rad bh x y vx vy r c) as (x' & y' & vx' & vy' & -> & Hd); [lra|].
  split.
  - now exists x', y', vx', vy', r, c.
  - exists (sqrt ((x' - cx) * (x' - cx) + (y' - cy) * (y' - cy))), r.
    split; [|split; [reflexivity | exact Hd]].
    unfold distanceFrom, realParticle. cbn [p_x p_y sub mul add].
    apply Math_sqrt_Num, sum_squares_nonneg.
Qed.

Lemma Forall_map_tick (P Q : Particle -> Prop) (f : Particle -> Particle) (ps : list Particle) :
  (forall p, P p -> P (f p) /\ Q (f p)) ->
  Forall P ps -> Forall P (map f ps) /\ Forall Q (map f ps).
Proof.
  intros Hf Hps. induction Hps as [|p ps Hp _ [IHP IHQ]]; [split; constructor|].
  destruct (Hf p Hp) as [HP HQ]. cbn [map]. split; constructor; assumption.
Qed.

Lemma drawCube_gas (x y w h : R) (waterLevel : num) (ps : list Particle) :
  exists ops,
    drawCube (Num x) (Num y) (Num w) (Num h) GAS waterLevel (Some ps)
    = Done (Some (map (updateParticle RECT (Num (x + 10)) (Num (y + 10 + w * 0.3 / 2))
                         (Num (w - 10 * 2)) (Num (h - 10 * 2 - w * 0.3 / 2))) ps),
            ops).
Proof.
  unfold drawCube. cbn [mul]. rewrite !div_Num by lra. cbn [add sub mul].
  unfold gasContents, updateParticles, around. eexists. reflexivity.
Qed.

Lemma drawCylinder_gas (x y w h : R) (waterLevel : num) (ps : list Particle) :
  exists ops,
    drawCylinder (Num x) (Num y) (Num w) (Num h) GAS waterLevel (Some ps)
    = Done (Some (map (updateParticle RECT (Num (x + (w - w * 0.7) / 2)) (Num (y + 12 + 10))
                         (Num (w * 0.7)) (Num (y + h - 12 - 5 - (y + 12 + 10)))) ps),
            ops).
Proof.
  unfold drawCylinder. cbn [mul sub]. rewrite !div_Num by lra. cbn [add sub mul].
  unfold gasContents, updateParticles, around. eexists. reflexivity.
Qed.

Lemma drawSphereSlot_gas (x y w h : R) (waterLevel : num) (ps : list Particle) :
  exists ops,
    drawSphereSlot (Num x) (Num y) (Num w) (Num h) GAS waterLevel (Some ps)
    = Done (Some (map (updateParticle CIRCLE (Num (x + w / 2)) (Num (y + h / 2 + 10))
                         (Num (w / 2 - 10)) (Num (w / 2 - 10))) ps),
            ops).
Proof.
  unfold drawSphereSlot, drawSphere. rewrite !div_Num by lra. cbn [add sub mul].
  unfold sphereContents, updateParticles. eexists. reflexivity.
Qed.

(** X16. Gas in the tank: [drawCube] on a batch of particles with real
    numbers and radii in [[0, rmax]], in a slot whose front face
    ([w - 20] wide, [h - 20 - 0.15 w] high) is at least [2 rmax] each way,
    completes and leaves every particle's centre within the front face
    shrunk by the particle's radius, the batch as long as before. *)
Theorem cube_gas_contained (x y w h rmax : R) (waterLevel : num) (ps : list Particle) :
  Forall (realWithRadius 0 rmax) ps ->
  2 * rmax <= w - 20 -> 2 * rmax <= h - 20 - 0.15 * w ->
  exists ps' ops,
    drawCube (Num x) (Num y) (Num w) (Num h) GAS waterLevel (Some ps) = Done (Some ps', ops)
    /\ length ps' = length ps
    /\ Forall (realWithRadius 0 rmax) ps'
    /\ Forall (insideRect (x + 10) (y + 10 + w * 0.3 / 2) (w - 10 * 2)
                 (h - 10 * 2 - w * 0.3 / 2)) ps'.
Proof.
  intros Hps Hw Hh. destruct (drawCube_gas x y w h waterLevel ps) as [ops Hdraw].
  eexists _, ops. split; [exact Hdraw|]. split; [apply length_map|].
  apply Forall_map_tick; [|exact Hps].
  intros p Hp. apply rect_tick_inside; [exact Hp | lra | lra].
Qed.

(** The tank of the slot [x = 50, y = 100, w = h = 140]. *)
Lemma cube_gas_contained_witness :
  exists ps' ops,
    drawCube (Num 50) (Num 100) (Num 140) (Num 140) GAS (Num 0)
      (Some [realParticle 0 0 1 (-1) 4 None]) = Done (Some ps', ops)
    /\ length ps' = length [realParticle 0 0 1 (-1) 4 None]
    /\ Forall (realWithRadius 0 8) ps'
    /\ Forall (insideRect (50 + 10) (100 + 10 + 140 * 0.3 / 2) (140 - 10 * 2)
                 (140 - 10 * 2 - 140 * 0.3 / 2)) ps'.
Proof.
  apply (cube_gas_contained 50 100 140 140 8 (Num 0) [realParticle 0 0 1 (-1) 4 None]);
    [|lra|lra].
  constructor; [|constructor]. exists 0, 0, 1, (-1), 4, None. split; [reflexivity | lra].
Defined.

(** X17. Gas in the jar: [drawCylinder] on a batch of particles with real
    numbers and radii in [[0, rmax]], in a slot whose body ([0.7 w] wide,
    [h - 39] high) is at least [2 rmax] each way, completes and leaves every
    particle's centre within the body shrunk by the particle's radius, the
    batch as long as before. *)
Theorem cylinder_gas_contained (x y w h rmax : R) (waterLevel : num) (ps : list Particle) :
  Forall (realWithRadius 0 rmax) ps ->
  2 * rmax <= 0.7 * w -> 2 * rmax <= h - 39 ->
  exists ps' ops,
    drawCylinder (Num x) (Num y) (Num w) (Num h) GAS waterLevel (Some ps) = Done (Some ps', ops)
    /\ length ps' = length ps
    /\ Forall (realWithRadius 0 rmax) ps'
    /\ Forall (insideRect (x + (w - w * 0.7) / 2) (y + 12 + 10) (w * 0.7)
                 (y + h - 12 - 5 - (y + 12 + 10))) ps'.
Proof.
  intros Hps Hw Hh. destruct (drawCylinder_gas x y w h waterLevel ps) as [ops Hdraw].
  eexists _, ops. split; [exact Hdraw|]. split; [apply length_map|].
  apply Forall_map_tick; [|exact Hps].
  intros p Hp. apply rect_tick_inside; [exact Hp | lra | lra].
Qed.

(** The jar as the frame draws it in the slot [x = 250, y = 100]: 168 high,
    from [y = 72]. *)
Lemma cylinder_gas_contained_witness :
  exists ps' ops,
    drawCylinder (Num 250) (Num 72) (Num 140) (Num 168) GAS (Num 0)
      (Some [realParticle 0 0 1 (-1) 4 None]) = Done (Some ps', ops)
    /\ length ps' = length [realParticle 0 0 1 (-1) 4 None]
    /\ Forall (realWithRadius 0 8) ps'
    /\ Forall (insideRect (250 + (140 - 140 * 0.7) / 2) (72 + 12 + 10) (140 * 0.7)
                 (72 + 168 - 12 - 5 - (72 + 12 + 10))) ps'.
Proof.
  apply (cylinder_gas_contained 250 72 140 168 8 (Num 0) [realParticle 0 0 1 (-1) 4 None]);
    [|lra|lra].
  constructor; [|constructor]. exists 0, 0, 1, (-1), 4, None. split; [reflexivity | lra].
Defined.



(** ** The frame *)

Lemma drawContainer_some (b : Bounds) (c : ContainerData) (wl : num) (l : list Particle) :
  exists l' ops,
    drawContainer b c wl (Some l) = Done (Some l', ops)
    /\ length l' = length l
    /\ (c_matter c <> GAS -> l' = l).
Proof.
  destruct c as [id t m lab]. unfold drawContainer. cbn [c_type c_matter].
  destruct t, m;
    unfold drawCube, drawCylinder, drawSphereSlot, drawSphere, sphereContents,
      around, gasContents, updateParticles;
    cbv beta iota zeta; eexists _, _;
    (split; [reflexivity|]); (split; [try reflexivity; apply length_map|]);
    intros Hm; try reflexivity; contradiction.
Qed.

Lemma drawContainer_none_gas (b : Bounds) (c : ContainerData) (wl : num) :
  c_matter c = GAS -> exists ops, drawContainer b c wl None = TypeError (None, ops).
Proof.
  destruct c as [id t m lab]. cbn [c_matter]. intros ->.
  unfold drawContainer. cbn [c_type c_matter].
  destruct t; unfold drawCube, drawCylinder, drawSphereSlot, around, gasContents;
    cbv beta iota zeta; eexists; reflexivity.
Qed.

Lemma drawContainer_none_other (b : Bounds) (c : ContainerData) (wl : num) :
  c_matter c <> GAS -> exists ops, drawContainer b c wl None = Done (None, ops).
Proof.
  destruct c as [id t m lab]. cbn [c_matter]. intros Hm.
  unfold drawContainer. cbn [c_type c_matter].
  destruct t, m; try contradiction;
    unfold drawCube, drawCylinder, drawSphereSlot, around;
    cbv beta iota zeta; eexists; reflexivity.
Qed.

Lemma advanceFill_particles (i : nat) (st : SimState) :
  particles (advanceFill i st) = particles st.
Proof. reflexivity. Qed.

Lemma drawVessel_done (sel : option Z) (tableY : num) (i : nat) (b : Bounds)
    (c : ContainerData) (st : SimState) :
  (c_matter c = GAS -> is_Some (particles st !! i)) ->
  exists st' ops,
    drawVessel sel tableY i b c st = Done (st', ops)
    /\ waterLevels st' = waterLevels st
    /\ containerBounds st' = containerBounds st
    /\ currentWaterLevels st' = currentWaterLevels (advanceFill i st)
    /\ (forall j, j <> i -> particles st' !! j = particles st !! j)
    /\ drawn_slot b c (particles st !! i) (particles st' !! i).
Proof.
  intros Hslot. unfold drawVessel, drawn_slot. rewrite advanceFill_particles.
  destruct (particles st !! i) as [l|] eqn:Hl.
  - destruct (drawContainer_some b c (to_num (currentWaterLevels (advanceFill i st) !! i)) l)
      as (l' & ops & Hdraw & _). rewrite Hdraw.
    eexists _, _. split; [reflexivity|].
    cbn [store_particles set_particles waterLevels containerBounds currentWaterLevels particles
         advanceFill].
    split_and!; try reflexivity.
    + intros j Hj. now apply lookup_insert_ne.
    + exists l', (to_num (currentWaterLevels (advanceFill i st) !! i)), ops.
      split; [apply lookup_insert_eq | exact Hdraw].
  - assert (Hm : c_matter c <> GAS).
    { intros Hg. destruct (Hslot Hg) as [l Hsome]. discriminate Hsome. }
    destruct (drawContainer_none_other b c
                (to_num (currentWaterLevels (advanceFill i st) !! i)) Hm) as [ops Hdraw].
    rewrite Hdraw. eexists _, _. split; [reflexivity|].
    cbn [store_particles waterLevels containerBounds currentWaterLevels particles advanceFill].
    split_and!; try reflexivity; try assumption.
Qed.

Lemma drawVessel_throws (sel : option Z) (tableY : num) (i : nat) (b : Bounds)
    (c : ContainerData) (st : SimState) :
  c_matter c = GAS -> particles st !! i = None ->
  exists s', drawVessel sel tableY i b c st = TypeError s'.
Proof.
  intros Hg Hnone. unfold drawVessel. rewrite advanceFill_particles, Hnone.
  destruct (drawContainer_none_gas b c
              (to_num (currentWaterLevels (advanceFill i st) !! i)) Hg) as [ops ->].
  eexists. reflexivity.
Qed.

Section FrameFacts.
Variables (sel : option Z) (gap yBase tableY : num).

Lemma drawVessels_spec (cs : list ContainerData) :
  forall (i : nat) (st : SimState) (ops0 : list SceneOp),
    (forall j c, cs !! j = Some c -> c_matter c = GAS ->
                 is_Some (particles st !! (i + j)%nat)) ->
    exists st' ops,
      drawVessels sel gap yBase tableY i cs (st, ops0) = Done (st', ops)
      /\ waterLevels st' = waterLevels st
      /\ containerBounds st' = containerBounds st
      /\ (forall k, (k < i \/ i + length cs <= k)%nat ->
            particles st' !! k = particles st !! k
            /\ currentWaterLevels st' !! k = currentWaterLevels st !! k)
      /\ (forall j c, cs !! j = Some c ->
            currentWaterLevels st' !! (i + j)%nat
            = Some (fillStep (to_num (waterLevels st !! (i + j)%nat))
                             (to_num (currentWaterLevels st !! (i + j)%nat)))
            /\ drawn_slot (layoutBound gap yBase (i + j) c) c
                 (particles st !! (i + j)%nat) (particles st' !! (i + j)%nat)).
Proof.
  induction cs as [|c cs' IH]; intros i st ops0 Hslots.
  - exists st, ops0. split_and!; try reflexivity.
    + intros k _. split; reflexivity.
    + intros j c Hj. discriminate Hj.
  - destruct (drawVessel_done sel tableY i (layoutBound gap yBase i c) c st)
      as (st1 & ops1 & Hdraw & Hw1 & Hb1 & Hc1 & Hp1 & Hs1).
    { intros Hg. specialize (Hslots 0%nat c eq_refl Hg). now rewrite Nat.add_0_r in Hslots. }
    destruct (IH (S i) st1 (ops0 ++ ops1)) as (st2 & ops2 & Hrun & Hw2 & Hb2 & Hout2 & Hs2).
    { intros j c' Hj Hg. rewrite Hp1 by lia.
      replace (S i + j)%nat with (i + S j)%nat by lia. now apply (Hslots (S j) c'). }
    exists st2, ops2. cbn [drawVessels fst snd]. rewrite Hdraw.
    split; [exact Hrun|]. split; [congruence|]. split; [congruence|]. split.
    + intros k Hk. cbn [length] in Hk. destruct (Hout2 k) as [Hpk Hck]; [lia|].
      rewrite Hpk, Hck, Hc1, Hp1, advanceFill_lookup by lia.
      split; [reflexivity|]. rewrite decide_False by lia. reflexivity.
    + intros [|j] c' Hj.
      * injection Hj as <-. rewrite Nat.add_0_r.
        destruct (Hout2 i) as [Hpi Hci]; [lia|].
        rewrite Hpi, Hci, Hc1, advanceFill_lookup, decide_True by reflexivity.
        split; [reflexivity | exact Hs1].
      * replace (i + S j)%nat with (S i + j)%nat by lia.
        destruct (Hs2 j c' Hj) as [Hc Hs]. split.
        -- rewrite Hc, Hw1, Hc1, advanceFill_lookup, decide_False by lia. reflexivity.
        -- rewrite Hp1 in Hs by lia. exact Hs.
Qed.

Lemma drawVessels_throws (cs : list ContainerData) :
  forall (i : nat) (st : SimState) (ops0 : list SceneOp),
    (exists j c, cs !! j = Some c /\ c_matter c = GAS
                 /\ particles st !! (i + j)%nat = None) ->
    exists s', drawVessels sel gap yBase tableY i cs (st, ops0) = TypeError s'.
Proof.
  induction cs as [|a cs' IH]; intros i st ops0 (j & c & Hj & Hg & Hnone).
  - discriminate Hj.
  - cbn [drawVessels fst snd].
    destruct j as [|j].
    + injection Hj as ->. rewrite Nat.add_0_r in Hnone.
      destruct (drawVessel_throws sel tableY i (layoutBound gap yBase i c) c st Hg Hnone)
        as [[st1 ops1] ->]. eexists. reflexivity.
    + destruct (drawVessel sel tableY i (layoutBound gap yBase i a) a st)
        as [[st1 ops1]|[st1 ops1]] eqn:Hdraw; [|eexists; reflexivity].
      apply IH. exists j, c. split; [exact Hj|]. split; [exact Hg|].
      replace (S i + j)%nat with (i + S j)%nat by lia.
      assert (Hp : particles st1 !! (i + S j)%nat = particles st !! (i + S j)%nat).
      { destruct (particles st !! i) as [l|] eqn:Hl.
        - destruct (drawVessel_done sel tableY i (layoutBound gap yBase i a) a st)
            as (st1' & ops1' & Hd & _ & _ & _ & Hp1 & _).
          { intros _. now exists l. }
          rewrite Hd in Hdraw. injection Hdraw as <- _. apply Hp1. lia.
        - destruct (matter_eqb (c_matter a) GAS) eqn:Hm.
          + assert (c_matter a = GAS) by (now destruct (c_matter a)).
            destruct (drawVessel_throws sel tableY i (layoutBound gap yBase i a) a st)
              as [s' Hth]; [assumption | exact Hl |]. rewrite Hth in Hdraw. discriminate Hdraw.
          + destruct (drawVessel_done sel tableY i (layoutBound gap yBase i a) a st)
              as (st1' & ops1' & Hd & _ & _ & _ & Hp1 & _).
            { intros Hg'. rewrite Hg' in Hm. discriminate Hm. }
            rewrite Hd in Hdraw. injection Hdraw as <- _. apply Hp1. lia. }
      rewrite Hp. exact Hnone.
Qed.
End FrameFacts.

Section SceneFacts.
Variable toLength : num -> num.

Lemma drawScene_live (cs : list ContainerData) (sel : option Z) (cv : CanvasEl)
    (dpr : num) (st : SimState) :
  has_context cv = true ->
  exists size prepared,
    drawScene toLength cs sel (Some cv) dpr st
    = match drawVessels sel (layoutGap (rect_width cv))
              (layoutBase (mul (rect_height cv) (Num 0.7))) (mul (rect_height cv) (Num 0.7))
              0 cs
              (set_containerBounds st
                 (newBounds (rect_width cv) (mul (rect_height cv) (Num 0.7)) cs),
               prepared) with
      | Done (st', ops) => Done (mkFrame st' (Some size) ops true)
      | TypeError (st', ops) => TypeError (mkFrame st' (Some size) ops false)
      end.
Proof.
  intros Hctx. unfold drawScene. rewrite Hctx. cbn [negb].
  destruct (prepareCanvas toLength (orOne dpr) cv) as [size prepared].
  eexists _, _. reflexivity.
Qed.

Lemma drawScene_done_spec (cs : list ContainerData) (sel : option Z) (cv : CanvasEl)
    (dpr : num) (st : SimState) :
  has_context cv = true ->
  (forall j c, cs !! j = Some c -> c_matter c = GAS -> is_Some (particles st !! j)) ->
  exists fr,
    drawScene toLength cs sel (Some cv) dpr st = Done fr
    /\ fr_rescheduled fr = true
    /\ containerBounds (fr_state fr)
       = newBounds (rect_width cv) (mul (rect_height cv) (Num 0.7)) cs
    /\ waterLevels (fr_state fr) = waterLevels st
    /\ (forall k, (length cs <= k)%nat ->
          particles (fr_state fr) !! k = particles st !! k
          /\ currentWaterLevels (fr_state fr) !! k = currentWaterLevels st !! k)
    /\ (forall j c, cs !! j = Some c ->
          currentWaterLevels (fr_state fr) !! j
          = Some (fillStep (to_num (waterLevels st !! j)) (to_num (currentWaterLevels st !! j)))
          /\ drawn_slot
               (layoutBound (layoutGap (rect_width cv))
                  (layoutBase (mul (rect_height cv) (Num 0.7))) j c) c
               (particles st !! j) (particles (fr_state fr) !! j)).
Proof.
  intros Hctx Hslots.
  destruct (drawScene_live cs sel cv dpr st Hctx) as (size & prepared & ->).
  destruct (drawVessels_spec sel (layoutGap (rect_width cv))
              (layoutBase (mul (rect_height cv) (Num 0.7))) (mul (rect_height cv) (Num 0.7))
              cs 0
              (set_containerBounds st
                 (newBounds (rect_width cv) (mul (rect_height cv) (Num 0.7)) cs))
              prepared Hslots) as (st' & ops & -> & Hw & Hb & Hout & Hs).
  eexists. split; [reflexivity|]. cbn [fr_state fr_rescheduled].
  split; [reflexivity|]. split; [exact Hb|]. split; [exact Hw|]. split.
  - intros k Hk. apply Hout. right. lia.
  - intros j c Hj. exact (Hs j c Hj).
Qed.

Lemma drawScene_throws (cs : list ContainerData) (sel : option Z) (cv : CanvasEl)
    (dpr : num) (st : SimState) :
  has_context cv = true ->
  (exists j c, cs !! j = Some c /\ c_matter c = GAS /\ particles st !! j = None) ->
  exists fr, drawScene toLength cs sel (Some cv) dpr st = TypeError fr
             /\ fr_rescheduled fr = false.
Proof.
  intros Hctx Hmissing.
  destruct (drawScene_live cs sel cv dpr st Hctx) as (size & prepared & ->).
  destruct (drawVessels_throws sel (layoutGap (rect_width cv))
              (layoutBase (mul (rect_height cv) (Num 0.7))) (mul (rect_height cv) (Num 0.7))
              cs 0
              (set_containerBounds st
                 (newBounds (rect_width cv) (mul (rect_height cv) (Num 0.7)) cs))
              prepared Hmissing) as ([st' ops] & ->).
  eexists. split; reflexivity.
Qed.

Lemma drawScene_done_slots (cs : list ContainerData) (sel : option Z) (cv : CanvasEl)
    (dpr : num) (st : SimState) (fr : Frame) :
  has_context cv = true ->
  drawScene toLength cs sel (Some cv) dpr st = Done fr ->
  forall j c, cs !! j = Some c -> c_matter c = GAS -> is_Some (particles st !! j).
Proof.
  intros Hctx Hdone j c Hj Hg.
  destruct (particles st !! j) as [l|] eqn:Hl; [now exists l|].
  destruct (drawScene_throws cs sel cv dpr st Hctx) as (fr' & Hth & _).
  { exists j, c. now split_and!. }
  rewrite Hth in Hdone. discriminate Hdone.
Qed.

(** X19. A frame on a canvas with a context completes and requests the next
    frame when the store has a batch for every gas vessel; when a gas vessel
    has none, the frame throws and requests no further frame: the animation
    stops. *)
Theorem frame_completes_or_stops (cs : list ContainerData) (sel : option Z) (cv : CanvasEl)
    (dpr : num) (st : SimState) :
  has_context cv = true ->
  ((forall j c, cs !! j = Some c -> c_matter c = GAS -> is_Some (particles st !! j)) ->
   exists fr, drawScene toLength cs sel (Some cv) dpr st = Done fr
              /\ fr_rescheduled fr = true)
  /\ ((exists j c, cs !! j = Some c /\ c_matter c = GAS /\ particles st !! j = None) ->
      exists fr, drawScene toLength cs sel (Some cv) dpr st = TypeError fr
                 /\ fr_rescheduled fr = false).
Proof.
  intros Hctx. split.
  - intros Hslots.
    destruct (drawScene_done_spec cs sel cv dpr st Hctx Hslots) as (fr & Hdone & Hre & _).
    now exists fr.
  - now apply drawScene_throws.
Qed.

(** X20. What a completed frame does to the store: the bounds become the
    layout of the vessels for the size of the canvas rectangle, the target
    fills are kept, the fill of every vessel moves one twentieth of the way to
    its target, and the fills and batches of the slots beyond the vessels are
    kept. *)
Theorem frame_advances_every_fill (cs : list ContainerData) (sel : option Z) (cv : CanvasEl)
    (dpr : num) (st : SimState) (fr : Frame) :
  has_context cv = true ->
  drawScene toLength cs sel (Some cv) dpr st = Done fr ->
  containerBounds (fr_state fr)
  = newBounds (rect_width cv) (mul (rect_height cv) (Num 0.7)) cs
  /\ waterLevels (fr_state fr) = waterLevels st
  /\ (forall i c, cs !! i = Some c ->
        currentWaterLevels (fr_state fr) !! i
        = Some (fillStep (to_num (waterLevels st !! i)) (to_num (currentWaterLevels st !! i))))
  /\ (forall k, (length cs <= k)%nat ->
        particles (fr_state fr) !! k = particles st !! k
        /\ currentWaterLevels (fr_state fr) !! k = currentWaterLevels st !! k).
Proof.
  intros Hctx Hdone.
  pose proof (drawScene_done_slots cs sel cv dpr st fr Hctx Hdone) as Hslots.
  destruct (drawScene_done_spec cs sel cv dpr st Hctx Hslots)
    as (fr' & Hdone' & _ & Hb & Hw & Hout & Hs).
  rewrite Hdone' in Hdone. injection Hdone as <-.
  split; [exact Hb|]. split; [exact Hw|]. split; [|exact Hout].
  intros i c Hi. destruct (Hs i c Hi) as [Hc _]. exact Hc.
Qed.

(** X21. A frame keeps the store in step with the vessels: on a store that
    holds what the effect derives from the list, a frame on a canvas with a
    context completes, requests the next frame, and leaves such a store; a
    re-render then finds nothing to do, since the effect on it completes
    without changing it or drawing a random number. *)
Theorem frame_keeps_sync (cs : list ContainerData) (sel : option Z) (cv : CanvasEl)
    (dpr : num) (st : SimState) :
  has_context cv = true -> in_sync cs st ->
  exists fr,
    drawScene toLength cs sel (Some cv) dpr st = Done fr
    /\ fr_rescheduled fr = true
    /\ in_sync cs (fr_state fr)
    /\ forall (random : nat -> R) (k : nat),
         initEffect random cs (fr_state fr, k) = Done (fr_state fr, k).
Proof.
  intros Hctx Hsync.
  assert (Hslots : forall j c, cs !! j = Some c -> c_matter c = GAS ->
                               is_Some (particles st !! j)).
  { intros j c Hj Hg. destruct (Hsync j c Hj) as (_ & Hgas & _).
    destruct (Hgas Hg) as (p & ps & ->). eauto. }
  destruct (drawScene_done_spec cs sel cv dpr st Hctx Hslots)
    as (fr & Hdone & Hre & _ & Hw & _ & Hs).
  assert (Hsync' : in_sync cs (fr_state fr)).
  { intros i c Hi. destruct (Hsync i c Hi) as (Ht & Hgas & Hother).
    destruct (Hs i c Hi) as [_ Hslot]. rewrite Hw. split; [exact Ht|].
    unfold drawn_slot in Hslot. split.
    - intros Hg. destruct (Hgas Hg) as (p & ps & Hl). rewrite Hl in Hslot.
      destruct Hslot as (l' & wl & ops & -> & Hdraw).
      destruct (drawContainer_some
                  (layoutBound (layoutGap (rect_width cv))
                     (layoutBase (mul (rect_height cv) (Num 0.7))) i c) c wl (p :: ps))
        as (l'' & ops' & Hdraw' & Hlen & _).
      rewrite Hdraw' in Hdraw. injection Hdraw as -> _.
      destruct l' as [|q qs]; [discriminate Hlen | eauto].
    - intros Hg. rewrite (Hother Hg) in Hslot.
      destruct Hslot as (l' & wl & ops & -> & Hdraw).
      destruct (drawContainer_some
                  (layoutBound (layoutGap (rect_width cv))
                     (layoutBase (mul (rect_height cv) (Num 0.7))) i c) c wl [])
        as (l'' & ops' & Hdraw' & _ & Hsame).
      rewrite Hdraw' in Hdraw. injection Hdraw as -> _. now rewrite (Hsame Hg). }
  exists fr. split; [exact Hdone|]. split; [exact Hre|]. split; [exact Hsync'|].
  intros random k. apply effectLoop_in_sync_id. intros j c Hj. now apply Hsync'.
Qed.
End SceneFacts.

(** The store as the component creates it holds what the effect derives from
    the application's three empty vessels. *)
Lemma initial_in_sync : in_sync INITIAL_CONTAINERS (initialState INITIAL_CONTAINERS).
Proof.
  intros i c Hi.
  rewrite (initialState_slots INITIAL_CONTAINERS i c Hi).
  assert (Hm : c_matter c = EMPTY).
  { destruct i as [|[|[|i]]]; try discriminate Hi; now injection Hi as <-. }
  unfold targetFill. rewrite Hm. cbn [matter_eqb]. split_and!.
  - unfold initialState. cbn [waterLevels].
    rewrite lookup_map_seq_0, list_lookup_fmap, Hi. reflexivity.
  - intros Hg. discriminate Hg.
  - reflexivity.
Qed.

Lemma frame_completes_or_stops_witness :
  ((forall j c, labContainers !! j = Some c -> c_matter c = GAS ->
                is_Some (particles (initialState labContainers) !! j)) ->
   exists fr,
     drawScene (fun a => a) labContainers (Some 3%Z)
       (Some (mkCanvasEl (Num 0) (Num 0) (Num 620) (Num 400) true)) (Num 2)
       (initialState labContainers) = Done fr
     /\ fr_rescheduled fr = true)
  /\ ((exists j c, labContainers !! j = Some c /\ c_matter c = GAS
                   /\ particles (initialState labContainers) !! j = None) ->
      exists fr,
        drawScene (fun a => a) labContainers (Some 3%Z)
          (Some (mkCanvasEl (Num 0) (Num 0) (Num 620) (Num 400) true)) (Num 2)
          (initialState labContainers) = TypeError fr
        /\ fr_rescheduled fr = false).
Proof.
  apply (frame_completes_or_stops (fun a => a) labContainers (Some 3%Z)
           (mkCanvasEl (Num 0) (Num 0) (Num 620) (Num 400) true) (Num 2)
           (initialState labContainers)).
  reflexivity.
Defined.

Lemma frame_advances_every_fill_witness :
  exists fr,
    drawScene (fun a => a) INITIAL_CONTAINERS None
      (Some (mkCanvasEl (Num 0) (Num 0) (Num 620) (Num 400) true)) (Num 1)
      (initialState INITIAL_CONTAINERS) = Done fr
    /\ containerBounds (fr_state fr)
       = newBounds (Num 620) (mul (Num 400) (Num 0.7)) INITIAL_CONTAINERS
    /\ waterLevels (fr_state fr) = waterLevels (initialState INITIAL_CONTAINERS)
    /\ (forall i c, INITIAL_CONTAINERS !! i = Some c ->
          currentWaterLevels (fr_state fr) !! i
          = Some (fillStep (to_num (waterLevels (initialState INITIAL_CONTAINERS) !! i))
                    (to_num (currentWaterLevels (initialState INITIAL_CONTAINERS) !! i))))
    /\ (forall k, (length INITIAL_CONTAINERS <= k)%nat ->
          particles (fr_state fr) !! k = particles (initialState INITIAL_CONTAINERS) !! k
          /\ currentWaterLevels (fr_state fr) !! k
             = currentWaterLevels (initialState INITIAL_CONTAINERS) !! k).
Proof.
  destruct (drawScene_done_spec (fun a => a) INITIAL_CONTAINERS None
              (mkCanvasEl (Num 0) (Num 0) (Num 620) (Num 400) true) (Num 1)
              (initialState INITIAL_CONTAINERS) eq_refl) as (fr & Hdone & _).
  { intros j c Hj _. rewrite (initialState_slots INITIAL_CONTAINERS j c Hj). eauto. }
  exists fr. split; [exact Hdone|].
  exact (frame_advances_every_fill (fun a => a) INITIAL_CONTAINERS None
           (mkCanvasEl (Num 0) (Num 0) (Num 620) (Num 400) true) (Num 1)
           (initialState INITIAL_CONTAINERS) fr eq_refl Hdone).
Defined.

Lemma frame_keeps_sync_witness :
  exists fr,
    drawScene (fun a => a) INITIAL_CONTAINERS None
      (Some (mkCanvasEl (Num 0) (Num 0) (Num 620) (Num 400) true)) (Num 1)
      (initialState INITIAL_CONTAINERS) = Done fr
    /\ fr_rescheduled fr = true
    /\ in_sync INITIAL_CONTAINERS (fr_state fr)
    /\ forall (random : nat -> R) (k : nat),
         initEffect random INITIAL_CONTAINERS (fr_state fr, k) = Done (fr_state fr, k).
Proof.
  apply (frame_keeps_sync (fun a => a) INITIAL_CONTAINERS None
           (mkCanvasEl (Num 0) (Num 0) (Num 620) (Num 400) true) (Num 1)
           (initialState INITIAL_CONTAINERS) eq_refl initial_in_sync).
Defined.

(** ** Gas stays in its vessel, frame after frame *)

Lemma insideRect_ext (bx by_ bw bh bx' by' bw' bh' : R) (p : Particle) :
  bx = bx' -> by_ = by' -> bw = bw' -> bh = bh' ->
  insideRect bx by_ bw bh p -> insideRect bx' by' bw' bh' p.
Proof. now intros -> -> -> ->. Qed.

Lemma insideDisc_ext (cx cy rad cx' cy' rad' : R) (p : Particle) :
  cx = cx' -> cy = cy' -> rad = rad' ->
  insideDisc cx cy rad p -> insideDisc cx' cy' rad' p.
Proof. now intros -> -> ->. Qed.

Lemma drawContainer_gas_inside (id : Z) (bx by_ : R) (c : ContainerData) (wl : num)
    (l l' : list Particle) (ops : list SceneOp) :
  c_matter c = GAS ->
  Forall (realWithRadius 0 8) l ->
  drawContainer (mkBounds id (Num bx) (Num by_) (Num 140) (Num 140)) c wl (Some l)
  = Done (Some l', ops) ->
  Forall (realWithRadius 0 8) l' /\ Forall (insideVessel (c_type c) bx by_) l'.
Proof.
  destruct c as [cid t m lab]. cbn [c_matter c_type]. intros -> Hl.
  unfold drawContainer. cbn [c_type c_matter b_x b_y b_w b_h mul add sub].
  destruct t; intros Hdraw.
  - destruct (drawCube_gas bx by_ 140 140 wl l) as [ops' Heq].
    rewrite Heq in Hdraw. injection Hdraw as <- _.
    destruct (Forall_map_tick (realWithRadius 0 8)
                (insideRect (bx + 10) (by_ + 10 + 140 * 0.3 / 2) (140 - 10 * 2)
                   (140 - 10 * 2 - 140 * 0.3 / 2))
                (updateParticle RECT (Num (bx + 10)) (Num (by_ + 10 + 140 * 0.3 / 2))
                   (Num (140 - 10 * 2)) (Num (140 - 10 * 2 - 140 * 0.3 / 2))) l) as [HP HQ];
      [intros p Hp; apply rect_tick_inside; [exact Hp | lra | lra] | exact Hl |].
    split; [exact HP|]. eapply Forall_impl; [exact HQ|].
    intros p. cbn [insideVessel]. apply insideRect_ext; lra.
  - destruct (drawCylinder_gas bx (by_ + 140 - 140 * 1.2) 140 (140 * 1.2) wl l) as [ops' Heq].
    rewrite Heq in Hdraw. injection Hdraw as <- _.
    destruct (Forall_map_tick (realWithRadius 0 8)
                (insideRect (bx + (140 - 140 * 0.7) / 2) (by_ + 140 - 140 * 1.2 + 12 + 10)
                   (140 * 0.7)
                   (by_ + 140 - 140 * 1.2 + 140 * 1.2 - 12 - 5
                    - (by_ + 140 - 140 * 1.2 + 12 + 10)))
                (updateParticle RECT (Num (bx + (140 - 140 * 0.7) / 2))
                   (Num (by_ + 140 - 140 * 1.2 + 12 + 10)) (Num (140 * 0.7))
                   (Num (by_ + 140 - 140 * 1.2 + 140 * 1.2 - 12 - 5
                         - (by_ + 140 - 140 * 1.2 + 12 + 10)))) l) as [HP HQ];
      [intros p Hp; apply rect_tick_inside; [exact Hp | lra | lra] | exact Hl |].
    split; [exact HP|]. eapply Forall_impl; [exact HQ|].
    intros p. cbn [insideVessel]. apply insideRect_ext; lra.
  - destruct (drawSphereSlot_gas bx by_ 140 140 wl l) as [ops' Heq].
    rewrite Heq in Hdraw. injection Hdraw as <- _.
    destruct (Forall_map_tick (realWithRadius 0 8)
                (insideDisc (bx + 140 / 2) (by_ + 140 / 2 + 10) (140 / 2 - 10))
                (updateParticle CIRCLE (Num (bx + 140 / 2)) (Num (by_ + 140 / 2 + 10))
                   (Num (140 / 2 - 10)) (Num (140 / 2 - 10))) l) as [HP HQ];
      [intros p Hp; apply circle_tick_inside; [exact Hp | lra] | exact Hl |].
    split; [exact HP|]. eapply Forall_impl; [exact HQ|].
    intros p. cbn [insideVessel]. apply insideDisc_ext; lra.
Qed.

(** X22. Gas stays in its vessel: on a canvas with a context whose rectangle
    is [width x height], if the batch of every gas vessel is made of
    particles with real numbers and radii in [[0, 8]], the frame completes
    and afterwards every particle of every gas vessel is again such a
    particle and lies inside the interior of its vessel as laid out for this
    frame (the front face of the tank, the body of the jar, the disc of the
    bowl, each shrunk by the particle's radius). *)
Theorem frame_gas_contained (toLength : num -> num) (cs : list ContainerData) (sel : option Z)
    (cw ch dpr : num) (width height : R) (st : SimState) :
  (forall i c, cs !! i = Some c -> c_matter c = GAS ->
     exists l, particles st !! i = Some l /\ Forall (realWithRadius 0 8) l) ->
  exists fr,
    drawScene toLength cs sel (Some (mkCanvasEl cw ch (Num width) (Num height) true)) dpr st
    = Done fr
    /\ forall i c, cs !! i = Some c -> c_matter c = GAS ->
         exists l',
           particles (fr_state fr) !! i = Some l'
           /\ Forall (realWithRadius 0 8) l'
           /\ Forall (insideVessel (c_type c)
                        ((width - 140 * 3) / 4
                         + IZR (Z.of_nat i) * (140 + (width - 140 * 3) / 4))
                        (height * 0.7 - 140 + 40)) l'.
Proof.
  intros Hgas.
  destruct (drawScene_done_spec toLength cs sel
              (mkCanvasEl cw ch (Num width) (Num height) true) dpr st eq_refl)
    as (fr & Hdone & _ & _ & _ & _ & Hs).
  { intros j c Hj Hg. destruct (Hgas j c Hj Hg) as (l & -> & _). eauto. }
  exists fr. split; [exact Hdone|].
  intros i c Hi Hg. destruct (Hgas i c Hi Hg) as (l & Hl & Hreal).
  destruct (Hs i c Hi) as [_ Hslot]. unfold drawn_slot in Hslot. rewrite Hl in Hslot.
  destruct Hslot as (l' & wl & ops & Hl' & Hdraw).
  cbn [rect_width rect_height mul] in Hdraw. rewrite layoutBound_real in Hdraw.
  exists l'. split; [exact Hl'|].
  exact (drawContainer_gas_inside _ _ _ c wl l l' ops Hg Hreal Hdraw).
Qed.

(** A bowl of gas with one particle spawned at the origin. *)
Lemma frame_gas_contained_witness :
  exists fr,
    drawScene (fun a => a) [roundBowl] None
      (Some (mkCanvasEl (Num 0) (Num 0) (Num 620) (Num 400) true)) (Num 1)
      (mkSimState {[ 0%nat := Num 0 ]} {[ 0%nat := Num 0 ]}
         {[ 0%nat := [realParticle 0 0 1 (-1) 4 None] ]} [])
    = Done fr
    /\ forall i c, [roundBowl] !! i = Some c -> c_matter c = GAS ->
         exists l',
           particles (fr_state fr) !! i = Some l'
           /\ Forall (realWithRadius 0 8) l'
           /\ Forall (insideVessel (c_type c)
                        ((620 - 140 * 3) / 4 + IZR (Z.of_nat i) * (140 + (620 - 140 * 3) / 4))
                        (400 * 0.7 - 140 + 40)) l'.
Proof.
  apply (frame_gas_contained (fun a => a) [roundBowl] None (Num 0) (Num 0) (Num 1) 620 400
           (mkSimState {[ 0%nat := Num 0 ]} {[ 0%nat := Num 0 ]}
              {[ 0%nat := [realParticle 0 0 1 (-1) 4 None] ]} [])).
  intros [|i] c Hi _; [|discriminate Hi].
  exists [realParticle 0 0 1 (-1) 4 None]. split; [reflexivity|].
  constructor; [|constructor]. exists 0, 0, 1, (-1), 4, None. split; [reflexivity | lra].
Defined.

Lemma newParticle_real (random : nat -> R) (k : nat) :
  (forall n, 0 <= random n < 1) -> realWithRadius 0 8 (newParticle random k).
Proof.
  intros Hr. pose proof (Hr (k + 2)%nat).
  eexists _, _, _, _, _, _. split; [reflexivity | lra].
Qed.

Lemma newParticles_real (random : nat -> R) (k : nat) :
  (forall n, 0 <= random n < 1) -> Forall (realWithRadius 0 8) (newParticles random k).
Proof.
  intros Hr. unfold newParticles. apply List.Forall_forall. intros p Hp.
  apply in_map_iff in Hp. destruct Hp as (i & <- & _). now apply newParticle_real.
Qed.

(** X23. The batches the effect leaves for the gas vessels: with
    [Math.random] in [[0, 1)], on a store whose batches are made of particles
    with real numbers and radii in [[0, 8]], a completed effect leaves every
    gas vessel with a non-empty batch of such particles (the one it had, or
    forty spawned ones), which is what a frame needs to keep the gas inside. *)
Theorem effect_gas_batches_real (random : nat -> R) (cs : list ContainerData)
    (st st' : SimState) (k k' : nat) :
  (forall n, 0 <= random n < 1) ->
  (forall i l, particles st !! i = Some l -> Forall (realWithRadius 0 8) l) ->
  initEffect random cs (st, k) = Done (st', k') ->
  forall i c, cs !! i = Some c -> c_matter c = GAS ->
    exists l', particles st' !! i = Some l' /\ l' <> [] /\ Forall (realWithRadius 0 8) l'.
Proof.
  intros Hr Hreal Hdone i c Hi Hg.
  assert (Hslots : forall j c, cs !! j = Some c -> c_matter c = GAS ->
                               is_Some (particles st !! j)).
  { intros j c0 Hj Hg0.
    destruct (particles st !! j) as [batch|] eqn:Hbatch; [now exists batch|].
    destruct (effectLoop_throws random cs 0 st k) as [s'' Hthrow].
    { exists j, c0. now split_and!. }
    unfold initEffect in Hdone. rewrite Hthrow in Hdone. discriminate Hdone. }
  destruct (effectLoop_spec random cs 0 st k Hslots) as (st2 & k2 & Hrun & _ & _ & _ & Hs).
  unfold initEffect in Hdone. rewrite Hrun in Hdone. injection Hdone as -> ->.
  destruct (Hs i c Hi) as [_ Hb]. cbn [Nat.add] in Hb.
  unfold batch_after in Hb. rewrite Hg in Hb.
  destruct (particles st !! i) as [[|p ps]|] eqn:Hold; [| |contradiction].
  - destruct Hb as [k0 ->]. exists (newParticles random k0). split; [reflexivity|].
    split; [|now apply newParticles_real].
    intros Hnil. apply (f_equal (@length Particle)) in Hnil.
    rewrite newParticles_length in Hnil. discriminate Hnil.
  - exists (p :: ps). split; [exact Hb|]. split; [discriminate|].
    exact (Hreal i (p :: ps) Hold).
Qed.

Lemma effect_gas_batches_real_witness :
  exists st' k',
    initEffect (fun _ => 0.5) labContainers (initialState labContainers, 0%nat) = Done (st', k')
    /\ forall i c, labContainers !! i = Some c -> c_matter c = GAS ->
         exists l', particles st' !! i = Some l' /\ l' <> []
                    /\ Forall (realWithRadius 0 8) l'.
Proof.
  destruct (effectLoop_spec (fun _ => 0.5) labContainers 0 (initialState labContainers) 0)
    as (st' & k' & Hrun & _).
  { intros j c Hj _. cbn [Nat.add].
    rewrite (initialState_slots labContainers j c Hj). eauto. }
  exists st', k'. split; [exact Hrun|].
  apply (effect_gas_batches_real (fun _ => 0.5) labContainers (initialState labContainers)
           st' 0 k'); [intros _; lra | | exact Hrun].
  intros i l Hl. unfold initialState in Hl. cbn [particles] in Hl.
  rewrite lookup_map_seq_0, list_lookup_fmap in Hl.
  destruct (labContainers !! i); [|discriminate Hl]. injection Hl as <-. constructor.
Defined.

(** ** The application *)

Lemma set_matter_lookup (m : MatterState) (sel : Z) (cs : list ContainerData) (i : nat) :
  ((fun c => if (c_id c =? sel)%Z then with_matter c m else c) <$> cs) !! i
  = (fun c => if (c_id c =? sel)%Z then with_matter c m else c) <$> cs !! i.
Proof. apply list_lookup_fmap. Qed.

(** X24. Choosing a material never changes which vessels there are: the
    number of vessels, their ids, shapes and labels, their order and the
    selection are kept; with a selection, exactly the vessels with the
    selected id get the chosen matter and the others keep theirs; without a
    selection nothing changes and the alert is shown. *)
Theorem set_matter_keeps_vessels (m : MatterState) (s : AppState) :
  let s' := fst (handleSetMatter m s) in
  map c_id (app_containers s') = map c_id (app_containers s)
  /\ map c_type (app_containers s') = map c_type (app_containers s)
  /\ map c_label (app_containers s') = map c_label (app_containers s)
  /\ app_selectedId s' = app_selectedId s
  /\ (snd (handleSetMatter m s) = true <-> app_selectedId s = None)
  /\ (app_selectedId s = None -> s' = s)
  /\ (forall sel, app_selectedId s = Some sel ->
        map c_matter (app_containers s')
        = map (fun c => if (c_id c =? sel)%Z then m else c_matter c) (app_containers s)).
Proof.
  cbv zeta. unfold handleSetMatter. destruct s as [cs [sel|]]; cbn [app_selectedId app_containers fst snd].
  - assert (Hmap : forall (A : Type) (g h : ContainerData -> A),
               (forall c, g (if (c_id c =? sel)%Z then with_matter c m else c) = h c) ->
               map g ((fun c => if (c_id c =? sel)%Z then with_matter c m else c) <$> cs)
               = map h cs).
    { intros A g h Hgh. induction cs as [|c cs' IH]; [reflexivity|].
      cbn [fmap list_fmap map]. f_equal; [apply Hgh | exact IH]. }
    split_and!; try reflexivity.
    + apply Hmap. intros c. now destruct (c_id c =? sel)%Z.
    + apply Hmap. intros c. now destruct (c_id c =? sel)%Z.
    + apply Hmap. intros c. now destruct (c_id c =? sel)%Z.
    + split; discriminate.
    + discriminate.
    + intros sel' [= <-]. apply Hmap. intros c. now destruct (c_id c =? sel)%Z.
  - split_and!; try reflexivity.
    + split; reflexivity.
    + discriminate.
Qed.

Lemma find_set_matter (m : MatterState) (sel : Z) (cs : list ContainerData) (c : ContainerData) :
  List.find (fun c => (c_id c =? sel)%Z) cs = Some c ->
  List.find (fun c => (c_id c =? sel)%Z)
    ((fun c => if (c_id c =? sel)%Z then with_matter c m else c) <$> cs)
  = Some (with_matter c m).
Proof.
  induction cs as [|a cs' IH]; [discriminate|].
  cbn [List.find fmap list_fmap]. destruct (c_id a =? sel)%Z eqn:Ha.
  - intros [= <-]. cbn [with_matter c_id]. now rewrite Ha.
  - rewrite Ha. exact IH.
Qed.

(** X25. The banner follows the material: when a vessel of the list is
    selected, choosing a material makes the current fact the fact of that
    material, and the selected vessel is still found, with its id. *)
Theorem fact_follows_matter (m : MatterState) (s : AppState) (c : ContainerData) :
  selectedContainer s = Some c ->
  let s' := fst (handleSetMatter m s) in
  currentFact s' = FACTS m
  /\ selectedContainer s' = Some (with_matter c m).
Proof.
  unfold selectedContainer, currentFact, handleSetMatter.
  destruct s as [cs [sel|]]; cbn [app_selectedId app_containers fst]; [|discriminate].
  intros Hfind. cbv zeta. unfold selectedContainer. cbn [app_selectedId app_containers].
  rewrite (find_set_matter m sel cs c Hfind). split; reflexivity.
Qed.

Lemma fact_follows_matter_witness :
  currentFact (fst (handleSetMatter GAS (handleSelectContainer 3 initialApp))) = FACTS GAS
  /\ selectedContainer (fst (handleSetMatter GAS (handleSelectContainer 3 initialApp)))
     = Some (with_matter (mkContainerData 3 SPHERE EMPTY "Round Bowl") GAS).
Proof.
  apply (fact_follows_matter GAS (handleSelectContainer 3 initialApp)
           (mkContainerData 3 SPHERE EMPTY "Round Bowl")).
  reflexivity.
Defined.

Lemma fold_select (ids : list Z) :
  forall s : AppState,
    app_containers (fold_left (fun s' id => handleSelectContainer id s') ids s)
    = app_containers s
    /\ app_selectedId (fold_left (fun s' id => handleSelectContainer id s') ids s)
       = match last ids with Some id => Some id | None => app_selectedId s end.
Proof.
  induction ids as [|id ids IH]; intros s; [split; reflexivity|].
  cbn [fold_left]. destruct (IH (handleSelectContainer id s)) as [Hc Hs].
  split; [exact Hc|]. rewrite Hs. cbn [handleSelectContainer app_selectedId].
  destruct ids as [|id' ids']; [reflexivity|].
  change (last (id :: id' :: ids')) with (last (id' :: ids')).
  destruct (last (id' :: ids')) eqn:Hlast; [reflexivity|].
  apply last_None in Hlast. discriminate Hlast.
Qed.

(** X26. A click changes nothing but the selection, and the selection it
    leaves is the last vessel reported for it, in the order of the bounds;
    when no vessel is reported (or there is no canvas) the selection stays. *)
Theorem click_selects_last_reported (canvas : option (num * num)) (clientX clientY : num)
    (st : SimState) (s : AppState) :
  app_containers (clickCanvas canvas clientX clientY st s) = app_containers s
  /\ app_selectedId (clickCanvas canvas clientX clientY st s)
     = match last (handleClick canvas clientX clientY st) with
       | Some id => Some id
       | None => app_selectedId s
       end
  /\ (canvas = None -> clickCanvas canvas clientX clientY st s = s).
Proof.
  unfold clickCanvas.
  destruct (fold_select (handleClick canvas clientX clientY st) s) as [Hc Hs].
  split; [exact Hc|]. split; [exact Hs|]. now intros ->.
Qed.

(** X27. From the pointer to the selection: after a completed frame on a
    canvas whose rectangle is wider than [500], a click whose point (relative
    to the canvas) lies on the rectangle of the [i]-th vessel as this frame
    laid it out selects that vessel, whatever was selected before. *)
Theorem click_selects_the_vessel (toLength : num -> num) (cs : list ContainerData)
    (sel : option Z) (cw ch dpr : num) (width height rect_left rect_top clientX clientY : R)
    (st : SimState) (fr : Frame) (s : AppState) (i : nat) (c : ContainerData) :
  500 < width ->
  drawScene toLength cs sel (Some (mkCanvasEl cw ch (Num width) (Num height) true)) dpr st
  = Done fr ->
  cs !! i = Some c ->
  (width - 140 * 3) / 4 + IZR (Z.of_nat i) * (140 + (width - 140 * 3) / 4)
  <= clientX - rect_left
  <= (width - 140 * 3) / 4 + IZR (Z.of_nat i) * (140 + (width - 140 * 3) / 4) + 140 ->
  height * 0.7 - 140 + 40 <= clientY - rect_top <= height * 0.7 - 140 + 40 + 140 ->
  app_selectedId
    (clickCanvas (Some (Num rect_left, Num rect_top)) (Num clientX) (Num clientY)
       (fr_state fr) s)
  = Some (c_id c).
Proof.
  intros Hw Hdone Hi Hx Hy.
  set (cv := mkCanvasEl cw ch (Num width) (Num height) true) in *.
  assert (Hctx : has_context cv = true) by reflexivity.
  pose proof (drawScene_done_slots toLength cs sel cv dpr st fr Hctx Hdone) as Hslots.
  destruct (drawScene_done_spec toLength cs sel cv dpr st Hctx Hslots)
    as (fr' & Hdone' & _ & Hb & _).
  rewrite Hdone' in Hdone. injection Hdone as <-.
  unfold cv in Hb. cbn [rect_width rect_height mul] in Hb.
  unfold clickCanvas. destruct (fold_select
    (handleClick (Some (Num rect_left, Num rect_top)) (Num clientX) (Num clientY) (fr_state fr'))
    s) as [_ ->].
  rewrite handleClick_hitTest, Hb.
  set (bs := newBounds (Num width) (Num (height * 0.7)) cs).
  set (px := Num (clientX - rect_left)). set (py := Num (clientY - rect_top)).
  assert (Hin : In (c_id c) (hitTest bs px py)).
  { apply hitTest_In.
    exists (mkBounds (c_id c)
              (Num ((width - 140 * 3) / 4
                    + IZR (Z.of_nat i) * (140 + (width - 140 * 3) / 4)))
              (Num (height * 0.7 - 140 + 40)) (Num 140) (Num 140)).
    split; [|split; [apply inHitbox_hit; lra | reflexivity]].
    apply list_elem_of_In, (list_elem_of_lookup_2 _ i).
    unfold bs. now rewrite newBounds_lookup, Hi. }
  assert (Hlen : (length (hitTest bs px py) <= 1)%nat).
  { unfold hitTest. rewrite length_map. now apply layout_single_report. }
  destruct (hitTest bs px py) as [|id [|id' rest]]; [contradiction | | cbn in Hlen; lia].
  destruct Hin as [->|[]]. reflexivity.
Qed.

Lemma click_selects_the_vessel_witness :
  exists fr,
    drawScene (fun a => a) INITIAL_CONTAINERS None
      (Some (mkCanvasEl (Num 0) (Num 0) (Num 620) (Num 400) true)) (Num 1)
      (initialState INITIAL_CONTAINERS) = Done fr
    /\ app_selectedId
         (clickCanvas (Some (Num 8, Num 100)) (Num 308) (Num 300) (fr_state fr) initialApp)
       = Some 2%Z.
Proof.
  destruct (drawScene_done_spec (fun a => a) INITIAL_CONTAINERS None
              (mkCanvasEl (Num 0) (Num 0) (Num 620) (Num 400) true) (Num 1)
              (initialState INITIAL_CONTAINERS) eq_refl) as (fr & Hdone & _).
  { intros j c Hj _. rewrite (initialState_slots INITIAL_CONTAINERS j c Hj). eauto. }
  exists fr. split; [exact Hdone|].
  apply (click_selects_the_vessel (fun a => a) INITIAL_CONTAINERS None (Num 0) (Num 0) (Num 1)
           620 400 8 100 308 300 (initialState INITIAL_CONTAINERS) fr initialApp 1
           (mkContainerData 2 CYLINDER EMPTY "Tall Jar")); try exact Hdone; try reflexivity.
  - lra.
  - change (Z.of_nat 1) with 1%Z. lra.
  - lra.
Defined.

(** X28. Choosing a material touches one slot of the store: on a store that
    holds what the effect derives from the vessels, after a material has been
    chosen for the selected vessel the effect for the new list completes and
    leaves such a store for the new list; the current fills are kept, and so
    are the target fill and the batch of every vessel whose id is not the
    selected one. *)
Theorem set_matter_touches_one_slot (random : nat -> R) (m : MatterState) (s : AppState)
    (sel : Z) (st : SimState) (k : nat) :
  app_selectedId s = Some sel ->
  in_sync (app_containers s) st ->
  exists st' k',
    initEffect random (app_containers (fst (handleSetMatter m s))) (st, k) = Done (st', k')
    /\ in_sync (app_containers (fst (handleSetMatter m s))) st'
    /\ currentWaterLevels st' = currentWaterLevels st
    /\ forall i c, app_containers s !! i = Some c -> c_id c <> sel ->
         particles st' !! i = particles st !! i
         /\ waterLevels st' !! i = waterLevels st !! i.
Proof.
  intros Hsel Hsync. unfold handleSetMatter. rewrite Hsel. cbn [fst app_containers].
  set (f := fun c => if (c_id c =? sel)%Z then with_matter c m else c).
  assert (Hslots : forall j c', (f <$> app_containers s) !! j = Some c' ->
                                c_matter c' = GAS -> is_Some (particles st !! j)).
  { intros j c' Hj _. rewrite list_lookup_fmap in Hj.
    destruct (app_containers s !! j) as [c|] eqn:Hc; [|discriminate Hj].
    destruct (Hsync j c Hc) as (_ & Hgas & Hother).
    destruct (c_matter c) eqn:Hm;
      try (rewrite Hother by discriminate; eauto).
    destruct (Hgas eq_refl) as (p & ps & ->). eauto. }
  destruct (effectLoop_spec random (f <$> app_containers s) 0 st k Hslots)
    as (st' & k' & Hrun & Hcur & _ & _ & Hs).
  exists st', k'. split; [exact Hrun|].
  split; [exact (effect_establishes_sync random _ st st' k k' Hrun)|].
  split; [exact Hcur|].
  intros i c Hi Hne.
  assert (Hi' : (f <$> app_containers s) !! i = Some c).
  { rewrite list_lookup_fmap, Hi. cbn. unfold f.
    destruct (c_id c =? sel)%Z eqn:Heq; [|reflexivity].
    apply Z.eqb_eq in Heq. contradiction. }
  destruct (Hs i c Hi') as [Hw Hb]. cbn [Nat.add] in Hw, Hb.
  destruct (Hsync i c Hi) as (Ht & Hgas & Hother).
  split; [|now rewrite Hw, Ht].
  unfold batch_after in Hb. destruct (c_matter c) eqn:Hm;
    try (rewrite Hb, Hother by discriminate; reflexivity).
  destruct (Hgas eq_refl) as (p & ps & Hl). rewrite Hl in Hb. now rewrite Hb, Hl.
Qed.

Lemma set_matter_touches_one_slot_witness :
  exists st' k',
    initEffect (fun _ => 0.5)
      (app_containers (fst (handleSetMatter GAS (handleSelectContainer 3 initialApp))))
      (initialState INITIAL_CONTAINERS, 0%nat) = Done (st', k')
    /\ in_sync (app_containers (fst (handleSetMatter GAS (handleSelectContainer 3 initialApp))))
         st'
    /\ currentWaterLevels st' = currentWaterLevels (initialState INITIAL_CONTAINERS)
    /\ forall i c, app_containers (handleSelectContainer 3 initialApp) !! i = Some c ->
         c_id c <> 3%Z ->
         particles st' !! i = particles (initialState INITIAL_CONTAINERS) !! i
         /\ waterLevels st' !! i = waterLevels (initialState INITIAL_CONTAINERS) !! i.
Proof.
  apply (set_matter_touches_one_slot (fun _ => 0.5) GAS (handleSelectContainer 3 initialApp) 3
           (initialState INITIAL_CONTAINERS) 0).
  - reflexivity.
  - exact initial_in_sync.
Defined.
